(** * Site extractors of youtube-dl: a shallow embedding and its properties

    The development follows the five extractor modules of the repository
    ([appletrailers.py], [ertflix.py], [livestreamfails.py], [nrk.py],
    [rai.py]).  Python values are embedded as follows.

    - A Python text string is a [string]: a sequence of 8-bit characters.
      Character classes of regular expressions ([\d], [\s], [a-z], ...),
      [str.strip] and [str.lower] are the ASCII ones.
    - A Python [float] is a binary64 number of IEEE 754, as [SpecFloat]
      of the library specifies it: a text is read as the nearest float,
      an [int] is converted to the nearest float or raises
      [OverflowError], and [+] rounds to nearest, ties to even.
    - Where Python 2 and Python 3 differ the model follows Python 3:
      [int] and [float] read digits grouped by underscores, and ordering
      [None] against a number raises [TypeError].
    - A value of Python is a [value]; a dict is a list of keys and values
      in the order of insertion.
    - An exception is a value of type [exn]; code that can raise returns a
      [result].  Code that talks to the network runs in the monad [M],
      which threads the list of requests made so far.
    - The methods of [InfoExtractor] (module [common.py]), the helpers of
      [utils.py], the parsers of the Python library and the order in which
      a set is iterated are not part of the five modules: they are the
      fields of the class [Host], or are modelled from the specification
      where a definition says so.

    The first part holds the definitions, the second part the theorems. *)

From Stdlib Require Import String Ascii List ZArith QArith Lia Bool Arith.
From Stdlib Require Import Permutation Sorted DecimalString.
From Corelib Require SpecFloat.
Import ListNotations.
Close Scope Q_scope.
Open Scope list_scope.
Open Scope string_scope.

Set Implicit Arguments.
Set Warnings "-register-all".

(* ================================================================== *)
(** * Python strings *)

Module Py.

Definition is_digit (c : ascii) : bool :=
  let n := nat_of_ascii c in (48 <=? n)%nat && (n <=? 57)%nat.

Definition is_upper (c : ascii) : bool :=
  let n := nat_of_ascii c in (65 <=? n)%nat && (n <=? 90)%nat.

Definition is_lower (c : ascii) : bool :=
  let n := nat_of_ascii c in (97 <=? n)%nat && (n <=? 122)%nat.

Definition is_alnum (c : ascii) : bool :=
  is_digit c || is_upper c || is_lower c.

(** The characters [str.strip()] removes: space, [\t], [\n], [\v], [\f],
    [\r]. *)
Definition is_space (c : ascii) : bool :=
  let n := nat_of_ascii c in
  (n =? 32)%nat || ((9 <=? n)%nat && (n <=? 13)%nat).

(** [s.split(sep)] for a one-character separator. *)
Fixpoint split (sep : ascii) (s : string) : list string :=
  match s with
  | EmptyString => [EmptyString]
  | String c s' =>
      if Ascii.eqb c sep then EmptyString :: split sep s'
      else match split sep s' with
           | [] => [String c EmptyString]
           | w :: ws => String c w :: ws
           end
  end.

(** [sep.join(parts)]. *)
Fixpoint join (sep : string) (parts : list string) : string :=
  match parts with
  | [] => EmptyString
  | [w] => w
  | w :: ws => w ++ sep ++ join sep ws
  end.

(** [parts[-1]] on the result of a [split], which is never empty. *)
Definition last_part (parts : list string) : string :=
  List.last parts EmptyString.

(** [s.rpartition(sep)[0]]: the text before the last separator, the
    empty string when there is none. *)
Definition rpartition_head (sep : ascii) (s : string) : string :=
  join (String sep EmptyString) (removelast (split sep s)).

Definition lower_char (c : ascii) : ascii :=
  if is_upper c then ascii_of_nat (nat_of_ascii c + 32) else c.

(** [s.lower()]. *)
Fixpoint lower (s : string) : string :=
  match s with
  | EmptyString => EmptyString
  | String c s' => String (lower_char c) (lower s')
  end.

(** [s.replace(old, new)] for a non-empty [old]: the occurrences are
    replaced from left to right and do not overlap.  [skip] counts the
    characters of an occurrence still to be dropped. *)
Fixpoint replace_from (old new : string) (skip : nat) (s : string) : string :=
  match s with
  | EmptyString => EmptyString
  | String c s' =>
      match skip with
      | S k => replace_from old new k s'
      | O =>
          if prefix old s
          then new ++ replace_from old new (String.length old - 1) s'
          else String c (replace_from old new 0 s')
      end
  end.

Definition replace (old new s : string) : string :=
  replace_from old new 0 s.

(** [needle in s]. *)
Fixpoint contains (needle s : string) : bool :=
  prefix needle s
  || match s with
     | EmptyString => false
     | String _ s' => contains needle s'
     end.

Fixpoint lstrip (s : string) : string :=
  match s with
  | String c s' => if is_space c then lstrip s' else s
  | EmptyString => EmptyString
  end.

Fixpoint rstrip (s : string) : string :=
  match s with
  | EmptyString => EmptyString
  | String c s' =>
      match rstrip s' with
      | EmptyString => if is_space c then EmptyString else String c EmptyString
      | r => String c r
      end
  end.

Definition strip (s : string) : string := rstrip (lstrip s).

(** Truth value of a string: [if s:]. *)
Definition truthy (s : string) : bool :=
  match s with EmptyString => false | _ => true end.

Fixpoint filter (p : ascii -> bool) (s : string) : string :=
  match s with
  | EmptyString => EmptyString
  | String c s' => if p c then String c (filter p s') else filter p s'
  end.

Fixpoint all_chars (p : ascii -> bool) (s : string) : bool :=
  match s with
  | EmptyString => true
  | String c s' => p c && all_chars p s'
  end.

(** The value of a string of decimal digits, most significant first. *)
Fixpoint digits_value (acc : Z) (s : string) : Z :=
  match s with
  | EmptyString => acc
  | String c s' => digits_value (10 * acc + Z.of_nat (nat_of_ascii c - 48)) s'
  end.

End Py.

(* ================================================================== *)
(** * Regular expressions: a backtracking matcher

    The patterns of the extractors are written as terms of [regex].  [run]
    lists the ways a pattern matches a prefix of the subject, in the order
    in which a backtracking matcher tries them, so that the head of the
    list is the match Python's [re] reports. *)

Module Re.

Inductive regex : Type :=
| Eps : regex
| Chr : (ascii -> bool) -> regex
| Seq : regex -> regex -> regex
| Alt : regex -> regex -> regex
| Star : bool -> regex -> regex          (* [r*] when greedy, else [r*?] *)
| Group : string -> regex -> regex       (* [(?P<name>r)], [(r)] as "1", ... *)
| Bound : regex                          (* [\b] *)
| Backref : string -> regex              (* [\1] *)
| NotAhead : regex -> regex.             (* [(?!r)] *)

Definition captures := list (string * string).

(** [m.group(name)]: [None] when the group took no part in the match. *)
Fixpoint lookup (name : string) (c : captures) : option string :=
  match c with
  | [] => None
  | (n, v) :: c' => if String.eqb n name then Some v else lookup name c'
  end.

(** The text a match consumed: what [s] has in front of its suffix [s']. *)
Definition consumed (s s' : string) : string :=
  substring 0 (String.length s - String.length s') s.

Fixpoint star_loop (step : string -> captures -> list (string * captures))
    (greedy : bool) (fuel : nat) (s : string) (c : captures)
  : list (string * captures) :=
  match fuel with
  | O => [(s, c)]
  | S n =>
      let more :=
        flat_map (fun sc : string * captures =>
                    if (String.length (fst sc) <? String.length s)%nat
                    then star_loop step greedy n (fst sc) (snd sc)
                    else [])
                 (step s c) in
      if greedy then (more ++ [(s, c)])%list else (s, c) :: more
  end.

(** [\w]. *)
Definition word (a : ascii) : bool :=
  Py.is_alnum a || Ascii.eqb a "_"%char.

(** The character of [subject] just before its suffix [s]. *)
Definition previous (subject s : string) : option ascii :=
  match String.length subject - String.length s with
  | O => None
  | S i => get i subject
  end.

Definition at_boundary (subject s : string) : bool :=
  let before := match previous subject s with
                | Some a => word a
                | None => false
                end in
  let after := match s with
               | String a _ => word a
               | EmptyString => false
               end in
  xorb before after.

Fixpoint drop (n : nat) (s : string) : string :=
  match n, s with
  | S n', String _ s' => drop n' s'
  | _, _ => s
  end.

(** [run subject r s c]: the matches of [r] at the suffix [s] of
    [subject], with the groups [c] set so far. *)
Fixpoint run (subject : string) (r : regex) (s : string) (c : captures)
  : list (string * captures) :=
  match r with
  | Eps => [(s, c)]
  | Chr p =>
      match s with
      | String a s' => if p a then [(s', c)] else []
      | EmptyString => []
      end
  | Seq a b =>
      flat_map (fun sc : string * captures => run subject b (fst sc) (snd sc))
               (run subject a s c)
  | Alt a b => run subject a s c ++ run subject b s c
  | Star g r' => star_loop (run subject r') g (String.length s) s c
  | Group name r' =>
      map (fun sc : string * captures =>
             (fst sc, (name, consumed s (fst sc)) :: snd sc))
          (run subject r' s c)
  | Bound => if at_boundary subject s then [(s, c)] else []
  | Backref name =>
      match lookup name c with
      | Some v => if prefix v s then [(drop (String.length v) s, c)] else []
      | None => []
      end
  | NotAhead r' =>
      match run subject r' s c with
      | [] => [(s, c)]
      | _ :: _ => []
      end
  end.

(** A match object: the rest of the subject and the groups. *)
Definition match_object : Type := (string * captures)%type.

(** The first match of [r] at the suffix [s] of [subject]. *)
Definition match_at (subject : string) (r : regex) (s : string)
  : option match_object :=
  hd_error (run subject r s []).

(** [re.match(pattern, s)]. *)
Definition re_match (r : regex) (s : string) : option match_object :=
  match_at s r s.

Fixpoint search_from (subject : string) (r : regex) (s : string)
  : option match_object :=
  match match_at subject r s with
  | Some m => Some m
  | None =>
      match s with
      | EmptyString => None
      | String _ s' => search_from subject r s'
      end
  end.

(** [re.search(pattern, s)]: the leftmost position with a match. *)
Definition re_search (r : regex) (s : string) : option match_object :=
  search_from s r s.

Definition group (name : string) (m : match_object) : option string :=
  lookup name (snd m).

(** [re.sub(pattern, repl, s)] for a pattern that does not match the
    empty string; [skip] counts the characters of a match still to be
    dropped. *)
Fixpoint sub_from (subject : string) (r : regex)
    (repl : captures -> string) (skip : nat) (s : string) : string :=
  match s with
  | EmptyString => EmptyString
  | String a s' =>
      match skip with
      | S k => sub_from subject r repl k s'
      | O =>
          match match_at subject r s with
          | Some (rest, caps) =>
              if (String.length rest <? String.length s)%nat
              then repl caps
                   ++ sub_from subject r repl
                        (String.length s - String.length rest - 1) s'
              else String a (sub_from subject r repl 0 s')
          | None => String a (sub_from subject r repl 0 s')
          end
      end
  end.

Definition re_sub (r : regex) (repl : captures -> string) (s : string)
  : string :=
  sub_from s r repl 0 s.

(** ** Pattern combinators *)

Fixpoint lit (w : string) : regex :=
  match w with
  | EmptyString => Eps
  | String a w' => Seq (Chr (Ascii.eqb a)) (lit w')
  end.

Definition seqs (rs : list regex) : regex := fold_right Seq Eps rs.

Fixpoint alts (rs : list regex) : regex :=
  match rs with
  | [] => Chr (fun _ => false)
  | [r] => r
  | r :: rs' => Alt r (alts rs')
  end.

Definition opt (r : regex) : regex := Alt r Eps.            (* [r?] *)
Definition plus (r : regex) : regex := Seq r (Star true r). (* [r+] *)
Definition lazy_plus (r : regex) : regex := Seq r (Star false r). (* [r+?] *)

Fixpoint times (n : nat) (r : regex) : regex :=             (* [r{n}] *)
  match n with
  | O => Eps
  | S n' => Seq r (times n' r)
  end.

Fixpoint upto (n : nat) (r : regex) : regex :=              (* [r{0,n}] *)
  match n with
  | O => Eps
  | S n' => opt (Seq r (upto n' r))
  end.

(** Character classes. *)
Definition digit : ascii -> bool := Py.is_digit.            (* [\d], [0-9] *)
Definition dot (a : ascii) : bool := negb (Ascii.eqb a "010"%char). (* [.] *)
Definition any_char (a : ascii) : bool := true.             (* [.] under (?s) *)
Definition range (lo hi : ascii) (a : ascii) : bool :=
  (nat_of_ascii lo <=? nat_of_ascii a)%nat
  && (nat_of_ascii a <=? nat_of_ascii hi)%nat.
Fixpoint one_of (w : string) (a : ascii) : bool :=
  match w with
  | EmptyString => false
  | String b w' => Ascii.eqb a b || one_of w' a
  end.
Definition none_of (w : string) (a : ascii) : bool := negb (one_of w a).
Definition either (p q : ascii -> bool) (a : ascii) : bool := p a || q a.

(** ** Static analysis of a pattern *)

Fixpoint nullable (r : regex) : bool :=
  match r with
  | Eps | Star _ _ | Bound | Backref _ | NotAhead _ => true
  | Chr _ => false
  | Seq a b => nullable a && nullable b
  | Alt a b => nullable a || nullable b
  | Group _ r' => nullable r'
  end.

Fixpoint mentions (name : string) (r : regex) : bool :=
  match r with
  | Eps | Chr _ | Bound | Backref _ | NotAhead _ => false
  | Seq a b | Alt a b => mentions name a || mentions name b
  | Star _ r' => mentions name r'
  | Group n r' => String.eqb n name || mentions name r'
  end.

(** [sets_nonempty name r]: by the shape of [r] alone, every match of
    [r] leaves a non-empty text in the group [name]. *)
Fixpoint sets_nonempty (name : string) (r : regex) : bool :=
  match r with
  | Eps | Chr _ | Star _ _ | Bound | Backref _ | NotAhead _ => false
  | Seq a b =>
      sets_nonempty name b
      || (sets_nonempty name a && negb (mentions name b))
  | Alt a b => sets_nonempty name a && sets_nonempty name b
  | Group n r' =>
      if String.eqb n name then negb (nullable r') else sets_nonempty name r'
  end.

End Re.

(* ================================================================== *)
(** * The texts a pattern matches *)

Module ReLang.

Import Re.

(** [matches r t]: the pattern [r] can consume the text [t].  The tests
    that look around the text ([\b], [(?!...)]) consume nothing, and a
    back-reference consumes some text. *)
Inductive matches : regex -> string -> Prop :=
| matches_eps : matches Eps EmptyString
| matches_chr (p : ascii -> bool) (a : ascii) :
    p a = true -> matches (Chr p) (String a EmptyString)
| matches_seq (a b : regex) (t u : string) :
    matches a t -> matches b u -> matches (Seq a b) (t ++ u)
| matches_alt_l (a b : regex) (t : string) :
    matches a t -> matches (Alt a b) t
| matches_alt_r (a b : regex) (t : string) :
    matches b t -> matches (Alt a b) t
| matches_star_nil (g : bool) (r : regex) : matches (Star g r) EmptyString
| matches_star_cons (g : bool) (r : regex) (t u : string) :
    matches r t -> matches (Star g r) u -> matches (Star g r) (t ++ u)
| matches_group (n : string) (r : regex) (t : string) :
    matches r t -> matches (Group n r) t
| matches_bound : matches Bound EmptyString
| matches_backref (n : string) (t : string) : matches (Backref n) t
| matches_notahead (r : regex) : matches (NotAhead r) EmptyString.

(** The patterns of the groups called [name] in [r]. *)
Fixpoint group_bodies (name : string) (r : regex) : list regex :=
  match r with
  | Eps | Chr _ | Bound | Backref _ | NotAhead _ => []
  | Seq a b | Alt a b => group_bodies name a ++ group_bodies name b
  | Star _ r' => group_bodies name r'
  | Group n r' =>
      (if String.eqb n name then [r'] else []) ++ group_bodies name r'
  end.

(** A text that does not start with a character of the class [p]. *)
Definition stops (p : ascii -> bool) (rest : string) : Prop :=
  match rest with
  | String a _ => p a = false
  | EmptyString => True
  end.

End ReLang.

(* ================================================================== *)
(** * Exceptions and results *)

Inductive exn : Type :=
| ExtractorError (msg : string) (expected : bool)
| RegexNotFoundError (msg : string)
| GeoRestrictedError (msg : string) (countries : list string)
| KeyError (key : string)
| IndexError
| TypeError
| ValueError
| OverflowError
| AttributeError
| AssertionError.

(** [isinstance(e, ExtractorError)]: [RegexNotFoundError] and
    [GeoRestrictedError] are subclasses of [ExtractorError]. *)
Definition is_ExtractorError (e : exn) : bool :=
  match e with
  | ExtractorError _ _ | RegexNotFoundError _ | GeoRestrictedError _ _ => true
  | _ => false
  end.

Definition is_GeoRestrictedError (e : exn) : bool :=
  match e with
  | GeoRestrictedError _ _ => true
  | _ => false
  end.

Inductive result (A : Type) : Type :=
| Ok (a : A)
| Raise (e : exn).

Arguments Ok {A} a.
Arguments Raise {A} e.

Definition rbind {A B : Type} (m : result A) (k : A -> result B) : result B :=
  match m with
  | Ok a => k a
  | Raise e => Raise e
  end.

Notation "x <~ m ;; k" := (rbind m (fun x => k))
  (at level 61, m at next level, right associativity).

(** [try: body except E: handler], where [handles e] tells whether the
    clause catches [e]. *)
Definition try_except {A : Type} (body : result A) (handles : exn -> bool)
    (handler : exn -> result A) : result A :=
  match body with
  | Ok a => Ok a
  | Raise e => if handles e then handler e else Raise e
  end.

Definition is_ValueError (e : exn) : bool :=
  match e with ValueError => true | _ => false end.

Definition of_option {A : Type} (e : exn) (o : option A) : result A :=
  match o with
  | Some a => Ok a
  | None => Raise e
  end.

(* ================================================================== *)
(** * Python numbers read from text *)

(** A Python [float]: a binary64 number, that is [SpecFloat.spec_float]
    with a mantissa of [prec = 53] bits and [emax = 1024]. *)
Definition pyfloat : Type := SpecFloat.spec_float.

Module PyNum.

(** A run of digits in which single underscores may separate digits. *)
Fixpoint digitpart_ok (after_digit : bool) (s : string) : bool :=
  match s with
  | EmptyString => after_digit
  | String c s' =>
      if Py.is_digit c then digitpart_ok true s'
      else if Ascii.eqb c "_"%char then after_digit && digitpart_ok false s'
      else false
  end.

Definition digitpart (s : string) : option Z :=
  if digitpart_ok false s
  then Some (Py.digits_value 0 (Py.filter Py.is_digit s))
  else None.

(** An optional sign in front of the rest. *)
Definition signed (s : string) : bool * string :=
  match s with
  | String "-" s' => (true, s')
  | String "+" s' => (false, s')
  | _ => (false, s)
  end.

(** [int(s)] on a string: [None] stands for [ValueError]. *)
Definition int_of_str (s : string) : option Z :=
  let (neg, body) := signed (Py.strip s) in
  match digitpart body with
  | Some n => Some (if neg then (- n)%Z else n)
  | None => None
  end.

(** The text before the first character satisfying [p], and the text
    from that character on. *)
Fixpoint break (p : ascii -> bool) (s : string) : string * option string :=
  match s with
  | EmptyString => (EmptyString, None)
  | String c s' =>
      if p c then (EmptyString, Some s')
      else let (a, b) := break p s' in (String c a, b)
  end.

Definition is_e (c : ascii) : bool :=
  Ascii.eqb c "e"%char || Ascii.eqb c "E"%char.

Definition is_point (c : ascii) : bool := Ascii.eqb c "."%char.

(** The digits of a mantissa and the number of them after the point. *)
Definition mantissa (s : string) : option (Z * nat) :=
  match break is_point s with
  | (ip, None) =>
      match digitpart ip with
      | Some n => Some (n, O)
      | None => None
      end
  | (ip, Some fp) =>
      let digits := Py.filter Py.is_digit (ip ++ fp) in
      let ok :=
        match ip, fp with
        | EmptyString, _ => digitpart_ok false fp
        | _, EmptyString => digitpart_ok false ip
        | _, _ => digitpart_ok false ip && digitpart_ok false fp
        end in
      if ok
      then Some (Py.digits_value 0 digits,
                 String.length (Py.filter Py.is_digit fp))
      else None
  end.

Definition exponent (s : option string) : option Z :=
  match s with
  | None => Some 0%Z
  | Some e =>
      let (neg, body) := signed e in
      match digitpart body with
      | Some n => Some (if neg then (- n)%Z else n)
      | None => None
      end
  end.

Definition prec : Z := 53.
Definition emax : Z := 1024.

(** The float nearest to the integer [n], ties to even: an infinity
    when [n] is beyond the range of the floats. *)
Definition nearest (n : Z) : pyfloat :=
  SpecFloat.binary_normalize prec emax n 0 false.

(** The float nearest to the quotient [m / d], ties to even. *)
Definition nearest_quotient (neg : bool) (m d : positive) : pyfloat :=
  let '(q, e, l) :=
    SpecFloat.SFdiv_core_binary prec emax (Zpos m) 0 (Zpos d) 0 in
  SpecFloat.binary_round_aux prec emax neg q e l.

(** The float nearest to [m] times ten to the power [e], with the sign
    [neg], for [m] that is not negative. *)
Definition scale10 (neg : bool) (m e : Z) : pyfloat :=
  match m with
  | Zpos p =>
      if (0 <=? e)%Z
      then SpecFloat.binary_round prec emax neg (Z.to_pos (Zpos p * 10 ^ e)) 0
      else nearest_quotient neg p (Z.to_pos (10 ^ (- e)))
  | _ => SpecFloat.S754_zero neg
  end.

(** [float(s)] on a string: [None] stands for [ValueError]. *)
Definition float_of_str (s : string) : option pyfloat :=
  let (neg, body) := signed (Py.strip s) in
  let word := Py.lower body in
  if String.eqb word "inf" || String.eqb word "infinity"
  then Some (SpecFloat.S754_infinity neg)
  else if String.eqb word "nan" then Some SpecFloat.S754_nan
  else
    let (ms, es) := break is_e body in
    match mantissa ms, exponent es with
    | Some (m, frac), Some e => Some (scale10 neg m (e - Z.of_nat frac))
    | _, _ => None
    end.

(** The conversion of an [int] to a [float] that [int + float] makes:
    the nearest float, and [OverflowError] when the [int] is beyond the
    range of the floats. *)
Definition of_int (n : Z) : result pyfloat :=
  match nearest n with
  | SpecFloat.S754_infinity _ => Raise OverflowError
  | f => Ok f
  end.

(** [a + b] on floats. *)
Definition fadd (a b : pyfloat) : pyfloat := SpecFloat.SFadd prec emax a b.

(** [a == b] on floats. *)
Definition feqb (a b : pyfloat) : bool := SpecFloat.SFeqb a b.

(** The number a float stands for, as a fraction in lowest terms; an
    infinity and a NaN stand for none. *)
Definition to_Q (f : pyfloat) : option Q :=
  match f with
  | SpecFloat.S754_zero _ => Some 0%Q
  | SpecFloat.S754_finite s m e =>
      let m := if s then Zneg m else Zpos m in
      Some (if (0 <=? e)%Z then inject_Z (m * 2 ^ e)
            else Qred (Qmake m (Z.to_pos (2 ^ (- e)))))
  | _ => None
  end.

End PyNum.

(* ================================================================== *)
(** * Python values, as [json.loads] returns them and as records are built *)

Inductive value : Type :=
| VNone
| VBool (b : bool)
| VInt (n : Z)
| VFloat (f : pyfloat)
| VStr (s : string)
| VList (l : list value)
| VDict (d : list (string * value)).

Module Dict.

Definition t : Type := list (string * value).

(** [d.get(k)]. *)
Fixpoint get (k : string) (d : t) : value :=
  match d with
  | [] => VNone
  | (k', v) :: d' => if String.eqb k' k then v else get k d'
  end.

Fixpoint mem (k : string) (d : t) : bool :=
  match d with
  | [] => false
  | (k', _) :: d' => String.eqb k' k || mem k d'
  end.

(** [d[k]]. *)
Definition item (k : string) (d : t) : result value :=
  if mem k d then Ok (get k d) else Raise (KeyError k).

(** [d[k] = v]. *)
Fixpoint set (k : string) (v : value) (d : t) : t :=
  match d with
  | [] => [(k, v)]
  | (k', v') :: d' =>
      if String.eqb k' k then (k, v) :: d' else (k', v') :: set k v d'
  end.

(** [d.update(other)]. *)
Definition update (d other : t) : t :=
  fold_left (fun acc kv => set (fst kv) (snd kv) acc) other d.

End Dict.

Module Value.

(** The truth value of [v]: [if v:]. *)
Definition truthy (v : value) : bool :=
  match v with
  | VNone => false
  | VBool b => b
  | VInt n => negb (n =? 0)%Z
  | VFloat (SpecFloat.S754_zero _) => false
  | VFloat _ => true
  | VStr s => Py.truthy s
  | VList l => match l with [] => false | _ => true end
  | VDict d => match d with [] => false | _ => true end
  end.

Definition is_none (v : value) : bool :=
  match v with VNone => true | _ => false end.

(** [v.get(k)]: only a dict has the method. *)
Definition get (k : string) (v : value) : result value :=
  match v with
  | VDict d => Ok (Dict.get k d)
  | _ => Raise AttributeError
  end.

(** [v[k]] with a string key. *)
Definition item (k : string) (v : value) : result value :=
  match v with
  | VDict d => Dict.item k d
  | _ => Raise TypeError
  end.

(** [prefix + v] for a string literal [prefix]. *)
Definition str_add (prefix : string) (v : value) : result value :=
  match v with
  | VStr s => Ok (VStr (prefix ++ s))
  | _ => Raise TypeError
  end.

(** [v + suffix] for a string literal [suffix]. *)
Definition add_str (v : value) (suffix : string) : result value :=
  match v with
  | VStr s => Ok (VStr (s ++ suffix))
  | _ => Raise TypeError
  end.

Definition of_option (o : option string) : value :=
  match o with
  | Some s => VStr s
  | None => VNone
  end.

(** The text of [v] where the code calls a method of [str] on it or
    hands it to a function of strings; [e] is what is raised on another
    value. *)
Definition as_str (v : value) (e : exn) : result string :=
  match v with
  | VStr s => Ok s
  | _ => Raise e
  end.

(** The members a [for] loop meets in [v]. *)
Definition iterate (v : value) : result (list value) :=
  match v with
  | VList l => Ok l
  | VDict d => Ok (map (fun kv => VStr (fst kv)) d)
  | VStr s =>
      Ok (map (fun a => VStr (String a EmptyString)) (list_ascii_of_string s))
  | _ => Raise TypeError
  end.

End Value.

(* ================================================================== *)
(** * XML trees, as [xml.etree.ElementTree] presents them *)

Inductive xml : Type :=
| Element (tag : string) (attrib : list (string * string))
          (text : option string) (children : list xml).

Module ET.

Definition tag (e : xml) : string :=
  match e with Element t _ _ _ => t end.
Definition attrib (e : xml) : list (string * string) :=
  match e with Element _ a _ _ => a end.
Definition text (e : xml) : option string :=
  match e with Element _ _ t _ => t end.
Definition children (e : xml) : list xml :=
  match e with Element _ _ _ cs => cs end.

Definition children_named (name : string) (e : xml) : list xml :=
  List.filter (fun c => String.eqb (tag c) name) (children e).

(** [e.findall('./a/b/c')] with the path given as [["a"; "b"; "c"]]. *)
Fixpoint findall (path : list string) (e : xml) : list xml :=
  match path with
  | [] => [e]
  | name :: path' => flat_map (findall path') (children_named name e)
  end.

(** The elements below [e], in document order. *)
Fixpoint descendants (e : xml) : list xml :=
  match e with
  | Element _ _ _ cs => flat_map (fun c => c :: descendants c) cs
  end.

(** [e.find('.//name')]. *)
Definition find_descendant (name : string) (e : xml) : option xml :=
  List.find (fun c => String.eqb (tag c) name) (descendants e).

Fixpoint assoc (k : string) (a : list (string * string)) : option string :=
  match a with
  | [] => None
  | (k', v) :: a' => if String.eqb k' k then Some v else assoc k a'
  end.

(** [e.attrib[k]]. *)
Definition attrib_item (k : string) (e : xml) : result string :=
  of_option (KeyError k) (assoc k (attrib e)).

(** [o.attrib[k]] where [o] is the result of a [find]: [None] has no
    attribute [attrib]. *)
Definition found_attrib_item (k : string) (o : option xml) : result string :=
  match o with
  | Some e => attrib_item k e
  | None => Raise AttributeError
  end.

End ET.

(* ================================================================== *)
(** * The extraction monad and the host application *)

Record request : Type := mkRequest {
  req_url : string;
  req_query : list (string * string);
  req_headers : list (string * string)
}.

(** A computation that may raise and that adds to the list of requests
    sent so far. *)
Definition M (A : Type) : Type := list request -> result A * list request.

Definition ret {A : Type} (a : A) : M A := fun log => (Ok a, log).

Definition raise {A : Type} (e : exn) : M A := fun log => (Raise e, log).

Definition bind {A B : Type} (m : M A) (k : A -> M B) : M B :=
  fun log =>
    match m log with
    | (Ok a, log') => k a log'
    | (Raise e, log') => (Raise e, log')
    end.

Definition lift {A : Type} (r : result A) : M A := fun log => (r, log).

Notation "x <- m ;; k" := (bind m (fun x => k))
  (at level 61, m at next level, right associativity).

(** [try: body except E as e: handler(e) else: orelse(a)]. *)
Definition try_except_else {A B : Type} (body : M A) (handles : exn -> bool)
    (handler : exn -> M B) (orelse : A -> M B) : M B :=
  fun log =>
    match body log with
    | (Ok a, log') => orelse a log'
    | (Raise e, log') => if handles e then handler e log' else (Raise e, log')
    end.

(** A Python dict of formats and a list of them. *)
Definition format : Type := Dict.t.

(** What the extractors take from outside the five modules: the network,
    the parsers and the iteration order of sets of the Python runtime, the
    helpers of [utils.py] and the methods of [InfoExtractor]. *)
Class Host : Type := {
  (** The body served for a request; [None] when the transfer fails. *)
  urlopen : request -> option string;
  (** [json.loads] and [xml.etree.ElementTree.fromstring]; [None] when the
      text is not well formed. *)
  json_loads : string -> option value;
  xml_fromstring : string -> option xml;
  (** The order in which a [for] loop meets the members of a [set] built
      from the given distinct members. *)
  set_order : list string -> list string;
  set_order_perm : forall l, Permutation (set_order l) l;
  (** [utils.py] *)
  int_or_none : value -> value;
  float_or_none : value -> value;
  unified_strdate : value -> value;
  parse_duration : value -> value;
  strip_or_none : value -> value;
  determine_ext : string -> string;
  update_url_query : string -> list (string * string) -> string;
  urljoin : string -> string -> string;
  utils_urljoin : string -> string -> value;
  clean_html : string -> string;
  fix_xml_ampersands : string -> string;
  xpath_text : xml -> string -> option string;
  find_xpath_attr : xml -> string -> string -> string -> option xml;
  (** [common.py] and [subtitles.py] *)
  html_search_meta : list string -> string -> option string;
  og_search_title : string -> result string;
  proto_relative_url : string -> string;
  geo_verification_headers : list (string * string);
  extract_m3u8_formats : string -> string -> M (list format);
  extract_f4m_formats : string -> string -> M (list format);
  container_preference : format -> Z;
  param_listsubtitles : bool;
  list_available_subtitles : value -> value -> M unit
}.

Section Framework.

Context {H : Host}.

Definition fetch_error : exn :=
  ExtractorError "Unable to download" false.

(** Modelled from the spec: the collaborator [fetch_text(url)], which is
    [InfoExtractor._download_webpage] of [common.py]; it raises a fetch
    error on network or HTTP failure. *)
Definition _download_webpage (url : string) : M string :=
  fun log =>
    let r := mkRequest url [] [] in
    (of_option fetch_error (urlopen r), (log ++ [r])%list).

(** Modelled from the spec: the collaborator [fetch_json(url)], which is
    [InfoExtractor._download_json] of [common.py]. *)
Definition _download_json (url : string) : M value :=
  page <- _download_webpage url ;;
  lift (of_option (ExtractorError "Failed to parse JSON" false)
                  (json_loads page)).

(** Modelled from the spec: the collaborator [fetch_xml(url, optional
    transform)], which is [InfoExtractor._download_xml] of [common.py];
    [query] and [headers] go into the request. *)
Definition _download_xml (url : string) (transform : string -> string)
    (query headers : list (string * string)) : M xml :=
  fun log =>
    let r := mkRequest url query headers in
    (page <~ of_option fetch_error (urlopen r) ;;
     of_option (ExtractorError "Failed to parse XML" false)
               (xml_fromstring (transform page)),
     (log ++ [r])%list).

(** Modelled from the spec: [InfoExtractor._search_regex] of [common.py]
    ("first successful match wins; if all fail, the operation fails with
    a content-not-found error"; a search that is not fatal, or has a
    default, degrades to the absent value). *)
Definition _search_regex (pattern : Re.regex) (s : string) (name : string)
    (group : string) (default : option value) (fatal : bool) : result value :=
  match Re.re_search pattern s with
  | Some m => Ok (Value.of_option (Re.group group m))
  | None =>
      match default with
      | Some d => Ok d
      | None =>
          if fatal
          then Raise (RegexNotFoundError ("Unable to extract " ++ name))
          else Ok VNone
      end
  end.

(** Modelled from the spec: [InfoExtractor._html_search_regex] of
    [common.py], a [_search_regex] whose result is cleaned of markup. *)
Definition _html_search_regex (pattern : Re.regex) (s : string)
    (name : string) (group : string) (default : option value) (fatal : bool)
  : result value :=
  res <~ _search_regex pattern s name group default fatal ;;
  match res with
  | VStr text => Ok (VStr (Py.strip (clean_html text)))
  | other => Ok other
  end.

(** Modelled from the spec: [InfoExtractor._match_id] of [common.py]:
    the group [id] of the match of [_VALID_URL], which is asserted. *)
Definition _match_id (valid_url : Re.regex) (url : string) : result string :=
  match Re.re_match valid_url url with
  | None => Raise AssertionError
  | Some m => of_option AssertionError (Re.group "id" m)
  end.

(** Modelled from the spec: [InfoExtractor.raise_geo_restricted] of
    [common.py]: "fail with a distinct geo-restricted error carrying the
    allowed-country set". *)
Definition raise_geo_restricted {A : Type} (countries : list string) : M A :=
  raise (GeoRestrictedError
           "This video is not available from your location due to geo restriction"
           countries).

(** ** Sorting of formats *)

Definition num_key (v : value) : Z :=
  match v with
  | VInt n => n
  | _ => (-1)%Z
  end.

(** The sort key of a format: resolution, then bitrate, then the
    preference of its container. *)
Definition format_key (f : format) : list Z :=
  [ num_key (Dict.get "height" f); num_key (Dict.get "width" f);
    num_key (Dict.get "tbr" f); container_preference f ].

(** Lexicographic order on keys. *)
Fixpoint key_le (a b : list Z) : bool :=
  match a, b with
  | [], _ => true
  | _ :: _, [] => false
  | x :: a', y :: b' => (x <? y)%Z || ((x =? y)%Z && key_le a' b')
  end.

Definition format_le (f g : format) : bool :=
  key_le (format_key f) (format_key g).

Fixpoint insert_format (f : format) (fs : list format) : list format :=
  match fs with
  | [] => [f]
  | g :: fs' =>
      if format_le f g then f :: g :: fs' else g :: insert_format f fs'
  end.

(** Modelled from the spec: [InfoExtractor._sort_formats] of [common.py]:
    "higher resolution/bitrate preferred; ties broken by a stable,
    deterministic secondary key (format/container preference)".  The
    list is in increasing order of preference; formats with equal keys
    keep the order they came in. *)
Definition _sort_formats (fs : list format) : list format :=
  fold_right insert_format [] fs.

(** The order of the sorted list, and the test for a given key. *)
Definition format_order (f g : format) : Prop := format_le f g = true.

Definition has_key (k : list Z) (f : format) : bool :=
  if list_eq_dec Z.eq_dec (format_key f) k then true else false.

End Framework.

(* ================================================================== *)
(** * [time.strptime] and [calendar.timegm] of the Python library *)

Module Time.

Import Re.

Record struct_time : Type := mkTime {
  tm_year : Z; tm_mon : Z; tm_mday : Z;
  tm_hour : Z; tm_min : Z; tm_sec : Z
}.

(** A letter of the format, matched without regard to case. *)
Definition letter (a : ascii) : regex :=
  Chr (fun x => Ascii.eqb (Py.lower_char x) (Py.lower_char a)).

(** The pattern [_strptime] builds for [%Y-%m-%dT%H:%M:%S.%fZ]. *)
Definition iso_format : regex :=
  seqs [
    Group "Y" (times 4 (Chr digit));
    lit "-";
    Group "m" (alts [ Seq (lit "1") (Chr (range "0" "2"));
                      Seq (lit "0") (Chr (range "1" "9"));
                      Chr (range "1" "9") ]);
    lit "-";
    Group "d" (alts [ Seq (lit "3") (Chr (range "0" "1"));
                      Seq (Chr (range "1" "2")) (Chr digit);
                      Seq (lit "0") (Chr (range "1" "9"));
                      Chr (range "1" "9");
                      Seq (lit " ") (Chr (range "1" "9")) ]);
    letter "T";
    Group "H" (alts [ Seq (lit "2") (Chr (range "0" "3"));
                      Seq (Chr (range "0" "1")) (Chr digit);
                      Chr digit ]);
    lit ":";
    Group "M" (alts [ Seq (Chr (range "0" "5")) (Chr digit); Chr digit ]);
    lit ":";
    Group "S" (alts [ Seq (lit "6") (Chr (range "0" "1"));
                      Seq (Chr (range "0" "5")) (Chr digit);
                      Chr digit ]);
    lit ".";
    Group "f" (Seq (Chr digit) (upto 5 (Chr digit)));
    letter "Z" ].

Definition is_leap (y : Z) : bool :=
  ((y mod 4 =? 0) && (negb (y mod 100 =? 0) || (y mod 400 =? 0)))%Z.

Definition days_in_month (y m : Z) : Z :=
  if (m =? 2)%Z then (if is_leap y then 29 else 28)%Z
  else if ((m =? 4) || (m =? 6) || (m =? 9) || (m =? 11))%Z then 30%Z
  else 31%Z.

Definition days_before_year (y : Z) : Z :=
  ((y - 1) * 365 + (y - 1) / 4 - (y - 1) / 100 + (y - 1) / 400)%Z.

Definition days_before_month (y m : Z) : Z :=
  (nth (Z.to_nat m)
       [0; 0; 31; 59; 90; 120; 151; 181; 212; 243; 273; 304; 334] 0
   + (if (2 <? m) && is_leap y then 1 else 0))%Z.

(** [datetime.date(y, m, d).toordinal()]. *)
Definition toordinal (y m d : Z) : Z :=
  (days_before_year y + days_before_month y m + d)%Z.

Definition field (name : string) (m : match_object) : result Z :=
  match group name m with
  | Some text => of_option ValueError (PyNum.int_of_str text)
  | None => Raise ValueError
  end.

(** The check of [datetime.date(year, month, day)], which [strptime]
    builds to find the day of the year. *)
Definition valid_date (year month day : Z) : bool :=
  ((1 <=? year) && (year <=? 9999) && (1 <=? month) && (month <=? 12)
   && (1 <=? day) && (day <=? days_in_month year month))%Z.

(** [time.strptime(s, '%Y-%m-%dT%H:%M:%S.%fZ')]: the text has to match
    the format to its end and to name a day of the calendar. *)
Definition strptime (s : string) : result struct_time :=
  match re_match iso_format s with
  | None => Raise ValueError
  | Some m =>
      if negb (String.eqb (fst m) EmptyString) then Raise ValueError
      else
        year <~ field "Y" m ;;
        month <~ field "m" m ;;
        day <~ field "d" m ;;
        hour <~ field "H" m ;;
        minute <~ field "M" m ;;
        second <~ field "S" m ;;
        if valid_date year month day
        then Ok (mkTime year month day hour minute second)
        else Raise ValueError
  end.

Definition EPOCH_ORD : Z := 719163.

(** [calendar.timegm(t)]. *)
Definition timegm (t : struct_time) : Z :=
  let days := (toordinal (tm_year t) (tm_mon t) 1 - EPOCH_ORD
               + tm_mday t - 1)%Z in
  let hours := (days * 24 + tm_hour t)%Z in
  let minutes := (hours * 60 + tm_min t)%Z in
  (minutes * 60 + tm_sec t)%Z.

(** ** Seconds since the epoch, counted day by day *)

Definition year_length (y : Z) : Z := if is_leap y then 366%Z else 365%Z.

(** The days of the years 1 to [n]. *)
Fixpoint days_of_years (n : nat) : Z :=
  match n with
  | O => 0%Z
  | S k => (days_of_years k + year_length (Z.of_nat (S k)))%Z
  end.

(** The days of the months 1 to [n] of the year [y]. *)
Fixpoint days_of_months (y : Z) (n : nat) : Z :=
  match n with
  | O => 0%Z
  | S k => (days_of_months y k + days_in_month y (Z.of_nat (S k)))%Z
  end.

(** The days from 1 January 1970 to the day of [t]. *)
Definition days_since_epoch (t : struct_time) : Z :=
  (days_of_years (Z.to_nat (tm_year t - 1))
   + days_of_months (tm_year t) (Z.to_nat (tm_mon t - 1))
   + (tm_mday t - 1)
   - days_of_years 1969)%Z.

(** The seconds from 1970-01-01T00:00:00 UTC to the time [t] read as a
    time of UTC. *)
Definition utc_seconds (t : struct_time) : Z :=
  (days_since_epoch t * 86400 + tm_hour t * 3600 + tm_min t * 60
   + tm_sec t)%Z.

End Time.

(* ================================================================== *)
(** * [livestreamfails.py] *)

Module LivestreamfailsIE.

Import Re.

(** [https?://(?:www\.)?livestreamfails\.com/clip/(?P<id>[0-9]+)] *)
Definition _VALID_URL : regex :=
  seqs [ lit "http"; opt (lit "s"); lit "://"; opt (lit "www.");
         lit "livestreamfails.com/clip/";
         Group "id" (plus (Chr (range "0" "9"))) ].

Definition video_prefix : string :=
  "https://livestreamfails-video-prod.b-cdn.net/video/".

Definition image_prefix : string :=
  "https://livestreamfails-image-prod.b-cdn.net/image/".

(** [d.get(k, default)]. *)
Definition get_default (k : string) (default : value) (v : value)
  : result value :=
  match v with
  | VDict d => Ok (if Dict.mem k d then Dict.get k d else default)
  | _ => Raise AttributeError
  end.

(** The conversion of [createdAt]: [time.strptime] and then
    [calendar.timegm], applied when the value is true. *)
Definition convert_timestamp (timestamp : value) : result value :=
  if Value.truthy timestamp then
    match timestamp with
    | VStr s => t <~ Time.strptime s ;; Ok (VInt (Time.timegm t))
    | _ => Raise TypeError
    end
  else Ok timestamp.

Section WithHost.

Context {H : Host}.

Definition _real_extract (url : string) : M value :=
  id <- lift (_match_id _VALID_URL url) ;;
  page <- _download_webpage ("https://api.livestreamfails.com/clip/" ++ id) ;;
  api_response <- lift (of_option ValueError (json_loads page)) ;;
  timestamp <- lift (Value.get "createdAt" api_response) ;;
  timestamp <- lift (convert_timestamp timestamp) ;;
  display_id <- lift (Value.get "sourceId" api_response) ;;
  video <- lift (Value.get "videoId" api_response) ;;
  video_url <- lift (Value.str_add video_prefix video) ;;
  title <- lift (Value.get "label" api_response) ;;
  streamer <- lift (get_default "streamer" (VDict []) api_response) ;;
  creator <- lift (Value.get "label" streamer) ;;
  image <- lift (Value.get "imageId" api_response) ;;
  thumbnail <- lift (Value.str_add image_prefix image) ;;
  ret (VDict [ ("id", VStr id);
               ("display_id", display_id);
               ("timestamp", timestamp);
               ("url", video_url);
               ("title", title);
               ("creator", creator);
               ("thumbnail", thumbnail) ]).

End WithHost.

(** The request of [_real_extract] for the clip [id]. *)
Definition api_request (id : string) : request :=
  mkRequest ("https://api.livestreamfails.com/clip/" ++ id) [] [].

End LivestreamfailsIE.

(* ================================================================== *)
(** * [ertflix.py] *)

Module ErtflixIE.

Import Re.

(** [https?://www\.ertflix\.gr/(?:series|vod)/(?P<id>[a-z]{3}\.\d+)] *)
Definition _VALID_URL : regex :=
  seqs [ lit "http"; opt (lit "s"); lit "://www.ertflix.gr/";
         Alt (lit "series") (lit "vod"); lit "/";
         Group "id" (seqs [ times 3 (Chr (range "a" "z")); lit ".";
                            plus (Chr digit) ]) ].

(** [url\s*:\s*'(rtmp://[^']+)'] *)
Definition video_url_re : regex :=
  seqs [ lit "url"; Star true (Chr Py.is_space); lit ":";
         Star true (Chr Py.is_space); lit "'";
         Group "1" (Seq (lit "rtmp://") (plus (Chr (none_of "'"))));
         lit "'" ].

(** [mediaid\s*=\s*(\d+)] *)
Definition video_id_re : regex :=
  seqs [ lit "mediaid"; Star true (Chr Py.is_space); lit "=";
         Star true (Chr Py.is_space); Group "1" (plus (Chr digit)) ].

Section WithHost.

Context {H : Host}.

(** [InfoExtractor._og_search_description] and [_og_search_thumbnail] of
    [common.py], which read the OpenGraph tags of the page. *)
Variables _og_search_description _og_search_thumbnail : string -> result value.

Definition _real_extract (url : string) : M value :=
  display_id <- lift (_match_id _VALID_URL url) ;;
  webpage <- _download_webpage url ;;
  video_url <- lift (_search_regex video_url_re webpage "video URL" "1"
                       None true) ;;
  video_id <- lift (_search_regex video_id_re webpage "video id" "1"
                      None false) ;;
  description <- lift (_og_search_description webpage) ;;
  title <- lift (og_search_title webpage) ;;
  thumbnail <- lift (_og_search_thumbnail webpage) ;;
  ret (VDict [ ("id", video_id);
               ("url", video_url);
               ("title", VStr title);
               ("description", description);
               ("thumbnail", thumbnail) ]).

End WithHost.

End ErtflixIE.

(* ================================================================== *)
(** * [nrk.py] *)

(** The double quote, which patterns and markup contain. *)
Definition dq : string := String "034"%char EmptyString.

Module NRKIE.

Import Re.

(** [http://(?:www\.)?nrk\.no/(?:video|lyd)/[^/]+/(?P<id>[\dA-F]{16})] *)
Definition _VALID_URL : regex :=
  seqs [ lit "http://"; opt (lit "www."); lit "nrk.no/";
         Alt (lit "video") (lit "lyd"); lit "/";
         plus (Chr (none_of "/")); lit "/";
         Group "id" (times 16 (Chr (either digit (range "A" "F")))) ].

(** [<div class=Qnrk-videoQ data-nrk-id=Q(\d+)Q>], where Q stands for
    the double quote. *)
Definition video_id_re : regex :=
  seqs [ lit "<div class="; lit dq; lit "nrk-video"; lit dq;
         lit " data-nrk-id="; lit dq; Group "1" (plus (Chr digit));
         lit dq; lit ">" ].

Definition geo_message : string :=
  "NRK har ikke rettig-heter til å vise dette programmet utenfor Norge".

(** The key of [thumbnails.sort(key=lambda image: image['pixelWidth'])];
    the widths are taken to be integers. *)
Definition pixel_width (image : value) : result Z :=
  w <~ Value.item "pixelWidth" image ;;
  match w with
  | VInt n => Ok n
  | _ => Raise TypeError
  end.

Fixpoint insert_image (w : Z) (image : value) (sorted : list (Z * value))
  : list (Z * value) :=
  match sorted with
  | [] => [(w, image)]
  | (w', image') :: rest =>
      if (w <=? w')%Z then (w, image) :: sorted
      else (w', image') :: insert_image w image rest
  end.

(** The images in increasing order of width, images of one width in the
    order they came in; the widths are read from left to right. *)
Fixpoint sort_images (images : list value) : result (list (Z * value)) :=
  match images with
  | [] => Ok []
  | image :: rest =>
      w <~ pixel_width image ;;
      sorted <~ sort_images rest ;;
      Ok (insert_image w image sorted)
  end.

Definition best_thumbnail (images : value) : result value :=
  if Value.truthy images then
    thumbnails <~ Value.item "webImages" images ;;
    match thumbnails with
    | VList l =>
        sorted <~ sort_images l ;;
        match List.last (map (fun p => Some (snd p)) sorted) None with
        | None => Raise IndexError
        | Some image => Value.item "imageUrl" image
        end
    | _ => Raise AttributeError
    end
  else Ok VNone.

Section WithHost.

Context {H : Host}.

Definition _real_extract (url : string) : M value :=
  mobj <- lift (of_option AttributeError (re_match _VALID_URL url)) ;;
  page <- _download_webpage url ;;
  video_id <- lift (_html_search_regex video_id_re page "video id" "1"
                      None true) ;;
  id <- lift (match video_id with
              | VStr s => Ok s
              | _ => Raise TypeError
              end) ;;
  data <- _download_json ("http://v7.psapi.nrk.no/mediaelement/" ++ id) ;;
  rights <- lift (Value.item "usageRights" data) ;;
  blocked <- lift (Value.item "isGeoBlocked" rights) ;;
  if Value.truthy blocked
  then raise (ExtractorError geo_message true)
  else
    media_url <- lift (Value.item "mediaUrl" data) ;;
    video_url <- lift (Value.add_str media_url
                         "?hdcore=3.1.1&plugin=aasp-3.1.1.69.124") ;;
    images <- lift (Value.get "images" data) ;;
    thumbnail <- lift (best_thumbnail images) ;;
    title <- lift (Value.item "title" data) ;;
    description <- lift (Value.item "description" data) ;;
    ret (VDict [ ("id", VStr id);
                 ("url", video_url);
                 ("ext", VStr "flv");
                 ("title", title);
                 ("description", description);
                 ("thumbnail", thumbnail) ]).

End WithHost.

End NRKIE.

Module NRKTVIE.

Import Re.

(** [(?P<baseurl>http://tv\.nrk(?:super)?\.no)/(?:serie/[^/]+|program)/(?P<id>[a-zA-Z]{4}\d{8})] *)
Definition _VALID_URL : regex :=
  seqs [ Group "baseurl" (seqs [ lit "http://tv.nrk"; opt (lit "super");
                                 lit ".no" ]);
         lit "/";
         Alt (Seq (lit "serie/") (plus (Chr (none_of "/")))) (lit "program");
         lit "/";
         Group "id" (seqs [ times 4 (Chr (either (range "a" "z")
                                                 (range "A" "Z")));
                            times 8 (Chr digit) ]) ].

(** [name=Q([^Q]+)Q], where Q stands for the double quote: the shape
    of the attribute patterns below. *)
Definition attribute_re (name : string) : regex :=
  seqs [ lit name; lit "="; lit dq;
         Group "1" (plus (Chr (fun a => negb (Ascii.eqb a "034"%char))));
         lit dq ].

(** [data-subtitlesurl[ ]*=[ ]*Q([^Q]+)Q] *)
Definition subtitlesurl_re : regex :=
  seqs [ lit "data-subtitlesurl"; Star true (lit " "); lit "=";
         Star true (lit " "); lit dq;
         Group "1" (plus (Chr (fun a => negb (Ascii.eqb a "034"%char))));
         lit dq ].

(** [float(parts[2])], which raises [ValueError] on other text. *)
Definition float_ (s : string) : result pyfloat :=
  of_option ValueError (PyNum.float_of_str s).

Definition int_ (s : string) : result Z :=
  of_option ValueError (PyNum.int_of_str s).

Definition index (parts : list string) (i : nat) : result string :=
  of_option IndexError (nth_error parts i).

(** [_str2seconds]: the seconds of a time code [h:m:s].  The sum of the
    two [int]s is exact; adding the float converts it to a float and
    rounds. *)
Definition _str2seconds (t : string) : result pyfloat :=
  let parts := Py.split ":" t in
  s <~ try_except (p <~ index parts 2 ;; float_ p)
                  is_ValueError
                  (fun _ => Ok (SpecFloat.S754_zero false)) ;;
  p0 <~ index parts 0 ;;
  hours <~ int_ p0 ;;
  p1 <~ index parts 1 ;;
  minutes <~ int_ p1 ;;
  total <~ PyNum.of_int (hours * 3600 + minutes * 60) ;;
  Ok (PyNum.fadd total s).

Section WithHost.

Context {H : Host}.

(** [_extract_captions] converts the caption file to SubRip text; it
    prints binary64 values and is taken as given. *)
Variable _extract_captions : string -> value -> value -> M value.

(** The formats found in the page: [data-media] and [data-hls-media]. *)
Definition page_formats (page : string) : list format :=
  let f4m :=
    match re_search (attribute_re "data-media") page with
    | Some m =>
        match group "1" m with
        | Some u =>
            [ [ ("url", VStr (u ++ "?hdcore=3.1.1&plugin=aasp-3.1.1.69.124"));
                ("format_id", VStr "f4m");
                ("ext", VStr "flv") ] ]
        | None => []
        end
    | None => []
    end in
  let m3u8 :=
    match re_search (attribute_re "data-hls-media") page with
    | Some m =>
        match group "1" m with
        | Some u => [ [ ("url", VStr u); ("format_id", VStr "m3u8") ] ]
        | None => []
        end
    | None => []
    end in
  f4m ++ m3u8.

Definition _real_extract (url : string) : M value :=
  mobj <- lift (of_option AttributeError (re_match _VALID_URL url)) ;;
  let video_id := Value.of_option (group "id" mobj) in
  let baseurl := Value.of_option (group "baseurl" mobj) in
  page <- _download_webpage url ;;
  let title := Value.of_option (html_search_meta ["title"] page) in
  let description :=
    Value.of_option (html_search_meta ["description"] page) in
  thumbnail <- lift (_html_search_regex (attribute_re "data-posterimage")
                       page "thumbnail" "1" None false) ;;
  let upload_date :=
    unified_strdate (Value.of_option (html_search_meta ["rightsfrom"] page)) in
  duration_text <- lift (_html_search_regex (attribute_re "data-duration")
                           page "duration" "1" None false) ;;
  let duration := float_or_none duration_text in
  subtitlesurl <- lift (_html_search_regex subtitlesurl_re page
                          "subtitlesurl" "1" (Some VNone) false) ;;
  subtitle <-
    match subtitlesurl with
    | VStr (String a u) => _extract_captions (String a u) video_id baseurl
    | _ => ret (VDict [])
    end ;;
  let formats := page_formats page in
  if param_listsubtitles then
    _ <- list_available_subtitles video_id subtitle ;;
    ret VNone
  else
    ret (VDict [ ("id", video_id);
                 ("title", title);
                 ("description", description);
                 ("thumbnail", thumbnail);
                 ("upload_date", upload_date);
                 ("duration", duration);
                 ("formats", VList (map VDict (_sort_formats formats)));
                 ("subtitles", subtitle) ]).

End WithHost.

(** ** Notions for the statements about [_str2seconds] *)

(** A field of a time code: a text without a colon. *)
Definition no_colon (s : string) : Prop :=
  Py.all_chars (fun c => negb (Ascii.eqb c ":"%char)) s = true.

(** The seconds a field of seconds stands for: its value as a float,
    zero when it is not the text of a float. *)
Definition seconds_of (s : string) : pyfloat :=
  match PyNum.float_of_str s with
  | Some f => f
  | None => SpecFloat.S754_zero false
  end.

End NRKTVIE.

(* ================================================================== *)
(** * [appletrailers.py] *)

Module AppleTrailersIE.

Import Re.

(** [https?://(?:www\.)?trailers\.apple\.com/(?:trailers|ca)/(?P<company>[^/]+)/(?P<movie>[^/]+)] *)
Definition _VALID_URL : regex :=
  seqs [ lit "http"; opt (lit "s"); lit "://"; opt (lit "www.");
         lit "trailers.apple.com/";
         Alt (lit "trailers") (lit "ca"); lit "/";
         Group "company" (plus (Chr (none_of "/"))); lit "/";
         Group "movie" (plus (Chr (none_of "/"))) ].

(** [iTunes.playURL\((.*?)\);] *)
Definition _JSON_RE : regex :=
  seqs [ lit "iTunes"; Chr dot; lit "playURL(";
         Group "1" (Star false (Chr dot)); lit ");" ].

Definition group_text (name : string) (c : captures) : string :=
  match lookup name c with
  | Some s => s
  | None => EmptyString
  end.

(** [fix_html], the repair of the playlist markup before it is parsed. *)
Definition fix_html (s : string) : string :=
  (* (?s)<script[^<]*?>.*?</script> *)
  let s := re_sub (seqs [ lit "<script"; Star false (Chr (none_of "<"));
                          lit ">"; Star false (Chr any_char);
                          lit "</script>" ])
                  (fun _ => EmptyString) s in
  (* <img ([^<]*?)/?> *)
  let s := re_sub (seqs [ lit "<img ";
                          Group "1" (Star false (Chr (none_of "<")));
                          opt (lit "/"); lit ">" ])
                  (fun c => "<img " ++ group_text "1" c ++ "/>") s in
  let _clean_json (c : captures) :=
    "iTunes.playURL(" ++ Py.replace "'" "&#39;" (group_text "1" c) ++ ");" in
  let s := re_sub _JSON_RE _clean_json s in
  "<html>" ++ s ++ "</html>".

(** [re.sub(r'[^a-zA-Z0-9]', '', title).lower()] *)
Definition slug (title : string) : string :=
  Py.lower (re_sub (Chr (fun a => negb (Py.is_alnum a)))
                   (fun _ => EmptyString) title).

(** [(?P<minutes>[0-9]+):(?P<seconds>[0-9]{1,2})] *)
Definition runtime_re : regex :=
  seqs [ Group "minutes" (plus (Chr (range "0" "9"))); lit ":";
         Group "seconds" (Seq (Chr (range "0" "9"))
                              (opt (Chr (range "0" "9")))) ].

Definition parse_runtime (runtime : string) : value :=
  match re_search runtime_re runtime with
  | Some m =>
      match group "minutes" m, group "seconds" m with
      | Some mi, Some se =>
          VInt (60 * Py.digits_value 0 mi + Py.digits_value 0 se)
      | _, _ => VNone
      end
  | None => VNone
  end.

(** [first_url.split('/')[-1].rpartition('_')[0].lower()] *)
Definition trailer_id_of (first_url : string) : string :=
  Py.lower (Py.rpartition_head "_" (Py.last_part (Py.split "/" first_url))).

(** [construct_direct_download_url]: the letter [h] goes in after every
    underscore of the address. *)
Definition construct_direct_download_url (first_url : string) : string :=
  let split_character := "_" in
  let split_list := Py.split "_" first_url in
  let missing_url_character := "h" in
  Py.join (split_character ++ missing_url_character) split_list.

(** [re.sub(r'_(\d*p.mov)', r'_h\1', src)] *)
Definition real_url (src : string) : string :=
  re_sub (seqs [ lit "_";
                 Group "1" (seqs [ Star true (Chr digit); lit "p";
                                   Chr dot; lit "mov" ]) ])
         (fun c => "_h" ++ group_text "1" c) src.

Section WithHost.

Context {H : Host}.

(** The body of the loop over [settings['metadata']['sizes']]. *)
Definition size_format (size : value) : result format :=
  src <~ Value.item "src" size ;;
  src <~ Value.as_str src TypeError ;;
  let format_url := real_url src in
  type <~ Value.item "type" size ;;
  width <~ Value.item "width" size ;;
  height <~ Value.item "height" size ;;
  Ok [ ("url", VStr format_url);
       ("format", type);
       ("width", int_or_none width);
       ("height", int_or_none height) ].

Fixpoint size_formats (sizes : list value) (formats : list format)
  : result (list format) :=
  match sizes with
  | [] => Ok formats
  | size :: rest =>
      f <~ size_format size ;;
      size_formats rest (formats ++ [f])
  end.

(** The [except ExtractorError] branch: one format from the fields of
    the trailer info. *)
Definition fallback_formats (first_url : string) (trailer_info : value)
  : result (list format) :=
  let format_extension := Py.last_part (Py.split "." first_url) in
  width <~ Value.item "width" trailer_info ;;
  height <~ Value.item "height" trailer_info ;;
  Ok [ [ ("url", VStr (construct_direct_download_url first_url));
         ("format", VStr format_extension);
         ("width", int_or_none width);
         ("height", int_or_none height) ] ].

(** The [else] branch: the formats of the settings, sorted. *)
Definition settings_formats (settings : value) : result (list format) :=
  metadata <~ Value.item "metadata" settings ;;
  sizes <~ Value.item "sizes" metadata ;;
  sizes <~ Value.iterate sizes ;;
  formats <~ size_formats sizes [] ;;
  Ok (_sort_formats formats).

(** The formats of one trailer: [try ... except ExtractorError ...
    else ...]. *)
Definition trailer_formats (url first_url : string) (trailer_info : value)
  : M (list format) :=
  let trailer_id := trailer_id_of first_url in
  let settings_json_url :=
    urljoin url ("includes/settings/" ++ trailer_id ++ ".json") in
  try_except_else (_download_json settings_json_url)
    is_ExtractorError
    (fun _ => lift (fallback_formats first_url trailer_info))
    (fun settings => lift (settings_formats settings)).

(** One turn of the loop over the [li] elements: [None] when the turn
    ends in [continue], else the entry appended to the playlist. *)
Definition trailer_entry (url movie uploader_id : string) (li : xml)
  : M (option value) :=
  on_click <- lift (ET.found_attrib_item "onClick"
                      (ET.find_descendant "a" li)) ;;
  trailer_info_json <- lift (_search_regex _JSON_RE on_click
                               "trailer info" "1" None true) ;;
  trailer_info_json <- lift (Value.as_str trailer_info_json TypeError) ;;
  trailer_info <- lift (of_option ValueError
                          (json_loads trailer_info_json)) ;;
  first_url <- lift (Value.get "url" trailer_info) ;;
  if negb (Value.truthy first_url) then ret None
  else
    title <- lift (Value.item "title" trailer_info) ;;
    title_text <- lift (Value.as_str title TypeError) ;;
    let video_id := movie ++ "-" ++ slug title_text in
    thumbnail <- lift (ET.found_attrib_item "src"
                         (ET.find_descendant "img" li)) ;;
    posted <- lift (Value.item "posted" trailer_info) ;;
    posted <- lift (Value.as_str posted AttributeError) ;;
    let upload_date := Py.replace "-" "" posted in
    runtime <- lift (Value.item "runtime" trailer_info) ;;
    runtime <- lift (Value.as_str runtime TypeError) ;;
    let duration := parse_runtime runtime in
    first_url <- lift (Value.as_str first_url AttributeError) ;;
    formats <- trailer_formats url first_url trailer_info ;;
    ret (Some (VDict
      [ ("_type", VStr "video");
        ("id", VStr video_id);
        ("formats", VList (map VDict formats));
        ("title", title);
        ("duration", duration);
        ("thumbnail", VStr thumbnail);
        ("upload_date", VStr upload_date);
        ("uploader_id", VStr uploader_id);
        ("http_headers",
          VDict [ ("User-Agent",
                   VStr "QuickTime compatible (youtube-dl)") ]) ])).

(** The loop over the [li] elements, with the playlist built so far. *)
Fixpoint entries (url movie uploader_id : string) (lis : list xml)
    (playlist : list value) : M (list value) :=
  match lis with
  | [] => ret playlist
  | li :: rest =>
      entry <- trailer_entry url movie uploader_id li ;;
      match entry with
      | None => entries url movie uploader_id rest playlist
      | Some e => entries url movie uploader_id rest (playlist ++ [e])
      end
  end.

Definition _real_extract (url : string) : M value :=
  mobj <- lift (of_option AttributeError (re_match _VALID_URL url)) ;;
  let movie := group_text "movie" (snd mobj) in
  let uploader_id := group_text "company" (snd mobj) in
  let playlist_url := urljoin url "includes/playlists/itunes.inc" in
  doc <- _download_xml playlist_url fix_html [] [] ;;
  playlist <- entries url movie uploader_id
                (ET.findall ["div"; "ul"; "li"] doc) [] ;;
  ret (VDict [ ("_type", VStr "playlist");
               ("id", VStr movie);
               ("entries", VList playlist) ]).

End WithHost.

(** A trailer info without a value for [url]: the key is absent, or its
    value is [None] or the empty string. *)
Definition lacks_url (trailer_info : Dict.t) : Prop :=
  Dict.mem "url" trailer_info = false
  \/ Dict.get "url" trailer_info = VNone
  \/ Dict.get "url" trailer_info = VStr EmptyString.

(** The address of the settings of a trailer. *)
Definition settings_url {H : Host} (url first_url : string) : string :=
  urljoin url ("includes/settings/" ++ trailer_id_of first_url ++ ".json").

(** ** Notions for the statements about the addresses *)

(** [_(\d*p.mov)], the pattern of [real_url]. *)
Definition size_re : regex :=
  seqs [ lit "_";
         Group "1" (seqs [ Star true (Chr digit); lit "p"; Chr dot;
                           lit "mov" ]) ].

(** A text without the character [x]. *)
Definition without (x : ascii) (s : string) : Prop :=
  Py.all_chars (fun c => negb (Ascii.eqb x c)) s = true.

(** A text of decimal digits. *)
Definition digits (s : string) : Prop := Py.all_chars Py.is_digit s = true.

End AppleTrailersIE.

Module AppleTrailersSectionIE.

Import Re.

(** The keys of [_SECTIONS], in the order of the source. *)
Definition _SECTIONS : list (string * (string * string)) :=
  [ ("justadded", ("just_added", "Just Added"));
    ("exclusive", ("exclusive", "Exclusive"));
    ("justhd", ("just_hd", "Just HD"));
    ("mostpopular", ("most_pop", "Most Popular"));
    ("moviestudios", ("studios", "Movie Studios")) ].

(** [https?://(?:www\.)?trailers\.apple\.com/#section=(?P<id>%s)] with
    the keys of [_SECTIONS] joined by [|]. *)
Definition _VALID_URL : regex :=
  seqs [ lit "http"; opt (lit "s"); lit "://"; opt (lit "www.");
         lit "trailers.apple.com/#section=";
         Group "id" (alts (map (fun kv => lit (fst kv)) _SECTIONS)) ].

(** [_SECTIONS[section]]. *)
Definition sections_item (section : string) : result (string * string) :=
  match List.find (fun kv => String.eqb (fst kv) section) _SECTIONS with
  | Some kv => Ok (snd kv)
  | None => Raise (KeyError section)
  end.

Definition feed_url (feed_path : string) : string :=
  "http://trailers.apple.com/trailers/home/feeds/" ++ feed_path ++ ".json".

Section WithHost.

Context {H : Host}.

(** [InfoExtractor.url_result] and [InfoExtractor.playlist_result] of
    [common.py], which build the records. *)
Variable url_result : string -> value.
Variable playlist_result : list value -> string -> string -> value.

(** The entry for a location: [url_result] of the address of the site
    followed by the location. *)
Definition entry_of (location : string) : value :=
  url_result ("http://trailers.apple.com" ++ location).

(** One member of the comprehension over [section_data]. *)
Definition section_entry (e : value) : result value :=
  location <~ Value.item "location" e ;;
  location <~ Value.as_str location TypeError ;;
  Ok (entry_of location).

Fixpoint section_entries (section_data : list value) : result (list value) :=
  match section_data with
  | [] => Ok []
  | e :: rest =>
      entry <~ section_entry e ;;
      entries <~ section_entries rest ;;
      Ok (entry :: entries)
  end.

Definition _real_extract (url : string) : M value :=
  section <- lift (_match_id _VALID_URL url) ;;
  feed <- lift (sections_item section) ;;
  section_data <- _download_json (feed_url (fst feed)) ;;
  section_data <- lift (Value.iterate section_data) ;;
  entries <- lift (section_entries section_data) ;;
  title <- lift (sections_item section) ;;
  ret (playlist_result entries section (snd title)).

End WithHost.

End AppleTrailersSectionIE.

(* ================================================================== *)
(** * [rai.py] *)

Module RaiBaseIE.

Import Re.

Definition hex : ascii -> bool := either digit (range "a" "f").

(** [[\da-f]{8}-[\da-f]{4}-[\da-f]{4}-[\da-f]{4}-[\da-f]{12}] *)
Definition _UUID_RE : regex :=
  seqs [ times 8 (Chr hex); lit "-"; times 4 (Chr hex); lit "-";
         times 4 (Chr hex); lit "-"; times 4 (Chr hex); lit "-";
         times 12 (Chr hex) ].

Definition _GEO_COUNTRIES : list string := ["IT"].
Definition _GEO_BYPASS : bool := false.

(** [https?://] *)
Definition scheme_re : regex := seqs [ lit "http"; opt (lit "s"); lit "://" ].

(** The dict [_extract_relinker_info] returns: a key that is absent from
    the dict is [None] here. *)
Record relinker_info : Type := mkInfo {
  ri_is_live : option value;
  ri_duration : option value;
  ri_formats : list format
}.

(** The variables of the loop over the platforms. *)
Record relinker_state : Type := mkState {
  formats : list format;
  geoprotection : value;
  is_live : value;
  duration : value
}.

Definition initial_state : relinker_state := mkState [] VNone VNone VNone.

(** [if not current: current = fresh]. *)
Definition refresh (current fresh : value) : value :=
  if Value.truthy current then current else fresh.

Definition is_Y (o : option string) : value :=
  VBool (match o with
         | Some t => String.eqb t "Y"
         | None => false
         end).

(** The entries of [relinker_info] whose value is not [None]. *)
Definition present (v : value) : option value :=
  if Value.is_none v then None else Some v.

(** [info.update(relinker_info)]. *)
Definition update_with (info : Dict.t) (ri : relinker_info) : Dict.t :=
  Dict.update info
    ((match ri_is_live ri with Some v => [("is_live", v)] | None => [] end)
     ++ (match ri_duration ri with Some v => [("duration", v)] | None => [] end)
     ++ [("formats", VList (map VDict (ri_formats ri)))])%list.

Section WithHost.

Context {H : Host}.

(** The format of the last branch: a direct address with its bitrate.
    Comparing [None] with [0] raises [TypeError]. *)
Definition http_format (media_url : string) (bitrate : value)
  : result format :=
  match bitrate with
  | VInt b =>
      Ok [ ("url", VStr media_url);
           ("tbr", if (0 <? b)%Z then VInt b else VNone);
           ("format_id",
             if (0 <? b)%Z
             then VStr ("http-" ++ NilZero.string_of_int (Z.to_int b))
             else VStr "http") ]
  | _ => Raise TypeError
  end.

(** One turn of the loop over the platforms. *)
Definition platform_step (relinker_url : string) (video_id : string)
    (platform : string) (st : relinker_state) : M relinker_state :=
  relinker <- _download_xml relinker_url fix_xml_ampersands
                [("output", "45"); ("pl", platform)]
                geo_verification_headers ;;
  let geoprotection :=
    refresh (geoprotection st) (is_Y (xpath_text relinker "./geoprotection")) in
  let is_live :=
    refresh (is_live st) (is_Y (xpath_text relinker "./is_live")) in
  let duration :=
    refresh (duration st)
            (parse_duration (Value.of_option (xpath_text relinker "./duration"))) in
  let st := mkState (formats st) geoprotection is_live duration in
  match find_xpath_attr relinker "./url" "type" "content" with
  | None => ret st
  | Some url_elem =>
      match ET.text url_elem with
      | None => raise TypeError
      | Some media_url =>
          if Py.contains "/video_no_available.mp4" media_url then ret st
          else
            let ext := determine_ext media_url in
            if (String.eqb ext "m3u8" && negb (String.eqb platform "mon"))
               || (String.eqb ext "f4m" && negb (String.eqb platform "flash"))
            then ret st
            else if String.eqb ext "m3u8"
                    || Py.contains "format=m3u8" media_url
                    || String.eqb platform "mon"
            then
              fs <- extract_m3u8_formats media_url video_id ;;
              ret (mkState (formats st ++ fs) geoprotection is_live duration)
            else if String.eqb ext "f4m" || String.eqb platform "flash"
            then
              let manifest_url :=
                update_url_query
                  (Py.replace "manifest#live_hds.f4m" "manifest.f4m" media_url)
                  [("hdcore", "3.7.0"); ("plugin", "aasp-3.7.0.39.44")] in
              fs <- extract_f4m_formats manifest_url video_id ;;
              ret (mkState (formats st ++ fs) geoprotection is_live duration)
            else
              let bitrate :=
                int_or_none (Value.of_option (xpath_text relinker "bitrate")) in
              f <- lift (http_format media_url bitrate) ;;
              ret (mkState (formats st ++ [f]) geoprotection is_live duration)
      end
  end.

Fixpoint platform_loop (relinker_url video_id : string)
    (platforms : list string) (st : relinker_state) : M relinker_state :=
  match platforms with
  | [] => ret st
  | platform :: rest =>
      st' <- platform_step relinker_url video_id platform st ;;
      platform_loop relinker_url video_id rest st'
  end.

Definition _extract_relinker_info (relinker_url : string)
    (video_id : string) : M relinker_info :=
  match re_match scheme_re relinker_url with
  | None => ret (mkInfo None None [ [("url", VStr relinker_url)] ])
  | Some _ =>
      st <- platform_loop relinker_url video_id
              ["mon"; "flash"; "native"] initial_state ;;
      match formats st, geoprotection st with
      | [], VBool true => raise_geo_restricted _GEO_COUNTRIES
      | _, _ =>
          ret (mkInfo (present (is_live st)) (present (duration st))
                      (formats st))
      end
  end.

(** ** Notions for the statements about the relinker *)

(** The values [geoprotection] takes: [None] before the first answer, a
    truth value after. *)
Definition flag (v : value) : Prop := v = VNone \/ exists b, v = VBool b.

(** The request of the loop for a platform, and the answer of the
    relinker to it as the loop reads it. *)
Definition platform_request (relinker_url platform : string) : request :=
  mkRequest relinker_url [("output", "45"); ("pl", platform)]
            geo_verification_headers.

Definition answer (relinker_url platform : string) : option xml :=
  match urlopen (platform_request relinker_url platform) with
  | Some page => xml_fromstring (fix_xml_ampersands page)
  | None => None
  end.

(** The site signals geo-protection: the answer for one of the platforms
    has the text [Y] in its element [geoprotection]. *)
Definition signals_geoprotection (relinker_url : string)
    (platforms : list string) : Prop :=
  exists platform relinker,
    In platform platforms
    /\ answer relinker_url platform = Some relinker
    /\ xpath_text relinker "./geoprotection" = Some "Y".

End WithHost.

End RaiBaseIE.

Module Subtitles.

(** ** [RaiBaseIE._extract_subtitles]

    The dict the method returns has the languages as keys.  A language is
    what the data give, and need not be a text: a key is any value that
    can be hashed, two keys are one key when they are equal as Python
    compares them, and a NaN is a key of its own each time, since it is
    the object of the entry at hand that is looked up. *)

Definition STL_EXT : string := "stl".
Definition SRT_EXT : string := "srt".

(** The keys and the lists of tracks, in the order of insertion. *)
Definition tracks : Type := list (value * list Dict.t).

(** A number as a key: [True] is [1], [False] is [0], and an [int] and
    a [float] are compared by the numbers they stand for. *)
Inductive key_number : Type :=
| Rational (q : Q)
| Infinity (negative : bool)
| NotANumber.

Definition number (v : value) : option key_number :=
  match v with
  | VBool b => Some (Rational (if b then 1 else 0)%Q)
  | VInt n => Some (Rational (inject_Z n))
  | VFloat f =>
      Some match f, PyNum.to_Q f with
           | _, Some q => Rational q
           | SpecFloat.S754_infinity s, None => Infinity s
           | _, None => NotANumber
           end
  | _ => None
  end.

Definition float_eqb (a b : key_number) : bool :=
  match a, b with
  | Rational p, Rational q => Qeq_bool p q
  | Infinity x, Infinity y => Bool.eqb x y
  | _, _ => false
  end.

(** [a == b] for keys. *)
Definition key_eqb (a b : value) : bool :=
  match a, b with
  | VStr s, VStr t => String.eqb s t
  | VNone, VNone => true
  | _, _ =>
      match number a, number b with
      | Some x, Some y => float_eqb x y
      | _, _ => false
      end
  end.

(** A list and a dict cannot be keys. *)
Definition hashable (v : value) : bool :=
  match v with
  | VList _ | VDict _ => false
  | _ => true
  end.

(** [subtitles.setdefault(sub_lang, [])] followed by the [append]s to
    the list of [sub_lang]. *)
Fixpoint add_tracks (sub_lang : value) (new : list Dict.t) (subtitles : tracks)
  : tracks :=
  match subtitles with
  | [] => [(sub_lang, new)]
  | (k, l) :: rest =>
      if key_eqb k sub_lang then (k, (l ++ new)%list) :: rest
      else (k, l) :: add_tracks sub_lang new rest
  end.

Definition track (ext : string) (url : value) : Dict.t :=
  [ ("ext", VStr ext); ("url", url) ].

(** [sub_url[:-len(STL_EXT)]]. *)
Definition without_ext (sub_url : string) : string :=
  substring 0 (String.length sub_url - String.length STL_EXT) sub_url.

Section WithHost.

Context {H : Host}.

(** [utils.determine_ext] with its second argument, the extension to
    return when the address shows none; the address can be [None]. *)
Variable determine_ext_or : value -> string -> string.

(** The body of the loop over [subtitles_array]. *)
Definition add_subtitle (url : string) (subtitles : tracks) (subtitle : value)
  : result tracks :=
  sub_url <~ Value.get "url" subtitle ;;
  match sub_url with
  | VStr (String a u) =>
      language <~ Value.get "language" subtitle ;;
      let sub_lang := if Value.truthy language then language else VStr "it" in
      let sub_url := utils_urljoin url (String a u) in
      let sub_ext := determine_ext_or sub_url SRT_EXT in
      if hashable sub_lang then
        if String.eqb STL_EXT sub_ext then
          match sub_url with
          | VStr s =>
              Ok (add_tracks sub_lang
                    [ track sub_ext sub_url;
                      track SRT_EXT (VStr (without_ext s ++ SRT_EXT)) ]
                    subtitles)
          | _ => Raise TypeError
          end
        else Ok (add_tracks sub_lang [ track sub_ext sub_url ] subtitles)
      else Raise TypeError
  | _ => Ok subtitles
  end.

Fixpoint add_subtitles (url : string) (subtitles : tracks)
    (subtitles_array : list value) : result tracks :=
  match subtitles_array with
  | [] => Ok subtitles
  | subtitle :: rest =>
      subtitles <~ add_subtitle url subtitles subtitle ;;
      add_subtitles url subtitles rest
  end.

(** [_extract_subtitles(url, video_data)].  The two entries for
    [subtitles] and [subtitlesUrl] are appended to the list of
    [video_data] itself when that list is not empty; the callers do not
    read the list again. *)
Definition _extract_subtitles (url : string) (video_data : value)
  : result tracks :=
  subtitles_array <~ Value.get "subtitlesArray" video_data ;;
  subtitles_array <~
    (if Value.truthy subtitles_array then
       match subtitles_array with
       | VList l => Ok l
       | _ => Raise AttributeError
       end
     else Ok []) ;;
  first <~ Value.get "subtitles" video_data ;;
  second <~ Value.get "subtitlesUrl" video_data ;;
  let subtitles_array :=
    (subtitles_array ++ [ VDict [("url", first)]; VDict [("url", second)] ])%list in
  add_subtitles url [] subtitles_array.

End WithHost.

(** ** Notions for the statements about the subtitles *)

(** A list of tracks in which every track of extension [stl] is followed
    by the track of extension [srt] for the same address with [srt] in the
    place of its last three characters. *)
Inductive paired : list Dict.t -> Prop :=
| paired_nil : paired []
| paired_other (ext : string) (url : value) (rest : list Dict.t) :
    ext <> STL_EXT -> paired rest -> paired (track ext url :: rest)
| paired_stl (s : string) (rest : list Dict.t) :
    paired rest ->
    paired (track STL_EXT (VStr s)
            :: track SRT_EXT (VStr (without_ext s ++ SRT_EXT)) :: rest).

(** A value that is no address of subtitles: anything but a text that
    is not empty. *)
Definition no_address (v : value) : Prop :=
  match v with
  | VStr (String _ _) => False
  | _ => True
  end.

(** An entry of the result: the language is a true value, the list is
    not empty and every [stl] track has its [srt] track behind it. *)
Definition well_formed (k : value) (l : list Dict.t) : Prop :=
  Value.truthy k = true /\ l <> [] /\ paired l.

End Subtitles.

Module RaiPlayIE.

Import Re.

(** [(?P<base>https?://(?:www\.)?raiplay\.it/.+?-(?P<id>%s))\.(?:html|json)] *)
Definition _VALID_URL : regex :=
  seqs [ Group "base" (seqs [ lit "http"; opt (lit "s"); lit "://";
                              opt (lit "www."); lit "raiplay.it/";
                              lazy_plus (Chr dot); lit "-";
                              Group "id" RaiBaseIE._UUID_RE ]);
         lit "."; Alt (lit "html") (lit "json") ].

Import RaiBaseIE.

(** [s.isdigit()]. *)
Definition isdigit (s : string) : bool :=
  Py.truthy s && Py.all_chars Py.is_digit s.

(** [a + b] where [b] is a text. *)
Definition add_text (a : value) (b : string) : result value :=
  match a with
  | VStr s => Ok (VStr (s ++ b))
  | _ => Raise TypeError
  end.

(** [a += b] where [b] is a text: a list takes the characters of [b] as
    new members. *)
Definition iadd_text (a : value) (b : string) : result value :=
  match a with
  | VStr s => Ok (VStr (s ++ b))
  | VList l =>
      Ok (VList (l ++ map (fun c => VStr (String c EmptyString))
                          (list_ascii_of_string b)))
  | _ => Raise TypeError
  end.

Section WithHost.

Context {H : Host}.

(** [RaiBaseIE._extract_subtitles], whose result the record carries. *)
Variable _extract_subtitles : string -> value -> result value.

(** [utils.remove_start], [utils.unified_timestamp] and
    [InfoExtractor._live_title], which raise on a value they cannot
    read; [utils.urljoin] with a second argument that need not be a
    text. *)
Variable remove_start : value -> string -> result value.
Variable unified_timestamp : value -> result value.
Variable _live_title : value -> result value.
Variable urljoin_value : string -> value -> value.

(** The loop over [media.get('images', {}).items()]. *)
Definition thumbnails_of (url : string) (images : Dict.t) : list value :=
  flat_map (fun kv => if Value.truthy (snd kv)
                      then [ VDict [ ("url", urljoin_value url (snd kv)) ] ]
                      else []) images.

(** [date_published], with the time added when both are given. *)
Definition published (date_published time_published : value) : result value :=
  if Value.truthy date_published && Value.truthy time_published then
    time <~ Value.as_str time_published TypeError ;;
    iadd_text date_published (" " ++ time)
  else Ok date_published.

(** [season if (season and not season.isdigit()) else None]. *)
Definition season_text (season : value) : result value :=
  if Value.truthy season then
    match season with
    | VStr s => Ok (if isdigit s then VNone else season)
    | _ => Raise AttributeError
    end
  else Ok VNone.

(** [_real_extract] of [RaiPlayIE], which [RaiPlayLiveIE] inherits with a
    pattern of its own.  Both patterns set the group [id] in every
    match; the text of the group goes to the relinker as the id to show
    in the notes. *)
Definition _real_extract (_VALID_URL : regex) (url : string) : M value :=
  mobj <- lift (of_option AttributeError (re_match _VALID_URL url)) ;;
  let base := Value.of_option (group "base" mobj) in
  let video_id := Value.of_option (group "id" mobj) in
  address <- lift (add_text base ".json") ;;
  address <- lift (Value.as_str address TypeError) ;;
  media <- _download_json address ;;
  title <- lift (Value.item "name" media) ;;
  video <- lift (Value.item "video" media) ;;
  content_url <- lift (Value.item "content_url" video) ;;
  content_url <- lift (Value.as_str content_url TypeError) ;;
  relinker_info <- _extract_relinker_info content_url
                     (match group "id" mobj with
                      | Some s => s
                      | None => EmptyString
                      end) ;;
  let relinker_info :=
    mkInfo (ri_is_live relinker_info) (ri_duration relinker_info)
           (_sort_formats (ri_formats relinker_info)) in
  images <- lift (LivestreamfailsIE.get_default "images" (VDict []) media) ;;
  images <- lift (match images with
                  | VDict d => Ok d
                  | _ => Raise AttributeError
                  end) ;;
  let thumbnails := thumbnails_of url images in
  date_published <- lift (Value.get "date_published" media) ;;
  time_published <- lift (Value.get "time_published" media) ;;
  date_published <- lift (published date_published time_published) ;;
  subtitles <- lift (_extract_subtitles url video) ;;
  program_info <- lift (Value.get "program_info" media) ;;
  let program_info :=
    if Value.truthy program_info then program_info else VDict [] in
  season <- lift (Value.get "season" media) ;;
  id <- lift (Value.get "id" media) ;;
  id <- lift (remove_start id "ContentItem-") ;;
  let is_live := match ri_is_live relinker_info with
                 | Some v => v
                 | None => VNone
                 end in
  title <- (if Value.truthy is_live then lift (_live_title title)
            else ret title) ;;
  subtitle <- lift (Value.get "subtitle" media) ;;
  description <- lift (Value.get "description" media) ;;
  channel <- lift (Value.get "channel" media) ;;
  editor <- lift (Value.get "editor" media) ;;
  duration <- lift (Value.get "duration" video) ;;
  timestamp <- lift (unified_timestamp date_published) ;;
  series <- lift (Value.get "name" program_info) ;;
  season_name <- lift (season_text season) ;;
  episode_title <- lift (Value.get "episode_title" media) ;;
  episode <- lift (Value.get "episode" media) ;;
  let info :=
    [ ("id", if Value.truthy id then id else video_id);
      ("display_id", video_id);
      ("title", title);
      ("alt_title", strip_or_none subtitle);
      ("description", description);
      ("uploader", strip_or_none channel);
      ("creator", strip_or_none (if Value.truthy editor then editor
                                 else VNone));
      ("duration", parse_duration duration);
      ("timestamp", timestamp);
      ("thumbnails", VList thumbnails);
      ("series", series);
      ("season_number", int_or_none season);
      ("season", season_name);
      ("episode", episode_title);
      ("episode_number", int_or_none episode);
      ("subtitles", subtitles) ] in
  ret (VDict (update_with info relinker_info)).

End WithHost.

End RaiPlayIE.

Module RaiPlayLiveIE.

Import Re.

(** [(?P<base>https?://(?:www\.)?raiplay\.it/dirette/(?P<id>[^/?#&]+))] *)
Definition _VALID_URL : regex :=
  Group "base" (seqs [ lit "http"; opt (lit "s"); lit "://";
                       opt (lit "www."); lit "raiplay.it/dirette/";
                       Group "id" (plus (Chr (none_of "/?#&"))) ]).

End RaiPlayLiveIE.

Module RaiPlayPlaylistIE.

Import Re.

(** [(?P<base>https?://(?:www\.)?raiplay\.it/programmi/(?P<id>[^/?#&]+))] *)
Definition _VALID_URL : regex :=
  Group "base" (seqs [ lit "http"; opt (lit "s"); lit "://";
                       opt (lit "www."); lit "raiplay.it/programmi/";
                       Group "id" (plus (Chr (none_of "/?#&"))) ]).

Section WithHost.

Context {H : Host}.

(** Modelled from the spec: [_download_json] with [fatal=False] of
    [common.py] ("secondary/optional data unavailable: logged/ignored,
    extraction proceeds"); a transfer that fails gives [False], a text
    that is no JSON gives [None]. *)
Definition _download_json_not_fatal (url : string) : M value :=
  fun log =>
    let r := mkRequest url [] [] in
    (Ok (match urlopen r with
         | None => VBool false
         | Some page =>
             match json_loads page with
             | Some v => v
             | None => VNone
             end
         end),
     (log ++ [r])%list).

(** [str(v)] for a value that is no text; [utils.urljoin] with a second
    argument that need not be a text; [url_result], [playlist_result]
    and [utils.try_get]. *)
Variable py_str : value -> string.
Variable urljoin_value : string -> value -> value.
Variable url_result : value -> string -> string -> value.
Variable playlist_result : list value -> value -> value -> value -> value.
Variable try_get : value -> (value -> result value) -> value.

(** ['%s' % v]. *)
Definition format_s (v : value) : string :=
  match v with
  | VStr s => s
  | _ => py_str v
  end.

(** [v or []], as a [for] loop meets it. *)
Definition members (v : value) : result (list value) :=
  if Value.truthy v then Value.iterate v else Ok [].

(** The loop over the items of a content set. *)
Fixpoint item_entries (url : string) (items entries : list value)
  : result (list value) :=
  match items with
  | [] => Ok entries
  | m :: rest =>
      path_id <~ Value.get "path_id" m ;;
      if Value.truthy path_id then
        let video_url := urljoin_value url path_id in
        video_id <~ match video_url with
                    | VStr u => _match_id RaiPlayIE._VALID_URL u
                    | _ => Raise TypeError
                    end ;;
        item_entries url rest
          (entries ++ [url_result video_url "RaiPlay" video_id])
      else item_entries url rest entries
  end.

Definition set_url (base : string) (s_id : value) : string :=
  base ++ "/" ++ format_s s_id ++ ".json".

(** The requests for the sets with the given ids. *)
Definition set_requests (base : string) (ids : list value) : list request :=
  map (fun id => mkRequest (set_url base id) [] []) ids.

(** The loop over the sets of a block. *)
Fixpoint set_entries (url base : string) (sets entries : list value)
  : M (list value) :=
  match sets with
  | [] => ret entries
  | s :: rest =>
      s_id <- lift (Value.get "id" s) ;;
      if Value.truthy s_id then
        medias <- _download_json_not_fatal (set_url base s_id) ;;
        if Value.truthy medias then
          items <- lift (Value.get "items" medias) ;;
          items <- lift (members items) ;;
          entries <- lift (item_entries url items entries) ;;
          set_entries url base rest entries
        else set_entries url base rest entries
      else set_entries url base rest entries
  end.

(** The loop over the blocks of the programme. *)
Fixpoint block_entries (url base : string) (blocks entries : list value)
  : M (list value) :=
  match blocks with
  | [] => ret entries
  | b :: rest =>
      sets <- lift (Value.get "sets" b) ;;
      sets <- lift (members sets) ;;
      entries <- set_entries url base sets entries ;;
      block_entries url base rest entries
  end.

Definition _real_extract (url : string) : M value :=
  mobj <- lift (of_option AttributeError (re_match _VALID_URL url)) ;;
  let base := Value.of_option (group "base" mobj) in
  let playlist_id := Value.of_option (group "id" mobj) in
  address <- lift (RaiPlayIE.add_text base ".json") ;;
  address <- lift (Value.as_str address TypeError) ;;
  program <- _download_json address ;;
  blocks <- lift (Value.get "blocks" program) ;;
  blocks <- lift (members blocks) ;;
  entries <- block_entries url
               (match group "base" mobj with
                | Some s => s
                | None => EmptyString
                end) blocks [] ;;
  name <- lift (Value.get "name" program) ;;
  ret (playlist_result entries playlist_id name
         (try_get program
            (fun x => info <~ Value.item "program_info" x ;;
                      Value.item "description" info))).

End WithHost.

(** ** Notions for the statements about the requests *)

(** The members of a list; another value has none. *)
Definition listed (v : value) : list value :=
  match v with
  | VList l => l
  | _ => []
  end.

Definition field (k : string) (v : value) : value :=
  match v with
  | VDict d => Dict.get k d
  | _ => VNone
  end.

(** The ids of the sets of the programme that have one, in the order of
    the blocks and of the sets. *)
Definition set_ids (program : value) : list value :=
  flat_map (fun b => List.filter Value.truthy
                       (map (field "id") (listed (field "sets" b))))
           (listed (field "blocks" program)).

End RaiPlayPlaylistIE.

Module HTMLListAttrsParser.

(** What [HTMLParser.feed] reports to the handlers the class defines: the
    start tags with their attributes (a value is a text, or [None] for an
    attribute without value) and the end tags.  A tag closed in place is
    reported as a start tag and an end tag. *)
Inductive event : Type :=
| Starttag (tag : string) (attrs : list (string * value))
| Endtag (tag : string).

(** The fields [items] and [_level] of the parser. *)
Record parser : Type := mkParser {
  items : list Dict.t;
  _level : Z
}.

(** [__init__]. *)
Definition init : parser := mkParser [] 0.

(** [dict(attrs)]: a later attribute replaces an earlier one of its
    name. *)
Definition dict (attrs : list (string * value)) : Dict.t :=
  Dict.update [] attrs.

Definition handle_starttag (tag : string) (attrs : list (string * value))
    (self : parser) : parser :=
  let items := if String.eqb tag "li" && (_level self =? 0)%Z
               then (items self ++ [dict attrs])%list
               else items self in
  mkParser items (_level self + 1).

Definition handle_endtag (tag : string) (self : parser) : parser :=
  mkParser (items self) (_level self - 1).

Definition handle (self : parser) (e : event) : parser :=
  match e with
  | Starttag tag attrs => handle_starttag tag attrs self
  | Endtag tag => handle_endtag tag self
  end.

(** [feed] with the events of the text. *)
Definition feed (events : list event) (self : parser) : parser :=
  fold_left handle events self.

(** ** Markup whose tags are closed *)

Inductive element : Type :=
| Elem (tag : string) (attrs : list (string * value))
       (children : list element).

Fixpoint events_of (e : element) : list event :=
  match e with
  | Elem tag attrs children =>
      (Starttag tag attrs :: flat_map events_of children ++ [Endtag tag])%list
  end.

(** The attributes of the [li] elements among [elements], not of those
    below them. *)
Fixpoint list_items (elements : list element) : list Dict.t :=
  match elements with
  | [] => []
  | Elem tag attrs _ :: rest =>
      if String.eqb tag "li" then dict attrs :: list_items rest
      else list_items rest
  end.

(** The events [events] add the items [found] to a parser whose level
    is zero, add nothing to a parser whose level is positive, and leave
    the level as it was. *)
Definition kept (events : list event) (found : list Dict.t) : Prop :=
  forall self,
    (0 <= _level self)%Z ->
    feed events self
    = mkParser (items self ++ (if (_level self =? 0)%Z then found else []))
               (_level self).

End HTMLListAttrsParser.

Module RaiPlayRadioBaseIE.

Import Re.

(** [_BASE] as it stands in a pattern: its dots match any character. *)
Definition _BASE : regex :=
  seqs [ lit "https://www"; Chr dot; lit "raiplayradio"; Chr dot; lit "it" ].

(** [s.lstrip(chars)]: the characters of [chars] are removed from the
    front of [s], in whatever order they come. *)
Fixpoint lstrip_chars (chars s : string) : string :=
  match s with
  | String c s' => if one_of chars c then lstrip_chars chars s' else s
  | EmptyString => EmptyString
  end.

Section WithHost.

Context {H : Host}.

(** The events [HTMLParser] reports for a text. *)
Variable html_events : string -> list HTMLListAttrsParser.event.

(** [utils.urljoin] with a second argument that need not be a text. *)
Variable urljoin_value : string -> value -> value.

Definition parse_list (webpage : string) : list Dict.t :=
  HTMLListAttrsParser.items
    (HTMLListAttrsParser.feed (html_events webpage) HTMLListAttrsParser.init).

(** The entry the generator yields for one item of the list. *)
Definition playlist_entry (url : string) (attrs : Dict.t) : result value :=
  title <~ Dict.item "data-title" attrs ;;
  title <~ Value.as_str title AttributeError ;;
  let title := Py.strip title in
  mediapolis <~ Dict.item "data-mediapolis" attrs ;;
  let audio_url := urljoin_value url mediapolis in
  uniquename <~ Dict.item "data-uniquename" attrs ;;
  uniquename <~ Value.as_str uniquename AttributeError ;;
  let entry :=
    [ ("url", audio_url);
      ("id", VStr (lstrip_chars "ContentItem-" uniquename));
      ("title", VStr title);
      ("ext", VStr "mp3");
      ("language", VStr "it") ] in
  if Dict.mem "data-image" attrs
  then Ok (VDict (Dict.set "thumbnail"
                    (urljoin_value url (Dict.get "data-image" attrs)) entry))
  else Ok (VDict entry).

(** [get_playlist_iter]: the page is fetched when the first entry is
    asked for, and an entry is built when it is asked for; each member of
    the list is the entry or what building it raises. *)
Definition get_playlist_iter (url : string) : M (list (result value)) :=
  webpage <- _download_webpage url ;;
  ret (map (playlist_entry url) (parse_list webpage)).

(** [get_playlist]: [list(...)] asks for every entry. *)
Fixpoint all_entries (entries : list (result value)) : result (list value) :=
  match entries with
  | [] => Ok []
  | entry :: rest =>
      e <~ entry ;;
      es <~ all_entries rest ;;
      Ok (e :: es)
  end.

Definition get_playlist (url : string) : M (list value) :=
  entries <- get_playlist_iter url ;;
  lift (all_entries entries).

End WithHost.

End RaiPlayRadioBaseIE.

Module RaiPlayRadioIE.

Import Re.

(** [%s/audio/.+?-(?P<id>%s)\.html] *)
Definition _VALID_URL : regex :=
  seqs [ RaiPlayRadioBaseIE._BASE; lit "/audio/"; lazy_plus (Chr dot);
         lit "-"; Group "id" RaiBaseIE._UUID_RE; lit ".html" ].

Import RaiPlayRadioBaseIE.

Section WithHost.

Context {H : Host}.

Variable html_events : string -> list HTMLListAttrsParser.event.
Variable urljoin_value : string -> value -> value.

(** The loop of [_real_extract]: the first entry with the id of the
    address is returned; when the entries run out the method returns
    [None]. *)
Fixpoint find_entry (audio_id : string) (entries : list (result value))
  : result value :=
  match entries with
  | [] => Ok VNone
  | entry :: rest =>
      e <~ entry ;;
      id <~ Value.item "id" e ;;
      match id with
      | VStr s => if String.eqb s audio_id then Ok e
                  else find_entry audio_id rest
      | _ => find_entry audio_id rest
      end
  end.

Definition _real_extract (url : string) : M value :=
  audio_id <- lift (_match_id _VALID_URL url) ;;
  let list_url := Py.replace ".html" "-list.html" url in
  entries <- get_playlist_iter html_events urljoin_value list_url ;;
  lift (find_entry audio_id entries).

End WithHost.

End RaiPlayRadioIE.

Module RaiPlayRadioPlaylistIE.

Import Re.

(** [%s/playlist/.+?-(?P<id>%s)\.html] *)
Definition _VALID_URL : regex :=
  seqs [ RaiPlayRadioBaseIE._BASE; lit "/playlist/"; lazy_plus (Chr dot);
         lit "-"; Group "id" RaiBaseIE._UUID_RE; lit ".html" ].

End RaiPlayRadioPlaylistIE.

Module RaiIE.

Import Re.
Import RaiBaseIE.

(** [https?://[^/]+\.(?:rai\.(?:it|tv)|rainews\.it)/.+?-(?P<id>%s)(?:-.+?)?\.html] *)
Definition _VALID_URL : regex :=
  seqs [ lit "http"; opt (lit "s"); lit "://"; plus (Chr (none_of "/"));
         lit ".";
         Alt (Seq (lit "rai.") (Alt (lit "it") (lit "tv"))) (lit "rainews.it");
         lit "/"; lazy_plus (Chr dot); lit "-";
         Group "id" _UUID_RE;
         opt (Seq (lit "-") (lazy_plus (Chr dot)));
         lit ".html" ].

Definition quote : ascii -> bool :=
  either (Ascii.eqb "034"%char) (Ascii.eqb "'"%char).

(** [(?:(?!\1).)]: a character that does not start the text of group 1. *)
Definition not_closing : regex := Seq (NotAhead (Backref "1")) (Chr dot).

Definition space : ascii -> bool := Py.is_space.

(** [ContentItem-(%s)] *)
Definition content_item_re : regex :=
  seqs [ lit "ContentItem-"; Group "1" _UUID_RE ].

(** The second pattern for the content item id: a call of
    [initEdizione] or [drawMediaRaiTV], an attribute [data-id], a
    variable [uniquename] or the [src] of an [iframe], then a quoted text
    with [ContentItem-] and the id. *)
Definition embedded_item_re : regex :=
  seqs [ alts [ Seq (Alt (lit "initEdizione") (lit "drawMediaRaiTV")) (lit "(");
                seqs [ lit "<";
                       Alt (seqs [ plus (Chr (none_of ">")); Bound;
                                   lit "data-id" ])
                           (seqs [ lit "var"; plus (Chr space);
                                   lit "uniquename" ]);
                       lit "=" ];
                seqs [ lit "<iframe"; plus (Chr (none_of ">")); Bound;
                       lit "src=" ] ];
         Group "1" (Chr quote);
         Star true not_closing; Bound; lit "ContentItem-";
         Group "id" _UUID_RE ].

(** The pattern for the relinker address: [var videoURL] or
    [mediaInfo.mediaUri], set to a quoted address of the relinker
    servlet with a parameter [cont]. *)
Definition relinker_re : regex :=
  seqs [ Alt (seqs [ lit "var"; plus (Chr space); lit "videoURL" ])
             (lit "mediaInfo.mediaUri");
         Star true (Chr space); lit "="; Star true (Chr space);
         Group "1" (Chr quote);
         Group "url"
           (seqs [ opt (seqs [ lit "http"; opt (lit "s"); lit ":" ]);
                   lit "//mediapolis"; opt (lit "vod");
                   lit ".rai.it/relinker/relinkerServlet.htm?";
                   Star true not_closing; Bound; lit "cont=";
                   plus not_closing ]);
         Backref "1" ].

(** [var\s+videoTitolo\s*=\s*(['Q])(?P<title>[^'Q]+)\1], where Q stands
    for the double quote. *)
Definition title_re : regex :=
  seqs [ lit "var"; plus (Chr space); lit "videoTitolo";
         Star true (Chr space); lit "="; Star true (Chr space);
         Group "1" (Chr quote);
         Group "title" (plus (Chr (fun a => negb (quote a))));
         Backref "1" ].

Definition meta_names : list string :=
  [ "og:url"; "og:video"; "og:video:secure_url"; "twitter:url";
    "twitter:player"; "jsonlink" ].

(** [needle in v]. *)
Definition contains_text (needle : string) (v : value) : result bool :=
  match v with
  | VStr s => Ok (Py.contains needle s)
  | VList l =>
      Ok (existsb (fun x => match x with
                            | VStr s => String.eqb s needle
                            | _ => false
                            end) l)
  | VDict d => Ok (Dict.mem needle d)
  | _ => Raise TypeError
  end.

(** The members of [content_item_ids] in the order they were added. *)
Definition candidate_ids (content_item_id : value) (video_id : string)
  : list string :=
  let ids := match content_item_id with
             | VStr (String a s) => [String a s]
             | _ => []
             end in
  if existsb (String.eqb video_id) ids then ids else (ids ++ [video_id])%list.

Section WithHost.

Context {H : Host}.

(** [RaiBaseIE._extract_subtitles] builds the subtitle tracks of the
    media; the record carries what it returns. *)
Variable _extract_subtitles : string -> value -> result value.

Definition thumbnail_of (url : string) (media : value) (image_type : string)
  : result (list value) :=
  thumbnail_url <~ Value.get image_type media ;;
  if Value.truthy thumbnail_url then
    match thumbnail_url with
    | VStr u => Ok [ VDict [ ("url", VStr (urljoin url u)) ] ]
    | _ => Raise TypeError
    end
  else Ok [].

Definition _extract_from_content_id (content_id url : string) : M value :=
  media <- _download_json
             ("http://www.rai.tv/dl/RaiTV/programmi/media/ContentItem-"
              ++ content_id ++ ".html?json") ;;
  name <- lift (Value.item "name" media) ;;
  name <- lift (Value.as_str name AttributeError) ;;
  let title := Py.strip name in
  media_type <- lift (Value.item "type" media) ;;
  audio <- lift (contains_text "Audio" media_type) ;;
  relinker_info <-
    (if audio then
       formato <- lift (Value.get "formatoAudio" media) ;;
       audio_url <- lift (Value.item "audioUrl" media) ;;
       ret (mkInfo None None
              [ [ ("format_id", formato); ("url", audio_url);
                  ("ext", formato) ] ])
     else
       video <- lift (contains_text "Video" media_type) ;;
       if video then
         media_uri <- lift (Value.item "mediaUri" media) ;;
         media_uri <- lift (Value.as_str media_uri TypeError) ;;
         _extract_relinker_info media_uri content_id
       else raise (ExtractorError "not a media file" false)) ;;
  let relinker_info :=
    mkInfo (ri_is_live relinker_info) (ri_duration relinker_info)
           (_sort_formats (ri_formats relinker_info)) in
  t1 <- lift (thumbnail_of url media "image") ;;
  t2 <- lift (thumbnail_of url media "image_medium") ;;
  t3 <- lift (thumbnail_of url media "image_300") ;;
  let thumbnails := (t1 ++ t2 ++ t3)%list in
  subtitles <- lift (_extract_subtitles url media) ;;
  desc <- lift (Value.get "desc" media) ;;
  author <- lift (Value.get "author" media) ;;
  date <- lift (Value.get "date" media) ;;
  length <- lift (Value.get "length" media) ;;
  let info :=
    [ ("id", VStr content_id);
      ("title", VStr title);
      ("description", strip_or_none desc);
      ("thumbnails", VList thumbnails);
      ("uploader", author);
      ("upload_date", unified_strdate date);
      ("duration", parse_duration length);
      ("subtitles", subtitles) ] in
  ret (VDict (update_with info relinker_info)).

(** The loop over [content_item_ids]: the first member whose
    extraction returns ends the loop; a geo-restriction error is
    raised again, another extractor error goes on to the next member. *)
Fixpoint try_content_ids (ids : list string) (url : string)
  : M (option value) :=
  match ids with
  | [] => ret None
  | content_item_id :: rest =>
      try_except_else (_extract_from_content_id content_item_id url)
        (fun e => is_ExtractorError e && negb (is_GeoRestrictedError e))
        (fun _ => try_content_ids rest url)
        (fun info => ret (Some info))
  end.

(** What follows the loop when no member gave a result. *)
Definition extract_from_page (url video_id webpage : string) : M value :=
  found <- lift (_search_regex relinker_re webpage "relinker URL" "url"
                   None true) ;;
  found <- lift (Value.as_str found TypeError) ;;
  let relinker_url := proto_relative_url found in
  target <- lift (Value.as_str (utils_urljoin url relinker_url)
                    TypeError) ;;
  relinker_info <- _extract_relinker_info target video_id ;;
  let relinker_info :=
    mkInfo (ri_is_live relinker_info) (ri_duration relinker_info)
           (_sort_formats (ri_formats relinker_info)) in
  title <- lift (_search_regex title_re webpage "title" "title"
                   (Some VNone) true) ;;
  title <- lift (if Value.truthy title then Ok title
                 else t <~ og_search_title webpage ;; Ok (VStr t)) ;;
  let info := [ ("id", VStr video_id); ("title", title) ] in
  ret (VDict (update_with info relinker_info)).

(** The content item id the page gives: from the address in a meta tag,
    and when that gives none, from the markup of the page. *)
Definition find_content_item_id (webpage : string) : result value :=
  let content_item_url := html_search_meta meta_names webpage in
  content_item_id <~
    match content_item_url with
    | Some (String a u) =>
        _search_regex content_item_re (String a u)
          "content item id" "1" (Some VNone) true
    | _ => Ok VNone
    end ;;
  if Value.truthy content_item_id then Ok content_item_id
  else _search_regex embedded_item_re webpage
         "content item id" "id" (Some VNone) true.

Definition _real_extract (url : string) : M value :=
  video_id <- lift (_match_id _VALID_URL url) ;;
  webpage <- _download_webpage url ;;
  content_item_id <- lift (find_content_item_id webpage) ;;
  let content_item_ids :=
    set_order (candidate_ids content_item_id video_id) in
  found <- try_content_ids content_item_ids url ;;
  match found with
  | Some info => ret info
  | None => extract_from_page url video_id webpage
  end.

End WithHost.

End RaiIE.

Module RaiPatterns.
Import Re.
Import RaiBaseIE.

(** A text of [_UUID_RE]: five runs of 8, 4, 4, 4 and 12 digits or
    letters from [a] to [f], with a dash between them. *)
Definition hex_run (n : nat) (s : string) : Prop :=
  String.length s = n /\ Py.all_chars hex s = true.

Definition uuid_text (s : string) : Prop :=
  exists a b c d e,
    s = a ++ "-" ++ b ++ "-" ++ c ++ "-" ++ d ++ "-" ++ e
    /\ hex_run 8 a /\ hex_run 4 b /\ hex_run 4 c /\ hex_run 4 d
    /\ hex_run 12 e.

(** ** Notions for the statements about the addresses of RaiPlay *)

(** The four ways an address of the site starts. *)
Definition raiplay_sites : list string :=
  [ "http://www.raiplay.it/"; "http://raiplay.it/";
    "https://www.raiplay.it/"; "https://raiplay.it/" ].

(** A text that starts with a dash, a UUID, a dot and [html] or [json]:
    what the pattern of [RaiPlayIE] asks for behind its [.+?]. *)
Definition starts_media (t : string) : Prop :=
  exists uuid ext rest,
    t = "-" ++ uuid ++ "." ++ ext ++ rest
    /\ uuid_text uuid /\ (ext = "html" \/ ext = "json").

(** [tail] follows [path] and no place inside [path], its first
    character apart, starts a dash, a UUID and an extension. *)
Definition earliest_media (path tail : string) : Prop :=
  forall front back,
    path = front ++ back -> front <> "" -> back <> "" ->
    ~ starts_media (back ++ tail).

(** The patterns of [rai.py] whose group [id] is a UUID. *)
Definition uuid_patterns : list regex :=
  [ RaiPlayIE._VALID_URL; RaiIE._VALID_URL; RaiPlayRadioIE._VALID_URL;
    RaiPlayRadioPlaylistIE._VALID_URL ].

End RaiPatterns.

Module RaiNotions.

Import RaiBaseIE.

(** ** Notions for the statements about the relinker and the pages of RAI *)

(** An answer of the relinker without media and without a sign of
    geo-protection. *)
Definition empty_answer {H : Host} (relinker : xml) : Prop :=
  find_xpath_attr relinker "./url" "type" "content" = None
  /\ xpath_text relinker "./geoprotection" <> Some "Y".

(** The address of the JSON of a content item. *)
Definition media_url (content_id : string) : string :=
  "http://www.rai.tv/dl/RaiTV/programmi/media/ContentItem-" ++ content_id
  ++ ".html?json".

End RaiNotions.

(* ================================================================== *)
(** * The list of requests *)

Module Requests.

(** ** Notions for the statements about the requests *)

(** A computation that only adds to the list of requests. *)
Definition appends {A : Type} (m : M A) : Prop :=
  forall log, exists more, snd (m log) = (log ++ more)%list.

(** A host whose manifest readers only add to the list of requests. *)
Definition adds_requests (H : Host) : Prop :=
  (forall url id, appends (extract_m3u8_formats url id))
  /\ (forall url id, appends (extract_f4m_formats url id))
  /\ (forall id subtitles, appends (list_available_subtitles id subtitles)).

End Requests.


(* ================================================================== *)
(** * A host for examples

    [Example.host serve documents trees meta reversed] is a host whose
    network answers with [serve], whose parsers read the texts listed in
    [documents] and [trees], whose meta tags are given by [meta], and
    whose sets are met in the order of insertion, or in the reverse order
    when [reversed] is set.  The helpers of [utils.py] are small
    stand-ins. *)

Module Example.

Fixpoint assoc {A : Type} (k : string) (l : list (string * A)) : option A :=
  match l with
  | [] => None
  | (k', v) :: l' => if String.eqb k' k then Some v else assoc k l'
  end.

Definition order (reversed : bool) (l : list string) : list string :=
  if reversed then rev l else l.

Definition order_perm (reversed : bool) (l : list string)
  : Permutation (order reversed l) l :=
  match reversed as b return Permutation (order b l) l with
  | true => Permutation_sym (Permutation_rev l)
  | false => Permutation_refl l
  end.

Definition number (v : value) : value :=
  match v with
  | VInt n => VInt n
  | VStr s =>
      match PyNum.int_of_str s with
      | Some n => VInt n
      | None => VNone
      end
  | _ => VNone
  end.

Definition float_number (v : value) : value :=
  match v with
  | VInt n => VFloat (PyNum.nearest n)
  | VFloat f => VFloat f
  | VStr s =>
      match PyNum.float_of_str s with
      | Some f => VFloat f
      | None => VNone
      end
  | _ => VNone
  end.

Definition stripped (v : value) : value :=
  match v with
  | VStr s => VStr (Py.strip s)
  | _ => VNone
  end.

Definition digits_only (v : value) : value :=
  match v with
  | VStr s => VStr (Py.filter Py.is_digit s)
  | _ => VNone
  end.

Definition extension (url : string) : string :=
  Py.last_part (Py.split "." url).

Definition joined (base path : string) : string :=
  if prefix "http" path then path else base ++ path.

(** The tag a path such as [./url] or [bitrate] names. *)
Definition path_tag (path : string) : string :=
  if prefix "./" path then Re.drop 2 path else path.

Definition child_text (e : xml) (path : string) : option string :=
  match ET.children_named (path_tag path) e with
  | c :: _ => ET.text c
  | [] => None
  end.

Definition child_with (e : xml) (path key val : string) : option xml :=
  List.find (fun c => match ET.assoc key (ET.attrib c) with
                      | Some v => String.eqb v val
                      | None => false
                      end)
            (ET.children_named (path_tag path) e).

Definition host (serve : request -> option string)
    (documents : list (string * value)) (trees : list (string * xml))
    (meta : list string -> string -> option string) (reversed : bool) : Host :=
  {| urlopen := serve;
     json_loads := fun text => assoc text documents;
     xml_fromstring := fun text => assoc text trees;
     set_order := order reversed;
     set_order_perm := order_perm reversed;
     int_or_none := number;
     float_or_none := float_number;
     unified_strdate := digits_only;
     parse_duration := number;
     strip_or_none := stripped;
     determine_ext := extension;
     update_url_query := fun url _ => url;
     urljoin := joined;
     utils_urljoin := fun base path => VStr (joined base path);
     clean_html := fun s => s;
     fix_xml_ampersands := fun s => s;
     xpath_text := child_text;
     find_xpath_attr := child_with;
     html_search_meta := meta;
     og_search_title :=
       fun _ => Raise (RegexNotFoundError "Unable to extract OpenGraph title");
     proto_relative_url := fun s => s;
     geo_verification_headers := [];
     extract_m3u8_formats := fun _ _ => ret [];
     extract_f4m_formats := fun _ _ => ret [];
     container_preference := fun _ => 0%Z;
     param_listsubtitles := false;
     list_available_subtitles := fun _ _ => ret tt |}.

(** A network that serves the listed addresses. *)
Definition serve_pages (pages : list (string * string)) (r : request)
  : option string :=
  assoc (req_url r) pages.

Definition no_meta (names : list string) (html : string) : option string :=
  None.

(** ** A clip of the aggregator *)

Definition clip_url : string := "https://livestreamfails.com/clip/139200".

(** The answer of the API for the clip, with the given [createdAt]. *)
Definition clip_api (created : value) : Dict.t :=
  [ ("sourceId", VStr "ConcernedLitigiousSalmonPeteZaroll-O8yo9W2L8OZEKhV2");
    ("label", VStr "Streamer jumps off a trampoline at full speed");
    ("createdAt", created);
    ("videoId", VStr "6b4c8ac7a1e5.mp4");
    ("imageId", VStr "3877b1d38db083fa25c82685bbaf645637e575ea.png");
    ("streamer", VDict [ ("label", VStr "paradeev1ch") ]) ].

(** An answer with a [videoId] and a [createdAt], without [imageId]. *)
Definition clip_api_without_image : Dict.t :=
  [ ("createdAt", VStr "2022-06-26T19:29:45.515Z");
    ("videoId", VStr "6b4c8ac7a1e5.mp4") ].

(** An answer that has the two identifiers and nothing else. *)
Definition bare_clip_api : Dict.t :=
  [ ("videoId", VStr "6b4c8ac7a1e5.mp4");
    ("imageId", VStr "3877b1d38db083fa25c82685bbaf645637e575ea.png") ].

Definition clip_host (api : Dict.t) : Host :=
  host (serve_pages [ ("https://api.livestreamfails.com/clip/139200",
                       "<answer of the API>") ])
       [ ("<answer of the API>", VDict api) ] [] no_meta false.

(** ** A programme page of NRK without optional data *)

Definition programme_url : string := "http://tv.nrk.no/program/mdfp15000514".

Definition programme_page : string :=
  "<html><div data-media=" ++ dq ++ "http://nrk.no/mdfp15000514/manifest.f4m"
  ++ dq ++ "></div></html>".

Definition programme_host : Host :=
  host (serve_pages [ (programme_url, programme_page) ]) [] [] no_meta false.

(** ** A geo-blocked clip of NRK *)

Definition nrk_url : string :=
  "http://www.nrk.no/video/dompap_og_andre_fugler_i_piip_show/D0FA54B5C8B6CE59/emne/piipshow/".

Definition nrk_page : string :=
  "<html><div class=" ++ dq ++ "nrk-video" ++ dq ++ " data-nrk-id=" ++ dq
  ++ "150533" ++ dq ++ "></div></html>".

Definition nrk_media (blocked : bool) : value :=
  VDict [ ("title", VStr "Dompap og andre fugler i Piip-Show");
          ("description", VStr "Fugler i Piip-Show");
          ("mediaUrl", VStr "http://nordond9a-f.akamaihd.net/z/150533/manifest.f4m");
          ("usageRights", VDict [ ("isGeoBlocked", VBool blocked) ]) ].

Definition nrk_media_host (media : value) : Host :=
  host (serve_pages [ (nrk_url, nrk_page);
                      ("http://v7.psapi.nrk.no/mediaelement/150533",
                       "<media element>") ])
       [ ("<media element>", media) ] [] no_meta false.

Definition nrk_host (blocked : bool) : Host :=
  nrk_media_host (nrk_media blocked).

(** A media element without a description. *)
Definition nrk_media_without_description : value :=
  VDict [ ("title", VStr "Dompap og andre fugler i Piip-Show");
          ("mediaUrl", VStr "http://nordond9a-f.akamaihd.net/z/150533/manifest.f4m");
          ("usageRights", VDict [ ("isGeoBlocked", VBool false) ]) ].

(** ** A relinker of RAI that signals geo-protection and has no media *)

Definition relinker_url : string :=
  "http://mediapolis.rai.it/relinker/relinkerServlet.htm?cont=308709".

Definition protected_answer : xml :=
  Element "Mediapolis" [] None
    [ Element "geoprotection" [] (Some "Y") [];
      Element "is_live" [] (Some "N") [] ].

Definition relinker_host : Host :=
  host (serve_pages [ (relinker_url, "<answer of the relinker>") ]) []
       [ ("<answer of the relinker>", protected_answer) ] no_meta false.

Definition relinker_request (platform : string) : request :=
  mkRequest relinker_url [("output", "45"); ("pl", platform)] [].

(** ** A page of RAI with two content ids

    The address carries one id, the meta tag [og:url] another; the media
    of both are audio items. *)

Definition rai_url : string :=
  "http://www.rai.it/dl/RaiTV/programmi/media/ContentItem-efb17665-691c-45d5-a60c-5301333cbb0c.html".

Definition url_id : string := "efb17665-691c-45d5-a60c-5301333cbb0c".

Definition page_id : string := "1ad6dc64-444a-42a4-9bea-e5419ad2f5fd".

Definition rai_meta (names : list string) (html : string) : option string :=
  Some ("http://www.rai.it/dl/RaiTV/programmi/media/ContentItem-" ++ page_id
        ++ ".html").

Definition media_address (content_id : string) : string :=
  "http://www.rai.tv/dl/RaiTV/programmi/media/ContentItem-" ++ content_id
  ++ ".html?json".

Definition audio_item (name : string) : value :=
  VDict [ ("name", VStr name);
          ("type", VStr "RaiTv Media Audio Item");
          ("audioUrl", VStr ("http://www.rai.it/audio/" ++ name ++ ".mp3"));
          ("formatoAudio", VStr "mp3") ].

Definition rai_host (reversed : bool) : Host :=
  host (serve_pages [ (rai_url, "<html></html>");
                      (media_address page_id, "<media of the page id>");
                      (media_address url_id, "<media of the address id>") ])
       [ ("<media of the page id>", audio_item "from-the-page");
         ("<media of the address id>", audio_item "from-the-address") ]
       [] rai_meta reversed.

Definition no_subtitles (url : string) (media : value) : result value :=
  Ok (VDict []).

(** ** A page of trailers

    The playlist has two items: a trailer whose settings are not served,
    and an item whose info has no [url]. *)

Definition trailers_url : string :=
  "http://trailers.apple.com/trailers/wb/manofsteel/".

Definition trailer_address : string :=
  "http://trailers.apple.com/movies/wb/manofsteel/manofsteel-tlr4_480p.mov".

Definition trailer_info : Dict.t :=
  [ ("title", VStr "Trailer 4");
    ("url", VStr trailer_address);
    ("posted", VStr "2013-05-23");
    ("runtime", VStr "1:51");
    ("width", VInt 480);
    ("height", VInt 204) ].

Definition teaser_info : Dict.t :=
  [ ("title", VStr "Teaser"); ("posted", VStr "2012-07-21") ].

Definition item (info poster : string) : xml :=
  Element "li" [] None
    [ Element "a" [ ("onClick", "iTunes.playURL(" ++ info ++ ");") ] None
        [ Element "img" [ ("src", poster) ] None [] ] ].

Definition trailer_item : xml :=
  item "<info of trailer 4>" "http://trailers.apple.com/wb/poster4.jpg".

Definition teaser_item : xml :=
  item "<info of the teaser>" "http://trailers.apple.com/wb/poster.jpg".

Definition playlist_doc : xml :=
  Element "html" [] None
    [ Element "div" [] None
        [ Element "ul" [] None [ trailer_item; teaser_item ] ] ].

Definition trailers_host : Host :=
  host (serve_pages
          [ (trailers_url ++ "includes/playlists/itunes.inc",
             "<playlist>") ])
       [ ("<info of trailer 4>", VDict trailer_info);
         ("<info of the teaser>", VDict teaser_info) ]
       [ ("<html><playlist></html>", playlist_doc) ]
       no_meta false.

(** ** A page of the Greek portal *)








(** ** A section of the trailer site *)

Definition section_url : string := "http://trailers.apple.com/#section=justhd".

Definition section_feed : string :=
  "http://trailers.apple.com/trailers/home/feeds/just_hd.json".

Definition section_data : list value :=
  [ VDict [ ("title", VStr "Man of Steel");
            ("location", VStr "/trailers/wb/manofsteel/") ];
    VDict [ ("title", VStr "Blackthorn");
            ("location", VStr "/trailers/magnolia/blackthorn/") ] ].

Definition section_host : Host :=
  host (serve_pages [ (section_feed, "<feed>") ])
       [ ("<feed>", VList section_data) ] [] no_meta false.

(** A feed whose second member has no [location]. *)
Definition broken_section_data : list value :=
  [ VDict [ ("location", VStr "/trailers/wb/manofsteel/") ];
    VDict [ ("title", VStr "Blackthorn") ] ].

Definition broken_section_host : Host :=
  host (serve_pages [ (section_feed, "<feed>") ])
       [ ("<feed>", VList broken_section_data) ] [] no_meta false.

(** Stand-ins for [url_result] and [playlist_result]. *)
Definition url_entry (url : string) : value :=
  VDict [ ("_type", VStr "url"); ("url", VStr url) ].

Definition playlist (entries : list value) (id title : string) : value :=
  VDict [ ("_type", VStr "playlist"); ("id", VStr id); ("title", VStr title);
          ("entries", VList entries) ].

(** ** A list page of the radio site *)

Definition radio_id : string := "36b099ff-4123-4443-9bf9-38e43ef5e025".


Definition radio_list_url : string :=
  "https://www.raiplayradio.it/audio/2019/07/LEZIONI-DI-MUSICA-36b099ff-4123-4443-9bf9-38e43ef5e025-list.html".

(** The same with an identifier that starts with the letter [e]. *)
Definition radio_e_id : string := "e6b099ff-4123-4443-9bf9-38e43ef5e025".

Definition radio_e_url : string :=
  "https://www.raiplayradio.it/audio/2019/07/LEZIONI-DI-MUSICA-e6b099ff-4123-4443-9bf9-38e43ef5e025.html".

Definition radio_e_list_url : string :=
  "https://www.raiplayradio.it/audio/2019/07/LEZIONI-DI-MUSICA-e6b099ff-4123-4443-9bf9-38e43ef5e025-list.html".

Definition radio_item (id title : string) : list (string * value) :=
  [ ("data-title", VStr title);
    ("data-mediapolis", VStr ("/relinker/" ++ id ++ ".mp3"));
    ("data-uniquename", VStr ("ContentItem-" ++ id)) ].

Definition radio_events (page : string)
  : list HTMLListAttrsParser.event :=
  [ HTMLListAttrsParser.Starttag "li"
      (radio_item "72371d3c-d998-49f3-8860-d168cfdf4966" " Prima parte ");
    HTMLListAttrsParser.Endtag "li";
    HTMLListAttrsParser.Starttag "li" (radio_item radio_id " Seconda parte ");
    HTMLListAttrsParser.Endtag "li";
    HTMLListAttrsParser.Starttag "li" (radio_item radio_e_id " Terza parte ");
    HTMLListAttrsParser.Endtag "li" ].

Definition radio_host : Host :=
  host (serve_pages [ (radio_list_url, "<list>"); (radio_e_list_url, "<list>") ])
       [] [] no_meta false.

Definition joined_value (base : string) (path : value) : value :=
  match path with
  | VStr p => VStr (joined "https://www.raiplayradio.it" p)
  | _ => VNone
  end.

(** ** Subtitles *)

(** The extension an address shows, or the given one. *)
Definition extension_or (url : value) (default : string) : string :=
  match url with
  | VStr u => if Py.contains "." u then extension u else default
  | _ => default
  end.

Definition subtitled_media : Dict.t :=
  [ ("name", VStr "Presa diretta");
    ("subtitles", VStr "/dl/subtitles/presadiretta.stl") ].

(** ** Images of NRK *)

Definition web_image (width : Z) (name : string) : value :=
  VDict [ ("pixelWidth", VInt width);
          ("imageUrl", VStr ("http://m.nrk.no/img/" ++ name)) ].

Definition web_images : list value :=
  [ web_image 300 "a.jpg"; web_image 1200 "b.jpg"; web_image 600 "c.jpg";
    web_image 1200 "d.jpg"; web_image 100 "e.jpg" ].

(** ** A programme of RaiPlay *)

Definition raiplay_url : string :=
  "http://www.raiplay.it/video/2014/04/Report-del-07042014-cb27157f-9dd0-4aee-b788-b1f67643a391.html?autoplay".

Definition raiplay_media : value :=
  VDict [ ("name", VStr "Report del 07/04/2014");
          ("video",
            VDict [ ("content_url", VStr "mms://media.raiplay.it/report.wmv") ]) ].

Definition raiplay_host : Host :=
  host (serve_pages
          [ ("http://www.raiplay.it/video/2014/04/Report-del-07042014-cb27157f-9dd0-4aee-b788-b1f67643a391.json",
             "<media>") ])
       [ ("<media>", raiplay_media) ] [] no_meta false.

Definition no_tracks (url : string) (video : value) : result value :=
  Ok (VDict []).

Definition same (v : value) : result value := Ok v.

Definition without_start (v : value) (start : string) : result value :=
  match v with
  | VStr s => Ok (if prefix start s
                  then VStr (Re.drop (String.length start) s) else v)
  | VNone => Ok VNone
  | _ => Raise AttributeError
  end.

Definition programme_address : string :=
  "http://www.raiplay.it/programmi/nondirloalmiocapo/".

Definition programme_base : string :=
  "http://www.raiplay.it/programmi/nondirloalmiocapo".

Definition programme : value :=
  VDict [ ("name", VStr "Non dirlo al mio capo");
          ("blocks",
            VList [ VDict [ ("sets",
                       VList [ VDict [ ("id", VStr "ContentSet-1") ];
                               VDict [ ("name", VStr "Extra") ];
                               VDict [ ("id", VStr "ContentSet-2") ] ]) ];
                    VDict [ ("name", VStr "Clip") ] ]) ].

Definition content_set : value :=
  VDict [ ("items",
            VList [ VDict [ ("path_id",
                       VStr "/video/2016/11/Puntata-1-efebe701-969c-4593-92f3-285f0d1ce750.html") ];
                    VDict [ ("name", VStr "senza indirizzo") ] ]) ].

Definition raiplay_programme_host : Host :=
  host (serve_pages
          [ (programme_base ++ ".json", "<programme>");
            (programme_base ++ "/ContentSet-1.json", "<set>") ])
       [ ("<programme>", programme); ("<set>", content_set) ]
       [] no_meta false.

Definition python_str (v : value) : string := "<value>".

Definition joined_raiplay (base : string) (path : value) : value :=
  match path with
  | VStr p => VStr (joined "http://www.raiplay.it" p)
  | _ => VNone
  end.

Definition video_entry (url : value) (ie id : string) : value :=
  VDict [ ("_type", VStr "url"); ("url", url); ("ie_key", VStr ie);
          ("id", VStr id) ].

Definition playlist_record (entries : list value) (id title description : value)
  : value :=
  VDict [ ("_type", VStr "playlist"); ("id", id); ("title", title);
          ("description", description); ("entries", VList entries) ].

Definition getter (v : value) (f : value -> result value) : value :=
  match f v with
  | Ok x => x
  | Raise _ => VNone
  end.

(** ** A relinker of RAI that has no media *)

Definition plain_answer : xml :=
  Element "Mediapolis" [] None
    [ Element "geoprotection" [] (Some "N") [];
      Element "is_live" [] (Some "N") [] ].

Definition plain_relinker_host : Host :=
  host (serve_pages [ (relinker_url, "<answer of the relinker>") ]) []
       [ ("<answer of the relinker>", plain_answer) ] no_meta false.

(** ** A page of RAI whose media are not served *)


(** ** A clip whose streamer is [null] *)

Definition clip_api_without_streamer : Dict.t :=
  [ ("videoId", VStr "6b4c8ac7a1e5.mp4");
    ("imageId", VStr "3877b1d38db083fa25c82685bbaf645637e575ea.png");
    ("streamer", VNone) ].

End Example.

(* ================================================================== *)
(** * The URL patterns of the repository *)

(** Every [_VALID_URL] of the five modules, with the group its extractor
    reads the identifier from ([movie] and [company] for the trailer
    pages, [id] elsewhere). *)
Definition url_patterns : list (string * Re.regex * string) :=
  [ ("appletrailers", AppleTrailersIE._VALID_URL, "movie");
    ("appletrailers", AppleTrailersIE._VALID_URL, "company");
    ("appletrailers:section", AppleTrailersSectionIE._VALID_URL, "id");
    ("Ertflix", ErtflixIE._VALID_URL, "id");
    ("Livestreamfails", LivestreamfailsIE._VALID_URL, "id");
    ("NRK", NRKIE._VALID_URL, "id");
    ("NRKTV", NRKTVIE._VALID_URL, "id");
    ("RaiPlay", RaiPlayIE._VALID_URL, "id");
    ("RaiPlayLive", RaiPlayLiveIE._VALID_URL, "id");
    ("RaiPlayPlaylist", RaiPlayPlaylistIE._VALID_URL, "id");
    ("Rai", RaiIE._VALID_URL, "id");
    ("RaiPlayRadio", RaiPlayRadioIE._VALID_URL, "id");
    ("RaiPlayRadioPlaylist", RaiPlayRadioPlaylistIE._VALID_URL, "id") ].

(** Modelled from the spec: the URL matcher of section 4.1, which is
    [InfoExtractor.suitable] of [common.py]: membership by the pattern. *)
Definition suitable (valid_url : Re.regex) (url : string) : bool :=
  match Re.re_match valid_url url with
  | Some _ => true
  | None => false
  end.

(** Modelled from the spec: the named component the matcher extracts
    (section 4.1), which is [re.match(_VALID_URL, url).group(name)] in the
    extractors; [None] when the address does not match or the group did
    not take part in the match. *)
Definition matched (valid_url : Re.regex) (name url : string) : option string :=
  match Re.re_match valid_url url with
  | Some m => Re.group name m
  | None => None
  end.

(* ================================================================== *)
(** * Properties of the matcher *)

Unset Implicit Arguments.

(** [step H] rewrites with the equation [H] and reduces the [match] that
    the equation decides: one statement of the extractor is run. *)
Ltac step H := rewrite H; cbv beta iota.

Module ReFacts.

Import Re.

Lemma length_drop_le (n : nat) (s : string) :
  String.length (drop n s) <= String.length s.
Proof.
  revert s; induction n as [|n IH]; intros [|a s]; simpl; auto.
Qed.

Lemma consumed_nonempty (s s' : string) :
  String.length s' < String.length s -> consumed s s' <> EmptyString.
Proof.
  unfold consumed; intros Hlt.
  destruct s as [|a s]; simpl in *; [lia|].
  destruct (String.length s') as [|k] eqn:E.
  - simpl; discriminate.
  - destruct (String.length s - k) eqn:E'; [lia|]. simpl; discriminate.
Qed.

Section Loop.

Variable step : string -> captures -> list (string * captures).
Variable greedy : bool.

Lemma in_star_loop (fuel : nat) (s : string) (c : captures)
    (x : string * captures) :
  In x (star_loop step greedy fuel s c) ->
  x = (s, c) \/
  exists n y, fuel = S n /\ In y (step s c)
              /\ String.length (fst y) < String.length s
              /\ In x (star_loop step greedy n (fst y) (snd y)).
Proof.
  destruct fuel as [|n]; simpl.
  - intros [<-|[]]; auto.
  - intros Hin.
    assert (Hcases :
      x = (s, c) \/
      In x (flat_map (fun sc : string * captures =>
                        if (String.length (fst sc) <? String.length s)%nat
                        then star_loop step greedy n (fst sc) (snd sc)
                        else []) (step s c))).
    { destruct greedy.
      - apply in_app_iff in Hin as [Hin|[<-|[]]]; auto.
      - destruct Hin as [<-|Hin]; auto. }
    destruct Hcases as [->|Hin']; [auto|right].
    apply in_flat_map in Hin' as [y [Hy Hx]].
    destruct (String.length (fst y) <? String.length s)%nat eqn:E; [|destruct Hx].
    apply Nat.ltb_lt in E. exists n, y; auto.
Qed.

(** A property of the subject and the groups that every step keeps is
    kept by the loop. *)
Lemma star_loop_invariant (P : string -> captures -> string -> captures -> Prop) :
  (forall s c, P s c s c) ->
  (forall s c s1 c1 s2 c2,
      In (s1, c1) (step s c) -> String.length s1 < String.length s ->
      P s1 c1 s2 c2 -> P s c s2 c2) ->
  forall fuel s c s' c',
    In (s', c') (star_loop step greedy fuel s c) -> P s c s' c'.
Proof.
  intros Hrefl Hstep fuel; induction fuel as [|n IH]; intros s c s' c' Hin;
    apply in_star_loop in Hin as [E|(m & [s1 c1] & Hf & Hy & Hlt & Hin)].
  - inversion E; subst; apply Hrefl.
  - discriminate.
  - inversion E; subst; apply Hrefl.
  - inversion Hf; subst m. simpl in *.
    eapply Hstep; eauto.
Qed.

End Loop.

(** A match leaves a suffix that is not longer than the subject, and a
    shorter one when the pattern cannot match the empty text. *)
Lemma run_length (subject : string) (r : regex) :
  forall s c s' c',
    In (s', c') (run subject r s c) ->
    String.length s' <= String.length s
    /\ (nullable r = false -> String.length s' < String.length s).
Proof.
  induction r as [|p|a IHa b IHb|a IHa b IHb|g r IH|n r IH| |n|r IH];
    intros s c s' c' Hin; simpl in *.
  - destruct Hin as [E|[]]; inversion E; subst; split; [lia|discriminate].
  - destruct s as [|x s]; [destruct Hin|].
    destruct (p x); [|destruct Hin].
    destruct Hin as [E|[]]; inversion E; subst; simpl; split; intros; lia.
  - apply in_flat_map in Hin as [[s1 c1] [H1 H2]]; simpl in H2.
    destruct (IHa _ _ _ _ H1) as [La Sa], (IHb _ _ _ _ H2) as [Lb Sb].
    split; [lia|]. intros Hn. apply andb_false_iff in Hn as [Hn|Hn];
      [specialize (Sa Hn)|specialize (Sb Hn)]; lia.
  - apply in_app_iff in Hin. intros.
    destruct Hin as [Hin|Hin];
      [destruct (IHa _ _ _ _ Hin) as [L S]|destruct (IHb _ _ _ _ Hin) as [L S]];
      (split; [lia|]); intros Hn; apply orb_false_iff in Hn as [Hn1 Hn2]; auto.
  - split; [|discriminate].
    revert Hin.
    apply (star_loop_invariant (run subject r) g
             (fun s _ s' _ => String.length s' <= String.length s)); intros; lia.
  - apply in_map_iff in Hin as [[s1 c1] [E Hin]]; inversion E; subst.
    apply (IH _ _ _ _ Hin).
  - destruct (at_boundary subject s); [|destruct Hin].
    destruct Hin as [E|[]]; inversion E; subst; split; [lia|discriminate].
  - split; [|discriminate].
    destruct (lookup n c) as [v|]; [|destruct Hin].
    destruct (prefix v s); [|destruct Hin].
    destruct Hin as [E|[]]; inversion E; subst. apply length_drop_le.
  - split; [|discriminate].
    destruct (run subject r s c); [|destruct Hin].
    destruct Hin as [E|[]]; inversion E; subst; lia.
Qed.

(** A pattern that has no group [name] leaves that group as it was. *)
Lemma run_keeps (name subject : string) (r : regex) :
  mentions name r = false ->
  forall s c s' c',
    In (s', c') (run subject r s c) -> lookup name c' = lookup name c.
Proof.
  induction r as [|p|a IHa b IHb|a IHa b IHb|g r IH|n r IH| |n|r IH];
    intros Hm s c s' c' Hin; simpl in *.
  - destruct Hin as [E|[]]; inversion E; subst; reflexivity.
  - destruct s as [|x s]; [destruct Hin|].
    destruct (p x); [|destruct Hin].
    destruct Hin as [E|[]]; inversion E; subst; reflexivity.
  - apply orb_false_iff in Hm as [Ha Hb].
    apply in_flat_map in Hin as [[s1 c1] [H1 H2]]; simpl in H2.
    rewrite (IHb Hb _ _ _ _ H2). apply (IHa Ha _ _ _ _ H1).
  - apply orb_false_iff in Hm as [Ha Hb].
    apply in_app_iff in Hin as [Hin|Hin]; eauto.
  - revert Hin.
    apply (star_loop_invariant (run subject r) g
             (fun _ c _ c' => lookup name c' = lookup name c)).
    + reflexivity.
    + intros s0 c0 s1 c1 s2 c2 H1 _ H2. rewrite H2. eapply IH; eauto.
  - apply orb_false_iff in Hm as [Hn Hr].
    apply in_map_iff in Hin as [[s1 c1] [E Hin]]; inversion E; subst.
    simpl. rewrite Hn. eapply IH; eauto.
  - destruct (at_boundary subject s); [|destruct Hin].
    destruct Hin as [E|[]]; inversion E; subst; reflexivity.
  - destruct (lookup n c) as [v|]; [|destruct Hin].
    destruct (prefix v s); [|destruct Hin].
    destruct Hin as [E|[]]; inversion E; subst; reflexivity.
  - destruct (run subject r s c); [|destruct Hin].
    destruct Hin as [E|[]]; inversion E; subst; reflexivity.
Qed.

(** The analysis [sets_nonempty] is sound. *)
Lemma run_sets_nonempty (name subject : string) (r : regex) :
  sets_nonempty name r = true ->
  forall s c s' c',
    In (s', c') (run subject r s c) ->
    exists v, lookup name c' = Some v /\ v <> EmptyString.
Proof.
  induction r as [|p|a IHa b IHb|a IHa b IHb|g r IH|n r IH| |n|r IH];
    intros Hs s c s' c' Hin; simpl in *; try discriminate.
  - apply in_flat_map in Hin as [[s1 c1] [H1 H2]]; simpl in H2.
    apply orb_true_iff in Hs as [Hb|Hab].
    + eapply IHb; eauto.
    + apply andb_true_iff in Hab as [Ha Hnb].
      apply negb_true_iff in Hnb.
      rewrite (run_keeps name subject b Hnb _ _ _ _ H2).
      eapply IHa; eauto.
  - apply andb_true_iff in Hs as [Ha Hb].
    apply in_app_iff in Hin as [Hin|Hin]; eauto.
  - apply in_map_iff in Hin as [[s1 c1] [E Hin]]; inversion E; subst.
    simpl. destruct (String.eqb n name) eqn:En.
    + apply negb_true_iff in Hs.
      exists (consumed s s'); split; [reflexivity|].
      apply consumed_nonempty.
      apply (run_length subject r _ _ _ _ Hin); assumption.
    + eapply IH; eauto.
Qed.

Lemma match_sets_nonempty (name : string) (r : regex) (url : string)
    (m : match_object) :
  sets_nonempty name r = true ->
  re_match r url = Some m ->
  exists v, group name m = Some v /\ v <> EmptyString.
Proof.
  unfold re_match, match_at, group; intros Hs Hm.
  destruct (run url r url []) as [|[s' c'] l] eqn:E; [discriminate|].
  inversion Hm; subst; simpl.
  apply (run_sets_nonempty name url r Hs url [] s' c').
  rewrite E; left; reflexivity.
Qed.

End ReFacts.

(* ================================================================== *)
(** * The URL matcher *)

Module UrlMatcher.

Import Re.

Lemma url_patterns_set_their_group :
  forallb (fun e => sets_nonempty (snd e) (snd (fst e))) url_patterns = true.
Proof. vm_compute. reflexivity. Qed.

(** C6.  For every URL pattern of the repository and every URL string,
    the matcher either reports no match ([re_match] returns [None], and
    [suitable] is [false]: a value, no exception), or it reports a match
    in which the group naming the content (the group [id], or [movie] and
    [company] for the trailer pages) holds a non-empty string. *)
Theorem matcher_extracts_nonempty_id :
  forall site pattern name url,
    In (site, pattern, name) url_patterns ->
    (re_match pattern url = None /\ suitable pattern url = false)
    \/ (exists m id,
           re_match pattern url = Some m
           /\ suitable pattern url = true
           /\ group name m = Some id
           /\ id <> EmptyString).
Proof.
  intros site pattern name url Hin.
  pose proof url_patterns_set_their_group as Hall.
  rewrite forallb_forall in Hall.
  specialize (Hall _ Hin); simpl in Hall.
  unfold suitable.
  destruct (re_match pattern url) as [m|] eqn:E.
  - right. destruct (ReFacts.match_sets_nonempty name pattern url m Hall E)
      as [id [Hid Hne]].
    exists m, id; auto.
  - left; auto.
Qed.

(** The clip address of the source's test matches, with the id 139200. *)
Lemma matcher_example :
  (re_match LivestreamfailsIE._VALID_URL
     "https://livestreamfails.com/clip/139200" = None
   /\ suitable LivestreamfailsIE._VALID_URL
        "https://livestreamfails.com/clip/139200" = false)
  \/ (exists m id,
         re_match LivestreamfailsIE._VALID_URL
           "https://livestreamfails.com/clip/139200" = Some m
         /\ suitable LivestreamfailsIE._VALID_URL
              "https://livestreamfails.com/clip/139200" = true
         /\ group "id" m = Some id
         /\ id <> EmptyString).
Proof.
  apply (matcher_extracts_nonempty_id "Livestreamfails"
           LivestreamfailsIE._VALID_URL "id"
           "https://livestreamfails.com/clip/139200").
  unfold url_patterns. do 4 right. left. reflexivity.
Defined.

End UrlMatcher.

(* ================================================================== *)
(** * The time codes of NRK *)

Module NRKTime.

Import NRKTVIE.

Lemma split_field (s : string) :
  no_colon s -> Py.split ":" s = [s].
Proof.
  unfold no_colon; induction s as [|c s IH]; simpl; intros Hs; [reflexivity|].
  apply andb_true_iff in Hs as [Hc Hs]. apply negb_true_iff in Hc.
  rewrite Hc, (IH Hs). reflexivity.
Qed.

Lemma split_first_field (s rest : string) :
  no_colon s ->
  Py.split ":" (s ++ String ":" rest) = s :: Py.split ":" rest.
Proof.
  unfold no_colon; induction s as [|c s IH]; simpl; intros Hs; [reflexivity|].
  apply andb_true_iff in Hs as [Hc Hs]. apply negb_true_iff in Hc.
  rewrite Hc, (IH Hs). reflexivity.
Qed.

Lemma split_time_code (h m s : string) :
  no_colon h -> no_colon m -> no_colon s ->
  Py.split ":" (h ++ ":" ++ m ++ ":" ++ s) = [h; m; s].
Proof.
  intros Hh Hm Hs. simpl.
  rewrite (split_first_field _ _ Hh), (split_first_field _ _ Hm),
    (split_field _ Hs).
  reflexivity.
Qed.

(** The floats of the model are those of Python: the texts and the
    integers below are read as Python reads them. *)
Lemma floats_as_python :
  option_map PyNum.to_Q (PyNum.float_of_str "0.1")
  = Some (Some (Qmake 3602879701896397 36028797018963968))
  /\ option_map PyNum.to_Q (PyNum.float_of_str "51.520")
     = Some (Some (Qmake 7250795400066499 140737488355328))
  /\ option_map PyNum.to_Q (PyNum.float_of_str "-5.5")
     = Some (Some (Qmake (-11) 2))
  /\ PyNum.float_of_str "1e400" = Some (SpecFloat.S754_infinity false)
  /\ PyNum.float_of_str "1e-400" = Some (SpecFloat.S754_zero false)
  /\ PyNum.float_of_str "2.4703282292062327e-324"
     = Some (SpecFloat.S754_zero false)
  /\ PyNum.float_of_str "2.4703282292062328e-324"
     = Some (SpecFloat.S754_finite false 1 (-1074))
  /\ PyNum.float_of_str "1.7976931348623159e308"
     = Some (SpecFloat.S754_infinity false)
  /\ PyNum.to_Q (PyNum.nearest (2 ^ 53 + 1))
     = Some (inject_Z (2 ^ 53))
  /\ PyNum.of_int (2 ^ 1024 - 2 ^ 970 - 1)
     = Ok (SpecFloat.S754_finite false (2 ^ 53 - 1) 971)
  /\ PyNum.of_int (2 ^ 1024 - 2 ^ 970) = Raise OverflowError.
Proof. repeat split; vm_compute; reflexivity. Qed.

(** C3, as amended.  For a time code [h:m:s] whose fields [h] and [m] are
    texts of integers, [_str2seconds] converts the integer
    [h * 3600 + m * 60] to a float and returns the sum of that float and
    the seconds, rounded to the nearest float; the seconds are the float
    nearest to the number [s] writes when [s] is the text of a float (a
    negative one included) and [0.0] otherwise.  When the integer is
    beyond the range of the floats the conversion raises
    [OverflowError]. *)
Theorem str2seconds_total_seconds :
  forall (h m s : string) (hours minutes : Z),
    no_colon h -> no_colon m -> no_colon s ->
    PyNum.int_of_str h = Some hours ->
    PyNum.int_of_str m = Some minutes ->
    _str2seconds (h ++ ":" ++ m ++ ":" ++ s)
    = match PyNum.nearest (hours * 3600 + minutes * 60) with
      | SpecFloat.S754_infinity _ => Raise OverflowError
      | total => Ok (PyNum.fadd total (seconds_of s))
      end.
Proof.
  intros h m s hours minutes Hh Hm Hs Hhours Hminutes.
  unfold _str2seconds. rewrite (split_time_code _ _ _ Hh Hm Hs).
  unfold index, int_, float_, seconds_of, PyNum.of_int; simpl.
  rewrite Hhours, Hminutes. cbn [rbind].
  destruct (PyNum.float_of_str s); cbn [of_option try_except rbind];
    destruct (PyNum.nearest (hours * 3600 + minutes * 60)); reflexivity.
Qed.

(** The example of the claim: [00:01:51.520] gives the float that Python
    prints as 111.52000000000001. *)
Lemma str2seconds_example :
  exists v, _str2seconds "00:01:51.520" = Ok v
            /\ PyNum.float_of_str "111.52000000000001" = Some v
            /\ PyNum.to_Q v = Some (Qmake 3923761175346545 35184372088832).
Proof.
  eexists; split.
  - apply (str2seconds_total_seconds "00" "01" "51.520" 0 1); reflexivity.
  - split; vm_compute; reflexivity.
Defined.

(** C3 fails as stated.  The seconds of [00:01:51.520] are not 111.52:
    the float returned is another float than the one [111.52] writes, and
    the number it stands for is not 111.52.  With a field of seconds that
    is no float the parser returns the hours and minutes, here 60 and not
    zero; with such a field and hours that are no integer it raises; a
    negative field of seconds is a float and is not replaced by zero; and
    hours beyond the range of the floats raise [OverflowError]. *)
Lemma str2seconds_malformed_seconds_not_zero :
  (exists v w q,
      _str2seconds "00:01:51.520" = Ok v
      /\ PyNum.float_of_str "111.52" = Some w
      /\ PyNum.feqb v w = false
      /\ PyNum.to_Q v = Some q
      /\ ~ Qeq q (Qmake 11152 100))
  /\ PyNum.float_of_str "abc" = None
  /\ (exists v, _str2seconds "00:01:abc" = Ok v
                /\ PyNum.to_Q v = Some (inject_Z 60))
  /\ _str2seconds "ab:00:abc" = Raise ValueError
  /\ (exists v, _str2seconds "00:00:-5.5" = Ok v
                /\ PyNum.to_Q v = Some (Qmake (-11) 2))
  /\ _str2seconds
       (NilZero.string_of_uint (Pos.to_uint (10 ^ 306)) ++ ":00:00")
     = Raise OverflowError.
Proof.
  split.
  { do 3 eexists. repeat split; try (vm_compute; reflexivity).
    vm_compute. discriminate. }
  repeat split; try (vm_compute; reflexivity);
    eexists; split; vm_compute; reflexivity.
Qed.

End NRKTime.

(* ================================================================== *)
(** * The calendar *)

Module Calendar.

Import Time.

Lemma days_before_next_year (y : Z) :
  (1 <= y)%Z ->
  days_before_year (y + 1) = (days_before_year y + year_length y)%Z.
Proof.
  intros Hy. unfold days_before_year, year_length, is_leap.
  replace (y + 1 - 1)%Z with y by lia.
  destruct (Z.eqb_spec (y mod 4) 0) as [H4|H4];
    destruct (Z.eqb_spec (y mod 100) 0) as [H100|H100];
    destruct (Z.eqb_spec (y mod 400) 0) as [H400|H400];
    cbn [andb orb negb];
    Z.div_mod_to_equations; lia.
Qed.

Lemma days_before_year_counted (n : nat) :
  days_before_year (Z.of_nat n + 1) = days_of_years n.
Proof.
  induction n as [|n IH].
  - reflexivity.
  - cbn [days_of_years]. rewrite <- IH.
    replace (Z.of_nat n + 1)%Z with (Z.of_nat (S n)) by lia.
    apply days_before_next_year. lia.
Qed.

Lemma days_before_month_counted (y m : Z) :
  (1 <= m <= 12)%Z ->
  days_before_month y m = days_of_months y (Z.to_nat (m - 1)).
Proof.
  intros Hm.
  assert (Hcases : (m = 1 \/ m = 2 \/ m = 3 \/ m = 4 \/ m = 5 \/ m = 6
                    \/ m = 7 \/ m = 8 \/ m = 9 \/ m = 10 \/ m = 11
                    \/ m = 12)%Z) by lia.
  clear Hm.
  repeat destruct Hcases as [->|Hcases]; try subst m;
    unfold days_before_month;
    repeat match goal with
           | |- context [Z.to_nat ?z] =>
               let n := eval vm_compute in (Z.to_nat z) in
               progress change (Z.to_nat z) with n
           end;
    cbn [days_of_months]; unfold days_in_month;
    remember (is_leap y) as leap; destruct leap; vm_compute; reflexivity.
Qed.

(** [calendar.timegm] gives the seconds since the epoch counted day by
    day, for a year from 1 on and a month from 1 to 12. *)
Lemma timegm_counts_days (t : struct_time) :
  (1 <= tm_year t)%Z -> (1 <= tm_mon t <= 12)%Z ->
  timegm t = utc_seconds t.
Proof.
  intros Hy Hm. unfold timegm, utc_seconds, days_since_epoch, toordinal.
  rewrite (days_before_month_counted _ _ Hm).
  replace (tm_year t) with (Z.of_nat (Z.to_nat (tm_year t - 1)) + 1)%Z at 1
    by lia.
  rewrite days_before_year_counted.
  change EPOCH_ORD with (days_of_years 1969 + 1)%Z.
  lia.
Qed.

Lemma strptime_valid (s : string) (t : struct_time) :
  strptime s = Ok t -> (1 <= tm_year t)%Z /\ (1 <= tm_mon t <= 12)%Z.
Proof.
  unfold strptime, rbind.
  destruct (Re.re_match iso_format s) as [m|]; [|discriminate].
  destruct (negb (String.eqb (fst m) EmptyString)); [discriminate|].
  destruct (field "Y" m) as [year|]; [|discriminate].
  destruct (field "m" m) as [month|]; [|discriminate].
  destruct (field "d" m) as [day|]; [|discriminate].
  destruct (field "H" m) as [hour|]; [|discriminate].
  destruct (field "M" m) as [minute|]; [|discriminate].
  destruct (field "S" m) as [second|]; [|discriminate].
  destruct (valid_date year month day) eqn:Hv; [|discriminate].
  intros Hok; inversion Hok; subst; cbn.
  unfold valid_date in Hv.
  repeat (apply andb_true_iff in Hv as [Hv ?]).
  lia.
Qed.

End Calendar.

(* ================================================================== *)
(** * The clip aggregator *)

Module Livestreamfails.

Import LivestreamfailsIE.

(** What [_real_extract] returns when nothing raises: the record, field
    by field, and the one request it sends. *)
Lemma real_extract_returns (H : Host) (url id page : string)
    (api streamer : Dict.t) (video image : string) (timestamp : value)
    (log : list request) :
  _match_id _VALID_URL url = Ok id ->
  urlopen (api_request id) = Some page ->
  json_loads page = Some (VDict api) ->
  convert_timestamp (Dict.get "createdAt" api) = Ok timestamp ->
  Dict.get "videoId" api = VStr video ->
  get_default "streamer" (VDict []) (VDict api) = Ok (VDict streamer) ->
  Dict.get "imageId" api = VStr image ->
  _real_extract url log
  = (Ok (VDict [ ("id", VStr id);
                 ("display_id", Dict.get "sourceId" api);
                 ("timestamp", timestamp);
                 ("url", VStr (video_prefix ++ video));
                 ("title", Dict.get "label" api);
                 ("creator", Dict.get "label" streamer);
                 ("thumbnail", VStr (image_prefix ++ image)) ]),
     (log ++ [api_request id])%list).
Proof.
  intros Hid Hpage Hjson Htime Hvideo Hstreamer Himage.
  unfold _real_extract, _download_webpage, api_request in *.
  cbv beta iota zeta delta [bind lift ret of_option Value.get Value.str_add].
  step Hid. step Hpage.
  step Hjson. step Htime.
  step Hvideo. step Hstreamer.
  rewrite Himage. reflexivity.
Qed.

Lemma get_absent (k : string) (d : Dict.t) :
  Dict.mem k d = false -> Dict.get k d = VNone.
Proof.
  induction d as [|[k' v] d IH]; simpl; [reflexivity|].
  destruct (String.eqb k' k); [discriminate|exact IH].
Qed.

Lemma strptime_nonempty (s : string) (t : Time.struct_time) :
  Time.strptime s = Ok t -> Py.truthy s = true.
Proof.
  destruct s; [vm_compute; discriminate|reflexivity].
Qed.

(** C5, as amended.  When the answer of the API is an object with a
    string [videoId], a string [imageId], a [streamer] that is absent or an
    object, and a [createdAt] that [time.strptime] reads in the format
    [%Y-%m-%dT%H:%M:%S.%fZ], the extractor sends the one request and returns
    a single record whose [url] is the CDN prefix followed by the [videoId]
    and whose [timestamp] is [calendar.timegm] of the time read, which is
    the number of seconds from the epoch to that time taken as UTC. *)
Theorem clip_url_and_timestamp (H : Host) (url id page : string)
    (api streamer : Dict.t) (video image created : string)
    (tm : Time.struct_time) (log : list request) :
  _match_id _VALID_URL url = Ok id ->
  urlopen (api_request id) = Some page ->
  json_loads page = Some (VDict api) ->
  Dict.get "videoId" api = VStr video ->
  Dict.get "imageId" api = VStr image ->
  get_default "streamer" (VDict []) (VDict api) = Ok (VDict streamer) ->
  Dict.get "createdAt" api = VStr created ->
  Time.strptime created = Ok tm ->
  exists info,
    _real_extract url log = (Ok (VDict info), (log ++ [api_request id])%list)
    /\ Dict.get "url" info
       = VStr ("https://livestreamfails-video-prod.b-cdn.net/video/" ++ video)
    /\ Dict.get "timestamp" info = VInt (Time.timegm tm)
    /\ Time.timegm tm = Time.utc_seconds tm.
Proof.
  intros Hid Hpage Hjson Hvideo Himage Hstreamer Hcreated Htm.
  eexists; split; [|split; [|split]].
  - eapply real_extract_returns; eauto.
    rewrite Hcreated. unfold convert_timestamp.
    cbv beta iota delta [Value.truthy].
    rewrite (strptime_nonempty _ _ Htm), Htm. reflexivity.
  - reflexivity.
  - reflexivity.
  - destruct (Calendar.strptime_valid _ _ Htm) as [Hy Hm].
    apply Calendar.timegm_counts_days; assumption.
Qed.

(** The clip of the test of the source: its record has the timestamp
    1656271785. *)
Lemma clip_url_and_timestamp_example :
  exists info,
    @_real_extract (Example.clip_host
                      (Example.clip_api (VStr "2022-06-26T19:29:45.515Z")))
      Example.clip_url []
    = (Ok (VDict info), [api_request "139200"])
    /\ Dict.get "url" info
       = VStr "https://livestreamfails-video-prod.b-cdn.net/video/6b4c8ac7a1e5.mp4"
    /\ Dict.get "timestamp" info = VInt 1656271785
    /\ 1656271785%Z = Time.utc_seconds (Time.mkTime 2022 6 26 19 29 45).
Proof.
  exact (clip_url_and_timestamp
           (Example.clip_host (Example.clip_api (VStr "2022-06-26T19:29:45.515Z")))
           Example.clip_url "139200" "<answer of the API>"
           (Example.clip_api (VStr "2022-06-26T19:29:45.515Z"))
           [ ("label", VStr "paradeev1ch") ]
           "6b4c8ac7a1e5.mp4" "3877b1d38db083fa25c82685bbaf645637e575ea.png"
           "2022-06-26T19:29:45.515Z" (Time.mkTime 2022 6 26 19 29 45) []
           eq_refl eq_refl eq_refl eq_refl eq_refl eq_refl eq_refl eq_refl).
Defined.

(** C5 fails as stated: [2022-06-26T19:29:45Z] is a time of ISO 8601, the
    answer has a [videoId] (and all other fields), and the extractor
    raises [ValueError], for the format asks for a fraction of a second.
    An answer with a [videoId] and a [createdAt] in the format, but
    without [imageId], makes the extractor raise [TypeError]. *)
Lemma clip_iso_time_without_fraction_raises :
  Dict.get "videoId" (Example.clip_api (VStr "2022-06-26T19:29:45Z"))
  = VStr "6b4c8ac7a1e5.mp4"
  /\ @_real_extract (Example.clip_host
                       (Example.clip_api (VStr "2022-06-26T19:29:45Z")))
       Example.clip_url []
     = (Raise ValueError, [api_request "139200"])
  /\ @_real_extract (Example.clip_host Example.clip_api_without_image)
       Example.clip_url []
     = (Raise TypeError, [api_request "139200"]).
Proof. repeat split; vm_compute; reflexivity. Qed.

End Livestreamfails.

(* ================================================================== *)
(** * Optional fields *)

Module OptionalFields.

Import Re.

(** A search that is not fatal returns; it returns [None] when the
    pattern is not found and there is no default, or the default [None]. *)
Lemma html_search_regex_not_fatal (H : Host) (pattern : regex)
    (s name group : string) (default : option value) :
  default = None \/ default = Some VNone ->
  exists v,
    _html_search_regex pattern s name group default false = Ok v
    /\ (re_search pattern s = None -> v = VNone).
Proof.
  unfold _html_search_regex, _search_regex. intros Hd.
  destruct (re_search pattern s) as [m|].
  - destruct (Re.group group m) as [text|]; simpl;
      eexists; (split; [reflexivity|discriminate]).
  - destruct Hd as [-> | ->]; simpl; eexists; split; reflexivity.
Qed.

(** What [NRKTVIE._real_extract] returns for a page without an address of
    subtitles, when subtitles are not being listed. *)
Lemma nrktv_returns (H : Host)
    (captions : string -> value -> value -> M value)
    (url page : string) (mobj : match_object) (log : list request) :
  re_match NRKTVIE._VALID_URL url = Some mobj ->
  urlopen (mkRequest url [] []) = Some page ->
  param_listsubtitles = false ->
  re_search NRKTVIE.subtitlesurl_re page = None ->
  exists thumbnail duration_text,
    NRKTVIE._real_extract captions url log
    = (Ok (VDict
        [ ("id", Value.of_option (Re.group "id" mobj));
          ("title", Value.of_option (html_search_meta ["title"] page));
          ("description",
            Value.of_option (html_search_meta ["description"] page));
          ("thumbnail", thumbnail);
          ("upload_date",
            unified_strdate
              (Value.of_option (html_search_meta ["rightsfrom"] page)));
          ("duration", float_or_none duration_text);
          ("formats",
            VList (map VDict (_sort_formats (NRKTVIE.page_formats page))));
          ("subtitles", VDict []) ]),
       (log ++ [mkRequest url [] []])%list)
    /\ (re_search (NRKTVIE.attribute_re "data-posterimage") page = None ->
        thumbnail = VNone)
    /\ (re_search (NRKTVIE.attribute_re "data-duration") page = None ->
        duration_text = VNone).
Proof.
  intros Hmatch Hpage Hlist Hsub.
  destruct (html_search_regex_not_fatal H
              (NRKTVIE.attribute_re "data-posterimage") page "thumbnail" "1"
              None (or_introl eq_refl)) as [thumbnail [Ht Htn]].
  destruct (html_search_regex_not_fatal H
              (NRKTVIE.attribute_re "data-duration") page "duration" "1"
              None (or_introl eq_refl)) as [duration_text [Hd Hdn]].
  destruct (html_search_regex_not_fatal H
              NRKTVIE.subtitlesurl_re page "subtitlesurl" "1"
              (Some VNone) (or_intror eq_refl)) as [sub [Hs Hsn]].
  specialize (Hsn Hsub); subst sub.
  exists thumbnail, duration_text. split; [|split; assumption].
  unfold NRKTVIE._real_extract, _download_webpage.
  cbv beta iota zeta delta [bind lift ret of_option].
  step Hmatch. step Hpage.
  step Ht. step Hd.
  step Hs. rewrite Hlist. reflexivity.
Qed.

(** [time.strptime] raises [ValueError] and nothing else. *)
Lemma strptime_raises (s : string) (e : exn) :
  Time.strptime s = Raise e -> e = ValueError.
Proof.
  assert (Hfield : forall name m (k : Z -> result Time.struct_time),
             (forall z, k z = Raise e -> e = ValueError) ->
             (x <~ Time.field name m ;; k x) = Raise e -> e = ValueError).
  { intros name m k Hk. unfold Time.field.
    destruct (group name m) as [text|]; cbn [rbind];
      [|intros E; inversion E; reflexivity].
    destruct (PyNum.int_of_str text) as [z|]; cbn [of_option rbind];
      [apply Hk|intros E; inversion E; reflexivity]. }
  unfold Time.strptime.
  destruct (re_match Time.iso_format s) as [m|];
    [|intros E; inversion E; reflexivity].
  destruct (negb (String.eqb (fst m) EmptyString));
    [intros E; inversion E; reflexivity|].
  apply Hfield; intros year. apply Hfield; intros month.
  apply Hfield; intros day. apply Hfield; intros hour.
  apply Hfield; intros minute. apply Hfield; intros second.
  destruct (Time.valid_date year month day); intros E; inversion E.
  reflexivity.
Qed.

(** When the conversion of [createdAt] raises, the clip extractor raises
    the same error after its one request. *)
Lemma clip_timestamp_raises (H : Host) (url id page : string)
    (api : Dict.t) (e : exn) (log : list request) :
  _match_id LivestreamfailsIE._VALID_URL url = Ok id ->
  urlopen (LivestreamfailsIE.api_request id) = Some page ->
  json_loads page = Some (VDict api) ->
  LivestreamfailsIE.convert_timestamp (Dict.get "createdAt" api) = Raise e ->
  LivestreamfailsIE._real_extract url log
  = (Raise e, (log ++ [LivestreamfailsIE.api_request id])%list).
Proof.
  intros Hid Hpage Hjson Htime.
  unfold LivestreamfailsIE._real_extract, _download_webpage,
    LivestreamfailsIE.api_request in *.
  cbv beta iota zeta delta [bind lift ret of_option Value.get].
  step Hid. step Hpage. step Hjson. rewrite Htime. reflexivity.
Qed.

(** C4, as amended.  In the clip extractor, for an answer of the API that
    is an object:

    - with a string [videoId], a string [imageId] and a [streamer] that
      is absent or an object, a [createdAt] that is absent or another
      false value (such as [None] or the empty text) raises nothing: the
      record is returned after the one request, its [timestamp] is that
      value ([None] when [createdAt] is absent), and its [display_id],
      [title] and [creator] are [None] when [sourceId], [label] and
      [streamer] are absent;
    - a [createdAt] that is a text, not empty, which [time.strptime] does
      not read in its format raises [ValueError], and no record is
      returned;
    - a [createdAt] that is a true value and no text raises [TypeError].

    In the NRK TV extractor, when subtitles are not being listed, a page
    that gives at least one format and has no address of subtitles gives
    a record with empty subtitles, whose [description] is [None] when
    the page has no such meta tag and whose [thumbnail] is [None] when
    the page has no poster image; nothing is raised. *)
Theorem absent_optional_fields_are_none (H : Host) (log : list request) :
  (forall (url id page : string) (api : Dict.t),
      _match_id LivestreamfailsIE._VALID_URL url = Ok id ->
      urlopen (LivestreamfailsIE.api_request id) = Some page ->
      json_loads page = Some (VDict api) ->
      (forall (video image : string) (streamer : Dict.t),
          Dict.get "videoId" api = VStr video ->
          Dict.get "imageId" api = VStr image ->
          LivestreamfailsIE.get_default "streamer" (VDict []) (VDict api)
          = Ok (VDict streamer) ->
          Value.truthy (Dict.get "createdAt" api) = false ->
          exists info,
            LivestreamfailsIE._real_extract url log
            = (Ok (VDict info),
               (log ++ [LivestreamfailsIE.api_request id])%list)
            /\ Dict.get "timestamp" info = Dict.get "createdAt" api
            /\ (Dict.mem "createdAt" api = false ->
                Dict.get "timestamp" info = VNone)
            /\ (Dict.mem "sourceId" api = false ->
                Dict.get "display_id" info = VNone)
            /\ (Dict.mem "label" api = false ->
                Dict.get "title" info = VNone)
            /\ (Dict.mem "streamer" api = false ->
                Dict.get "creator" info = VNone))
      /\ (forall (created : string) (e : exn),
             Dict.get "createdAt" api = VStr created ->
             created <> EmptyString ->
             Time.strptime created = Raise e ->
             LivestreamfailsIE._real_extract url log
             = (Raise ValueError,
                (log ++ [LivestreamfailsIE.api_request id])%list))
      /\ (Value.truthy (Dict.get "createdAt" api) = true ->
          (forall created, Dict.get "createdAt" api <> VStr created) ->
          LivestreamfailsIE._real_extract url log
          = (Raise TypeError,
             (log ++ [LivestreamfailsIE.api_request id])%list)))
  /\ (forall (captions : string -> value -> value -> M value)
             (url page : string) (mobj : match_object),
      re_match NRKTVIE._VALID_URL url = Some mobj ->
      urlopen (mkRequest url [] []) = Some page ->
      param_listsubtitles = false ->
      NRKTVIE.page_formats page <> [] ->
      re_search NRKTVIE.subtitlesurl_re page = None ->
      exists info,
        NRKTVIE._real_extract captions url log
        = (Ok (VDict info), (log ++ [mkRequest url [] []])%list)
        /\ Dict.get "subtitles" info = VDict []
        /\ (html_search_meta ["description"] page = None ->
            Dict.get "description" info = VNone)
        /\ (re_search (NRKTVIE.attribute_re "data-posterimage") page = None ->
            Dict.get "thumbnail" info = VNone)).
Proof.
  split.
  - intros url id page api Hid Hpage Hjson. split; [|split].
    + intros video image streamer Hvideo Himage Hstreamer Hcreated.
      eexists; split.
      * eapply (Livestreamfails.real_extract_returns H url id page api
                  streamer); eauto.
        unfold LivestreamfailsIE.convert_timestamp. rewrite Hcreated.
        reflexivity.
      * cbn [Dict.get String.eqb Ascii.eqb Bool.eqb].
        split; [reflexivity|].
        repeat split; intros Habsent;
          try (apply Livestreamfails.get_absent, Habsent).
        unfold LivestreamfailsIE.get_default in Hstreamer.
        rewrite Habsent in Hstreamer. inversion Hstreamer. reflexivity.
    + intros created e Hcreated Hne Hraise.
      apply (clip_timestamp_raises H url id page api ValueError log
               Hid Hpage Hjson).
      rewrite Hcreated. unfold LivestreamfailsIE.convert_timestamp.
      destruct created as [|c rest]; [contradiction|].
      cbn [Value.truthy Py.truthy]. rewrite Hraise. cbn [rbind].
      rewrite (strptime_raises _ _ Hraise). reflexivity.
    + intros Htrue Hother.
      apply (clip_timestamp_raises H url id page api TypeError log
               Hid Hpage Hjson).
      unfold LivestreamfailsIE.convert_timestamp. rewrite Htrue.
      destruct (Dict.get "createdAt" api) as [| | | |created| |];
        try reflexivity.
      exfalso. exact (Hother created eq_refl).
  - intros captions url page mobj Hmatch Hpage Hlist _ Hsub.
    destruct (nrktv_returns H captions url page mobj log Hmatch Hpage Hlist Hsub)
      as (thumbnail & duration_text & Hrun & Hthumb & _).
    eexists; split; [exact Hrun|].
    cbn [Dict.get String.eqb Ascii.eqb Bool.eqb].
    repeat split.
    + intros Hd. rewrite Hd. reflexivity.
    + exact Hthumb.
Qed.

(** An answer with the two identifiers only, answers whose [createdAt]
    is the empty text, a date in words and the number 5, and a programme
    page with a media address only. *)
Lemma absent_optional_fields_example :
  (exists info,
      @LivestreamfailsIE._real_extract
        (Example.clip_host Example.bare_clip_api) Example.clip_url []
      = (Ok (VDict info), [LivestreamfailsIE.api_request "139200"])
      /\ Dict.get "timestamp" info = VNone
      /\ Dict.get "creator" info = VNone
      /\ Dict.get "display_id" info = VNone
      /\ Dict.get "title" info = VNone)
  /\ (exists info,
        @LivestreamfailsIE._real_extract
          (Example.clip_host (Example.clip_api (VStr "")))
          Example.clip_url []
        = (Ok (VDict info), [LivestreamfailsIE.api_request "139200"])
        /\ Dict.get "timestamp" info = VStr "")
  /\ @LivestreamfailsIE._real_extract
       (Example.clip_host (Example.clip_api (VStr "26 June 2022, 19:29")))
       Example.clip_url []
     = (Raise ValueError, [LivestreamfailsIE.api_request "139200"])
  /\ @LivestreamfailsIE._real_extract
       (Example.clip_host (Example.clip_api (VInt 5))) Example.clip_url []
     = (Raise TypeError, [LivestreamfailsIE.api_request "139200"])
  /\ (exists info,
        @NRKTVIE._real_extract Example.programme_host
          (fun _ _ _ => ret (VDict [])) Example.programme_url []
        = (Ok (VDict info), [mkRequest Example.programme_url [] []])
        /\ Dict.get "subtitles" info = VDict []
        /\ Dict.get "description" info = VNone
        /\ Dict.get "thumbnail" info = VNone).
Proof.
  split; [|split; [|split; [|split]]].
  - destruct (proj1 (proj1 (absent_optional_fields_are_none
                              (Example.clip_host Example.bare_clip_api) [])
                       Example.clip_url "139200" "<answer of the API>"
                       Example.bare_clip_api eq_refl eq_refl eq_refl)
                "6b4c8ac7a1e5.mp4"
                "3877b1d38db083fa25c82685bbaf645637e575ea.png" []
                eq_refl eq_refl eq_refl eq_refl)
      as (info & Hrun & _ & Ht & Hd & Hl & Hc).
    exists info. repeat split; auto.
  - destruct (proj1 (proj1 (absent_optional_fields_are_none
                              (Example.clip_host (Example.clip_api (VStr "")))
                              [])
                       Example.clip_url "139200" "<answer of the API>"
                       (Example.clip_api (VStr "")) eq_refl eq_refl eq_refl)
                "6b4c8ac7a1e5.mp4"
                "3877b1d38db083fa25c82685bbaf645637e575ea.png"
                [ ("label", VStr "paradeev1ch") ]
                eq_refl eq_refl eq_refl eq_refl)
      as (info & Hrun & Ht & _).
    exists info. split; [exact Hrun|exact Ht].
  - apply (proj1 (proj2 (proj1 (absent_optional_fields_are_none
                                  (Example.clip_host
                                     (Example.clip_api
                                        (VStr "26 June 2022, 19:29"))) [])
                           Example.clip_url "139200" "<answer of the API>"
                           (Example.clip_api (VStr "26 June 2022, 19:29"))
                           eq_refl eq_refl eq_refl))
             "26 June 2022, 19:29" ValueError);
      [reflexivity|discriminate|vm_compute; reflexivity].
  - apply (proj2 (proj2 (proj1 (absent_optional_fields_are_none
                                  (Example.clip_host
                                     (Example.clip_api (VInt 5))) [])
                           Example.clip_url "139200" "<answer of the API>"
                           (Example.clip_api (VInt 5))
                           eq_refl eq_refl eq_refl)));
      [reflexivity|intros created; discriminate].
  - destruct (proj2 (absent_optional_fields_are_none
                       Example.programme_host [])
                (fun _ _ _ => ret (VDict [])) Example.programme_url
                Example.programme_page
                ("", [("id", "mdfp15000514"); ("baseurl", "http://tv.nrk.no")])
                eq_refl eq_refl eq_refl)
      as (info & Hrun & Hs & Hd & Ht).
    + vm_compute. discriminate.
    + reflexivity.
    + exists info. repeat split; auto.
Defined.

(** C4 fails as stated: a [createdAt] that is present and is not in the
    format of [time.strptime] makes the clip extractor raise [ValueError];
    and a media element of NRK without a description makes [NRKIE] raise
    [KeyError].  No record is returned. *)
Lemma unparseable_timestamp_raises :
  @LivestreamfailsIE._real_extract
    (Example.clip_host (Example.clip_api (VStr "26 June 2022, 19:29")))
    Example.clip_url []
  = (Raise ValueError, [LivestreamfailsIE.api_request "139200"])
  /\ @NRKIE._real_extract
       (Example.nrk_media_host Example.nrk_media_without_description)
       Example.nrk_url []
     = (Raise (KeyError "description"),
        [ mkRequest Example.nrk_url [] [];
          mkRequest "http://v7.psapi.nrk.no/mediaelement/150533" [] [] ]).
Proof. split; vm_compute; reflexivity. Qed.

End OptionalFields.

(* ================================================================== *)
(** * The relinker of RAI *)

Module Relinker.

Import Re.
Import RaiBaseIE.

Lemma prefix_app (a b s : string) :
  prefix (a ++ b) s = prefix a s && prefix b (drop (String.length a) s).
Proof.
  revert s; induction a as [|x a IH]; intros s; simpl.
  - destruct s; reflexivity.
  - destruct s as [|y s]; simpl; [reflexivity|].
    destruct (ascii_dec x y); [apply IH|reflexivity].
Qed.

Lemma run_lit (subject w s : string) (c : captures) :
  run subject (lit w) s c
  = if prefix w s then [(drop (String.length w) s, c)] else [].
Proof.
  revert s; induction w as [|x w IH]; intros s; simpl.
  - destruct s; reflexivity.
  - destruct s as [|y s]; simpl; [reflexivity|].
    destruct (ascii_dec x y) as [->|Hne].
    + rewrite Ascii.eqb_refl. simpl. rewrite IH, app_nil_r. reflexivity.
    + apply Ascii.eqb_neq in Hne. rewrite Hne. reflexivity.
Qed.

(** [re.match(r'https?://', s)] is [None] exactly when [s] starts with
    neither [http://] nor [https://]. *)
Lemma scheme_match (s : string) :
  re_match scheme_re s = None
  <-> prefix "http://" s = false /\ prefix "https://" s = false.
Proof.
  unfold re_match, match_at, scheme_re, seqs, opt.
  cbn [fold_right run].
  rewrite run_lit.
  change "http://" with ("http" ++ "://").
  change "https://" with ("http" ++ "s" ++ "://").
  rewrite !prefix_app.
  destruct (prefix "http" s); cbn [flat_map app fst snd andb];
    [|split; auto].
  rewrite app_nil_r, run_lit.
  cbn [String.length] in *.
  destruct (prefix "s" (drop 4 s)); cbn [flat_map app fst snd andb map].
  - rewrite !app_nil_r, !run_lit. cbn [String.length].
    change (drop (String.length "s") (drop 4 s)) with (drop 1 (drop 4 s)).
    destruct (prefix "://" (drop 1 (drop 4 s)));
      destruct (prefix "://" (drop 4 s)); cbn; split;
      first [discriminate | intros [? ?]; discriminate | auto].
  - rewrite !app_nil_r, !run_lit. cbn [String.length].
    destruct (prefix "://" (drop 4 s)); cbn; split;
      first [discriminate | intros [? ?]; discriminate | auto].
Qed.

(** C10.  For a relinker address that starts with neither [http://] nor
    [https://], [_extract_relinker_info] returns at once: the record has
    the one format whose only entry is the address itself, it has no
    [duration] and no [is_live], and no request is sent. *)
Theorem relinker_info_of_other_scheme (H : Host)
    (relinker_url video_id : string) (log : list request) :
  prefix "http://" relinker_url = false ->
  prefix "https://" relinker_url = false ->
  _extract_relinker_info relinker_url video_id log
  = (Ok (mkInfo None None [ [ ("url", VStr relinker_url) ] ]), log).
Proof.
  intros Hhttp Hhttps.
  unfold _extract_relinker_info.
  rewrite (proj2 (scheme_match relinker_url) (conj Hhttp Hhttps)).
  reflexivity.
Qed.

(** The address of a stream served over MMS is returned as it is. *)
Lemma relinker_info_of_mms_address :
  @_extract_relinker_info Example.relinker_host
    "mms://livestream.rai.it/rainews24" "rainews24" []
  = (Ok (mkInfo None None
           [ [ ("url", VStr "mms://livestream.rai.it/rainews24") ] ]), []).
Proof.
  exact (relinker_info_of_other_scheme Example.relinker_host
           "mms://livestream.rai.it/rainews24" "rainews24" []
           eq_refl eq_refl).
Defined.

(** Every turn of the loop over the platforms that ends without an error
    has read the answer for its platform and has set [geoprotection] from
    it unless it was true already. *)
Lemma platform_step_geoprotection (H : Host)
    (relinker_url video_id platform : string) (st st' : relinker_state)
    (log log' : list request) :
  platform_step relinker_url video_id platform st log = (Ok st', log') ->
  exists relinker,
    answer relinker_url platform = Some relinker
    /\ geoprotection st'
       = refresh (geoprotection st)
                 (is_Y (xpath_text relinker "./geoprotection")).
Proof.
  unfold platform_step, bind, answer, platform_request. intros Hstep.
  destruct (_download_xml relinker_url fix_xml_ampersands
              [("output", "45"); ("pl", platform)] geo_verification_headers log)
    as [[relinker|e] log1] eqn:Hx; [|discriminate].
  exists relinker. split.
  - unfold _download_xml, rbind, of_option in Hx.
    destruct (urlopen (mkRequest relinker_url
                         [("output", "45"); ("pl", platform)]
                         geo_verification_headers)) as [page|];
      [|discriminate].
    destruct (xml_fromstring (fix_xml_ampersands page)); inversion Hx.
    reflexivity.
  - revert Hstep.
    repeat match goal with
           | |- context [match ?x with _ => _ end] =>
               destruct x eqn:?; cbn [ret raise lift]
           end;
      intros Hstep; inversion Hstep; reflexivity.
Qed.

Lemma refresh_flag (current : value) (o : option string) :
  flag current ->
  flag (refresh current (is_Y o))
  /\ (current = VBool true \/ o = Some "Y" ->
      refresh current (is_Y o) = VBool true).
Proof.
  unfold flag, refresh, is_Y.
  intros [->|[[|] ->]]; cbn [Value.truthy]; (split; [eauto|]).
  all: intros [Hc|Ho]; try discriminate; try reflexivity.
  all: rewrite Ho; reflexivity.
Qed.

(** When the loop ends without an error, [geoprotection] is true as soon
    as it was true before or one of the answers signals it. *)
Lemma platform_loop_geoprotection (H : Host) (relinker_url video_id : string)
    (platforms : list string) :
  forall (st st' : relinker_state) (log log' : list request),
    platform_loop relinker_url video_id platforms st log = (Ok st', log') ->
    flag (geoprotection st) ->
    geoprotection st = VBool true
    \/ signals_geoprotection relinker_url platforms ->
    geoprotection st' = VBool true.
Proof.
  induction platforms as [|platform rest IH]; intros st st' log log' Hloop Hflag Hsig.
  - cbn [platform_loop] in Hloop. unfold ret in Hloop. inversion Hloop; subst.
    destruct Hsig as [Hs|(p & x & [] & _)]. exact Hs.
  - cbn [platform_loop] in Hloop. unfold bind in Hloop.
    destruct (platform_step relinker_url video_id platform st log)
      as [[st1|e] log1] eqn:Hstep; [|discriminate].
    destruct (platform_step_geoprotection H _ _ _ _ _ _ _ Hstep)
      as (relinker & Hanswer & Hgeo).
    destruct (refresh_flag (geoprotection st)
                (xpath_text relinker "./geoprotection") Hflag)
      as [Hflag1 Htrue].
    rewrite <- Hgeo in Hflag1, Htrue.
    apply (IH st1 st' log1 log' Hloop Hflag1).
    destruct Hsig as [Hs|(p & x & [<-|Hin] & Hx & HY)].
    + left. apply Htrue. left. exact Hs.
    + left. apply Htrue. right.
      rewrite Hanswer in Hx. inversion Hx; subst. exact HY.
    + right. exists p, x. auto.
Qed.

End Relinker.

(* ================================================================== *)
(** * Geo-restriction *)

Module GeoRestriction.

Import Re.
Import RaiBaseIE.

(** C1, as amended.  In the relinker of RAI, for an address with the
    scheme [http] or [https]: when the site signals geo-protection (the
    answer for one of the three platforms has [Y] in [geoprotection]) and
    the loop over the platforms ends with no format, the extractor raises
    [GeoRestrictedError] with the countries [IT]; and when the site
    signals geo-protection the extractor returns no record with an empty
    list of formats.  In [NRKIE]: when the media element says
    [isGeoBlocked], the extractor raises an [ExtractorError] with a fixed
    message, marked as expected, that carries no list of countries; it
    returns no record. *)
Theorem geo_blocked_extractions (H : Host) (log : list request) :
  (forall (relinker_url video_id : string),
      prefix "http://" relinker_url = true
      \/ prefix "https://" relinker_url = true ->
      signals_geoprotection relinker_url ["mon"; "flash"; "native"] ->
      (forall st log',
          platform_loop relinker_url video_id ["mon"; "flash"; "native"]
            initial_state log = (Ok st, log') ->
          formats st = [] ->
          exists msg,
            _extract_relinker_info relinker_url video_id log
            = (Raise (GeoRestrictedError msg ["IT"]), log'))
      /\ (forall ri log'',
             _extract_relinker_info relinker_url video_id log = (Ok ri, log'') ->
             ri_formats ri <> []))
  /\ (forall (url page id body : string) (mobj : match_object)
             (data rights blocked : value),
      re_match NRKIE._VALID_URL url = Some mobj ->
      urlopen (mkRequest url [] []) = Some page ->
      _html_search_regex NRKIE.video_id_re page "video id" "1" None true
      = Ok (VStr id) ->
      urlopen (mkRequest ("http://v7.psapi.nrk.no/mediaelement/" ++ id) [] [])
      = Some body ->
      json_loads body = Some data ->
      Value.item "usageRights" data = Ok rights ->
      Value.item "isGeoBlocked" rights = Ok blocked ->
      Value.truthy blocked = true ->
      NRKIE._real_extract url log
      = (Raise (ExtractorError NRKIE.geo_message true),
         (log ++ [mkRequest url [] []]
              ++ [mkRequest ("http://v7.psapi.nrk.no/mediaelement/" ++ id)
                            [] []])%list)).
Proof.
  split.
  - intros relinker_url video_id Hscheme Hsignal.
    assert (Hmatch : re_match scheme_re relinker_url <> None).
    { intros Hnone. apply Relinker.scheme_match in Hnone as [Hh Hs].
      destruct Hscheme as [E|E]; congruence. }
    assert (Hflag : forall st log',
               platform_loop relinker_url video_id ["mon"; "flash"; "native"]
                 initial_state log = (Ok st, log') ->
               geoprotection st = VBool true).
    { intros st log' Hloop.
      apply (Relinker.platform_loop_geoprotection H relinker_url video_id
               _ _ _ _ _ Hloop).
      - left. reflexivity.
      - right. exact Hsignal. }
    unfold _extract_relinker_info.
    destruct (re_match scheme_re relinker_url); [|contradiction].
    unfold bind. split.
    + intros st log' Hloop Hnone.
      rewrite Hloop, (Hflag _ _ Hloop), Hnone. eexists. reflexivity.
    + intros ri log''.
      destruct (platform_loop relinker_url video_id ["mon"; "flash"; "native"]
                  initial_state log) as [[st|e] log1] eqn:Hloop;
        [|discriminate].
      rewrite (Hflag _ _ eq_refl).
      destruct (formats st) as [|f fs] eqn:Hf.
      * unfold raise_geo_restricted, raise. discriminate.
      * unfold ret. intros Hret. inversion Hret; subst. simpl. discriminate.
  - intros url page id body mobj data rights blocked
      Hmatch Hpage Hid Hbody Hjson Hrights Hblocked Htruthy.
    unfold NRKIE._real_extract, _download_json, _download_webpage.
    cbv beta iota zeta delta [bind lift ret raise of_option].
    step Hmatch. step Hpage.
    step Hid. step Hbody.
    step Hjson. step Hrights.
    step Hblocked. rewrite Htruthy.
    rewrite <- app_assoc. reflexivity.
Qed.

(** The relinker that signals geo-protection on every platform and names
    no media, and the geo-blocked clip of NRK. *)
Lemma geo_blocked_examples :
  (exists msg,
      @_extract_relinker_info Example.relinker_host Example.relinker_url
        "308709" []
      = (Raise (GeoRestrictedError msg ["IT"]),
         [ Example.relinker_request "mon"; Example.relinker_request "flash";
           Example.relinker_request "native" ]))
  /\ @NRKIE._real_extract (Example.nrk_host true) Example.nrk_url []
     = (Raise (ExtractorError NRKIE.geo_message true),
        [ mkRequest Example.nrk_url [] [];
          mkRequest "http://v7.psapi.nrk.no/mediaelement/150533" [] [] ]).
Proof.
  split.
  - refine (proj1 (proj1 (geo_blocked_extractions Example.relinker_host [])
                     Example.relinker_url "308709"
                     (or_introl eq_refl) _)
              (mkState [] (VBool true) (VBool false) VNone)
              [ Example.relinker_request "mon";
                Example.relinker_request "flash";
                Example.relinker_request "native" ]
              eq_refl eq_refl).
    exists "mon", Example.protected_answer.
    split; [left; reflexivity|]. split; reflexivity.
  - exact (proj2 (geo_blocked_extractions (Example.nrk_host true) [])
             Example.nrk_url Example.nrk_page "150533" "<media element>"
             ("/emne/piipshow/", [("id", "D0FA54B5C8B6CE59")])
             (Example.nrk_media true)
             (VDict [ ("isGeoBlocked", VBool true) ]) (VBool true)
             eq_refl eq_refl eq_refl eq_refl eq_refl eq_refl eq_refl eq_refl).
Defined.

(** C1 fails as stated: for a clip that the site marks as geo-blocked,
    [NRKIE] raises a plain [ExtractorError], not a [GeoRestrictedError],
    and the error carries no list of countries. *)
Lemma nrk_geo_block_is_a_plain_extractor_error :
  exists e,
    @NRKIE._real_extract (Example.nrk_host true) Example.nrk_url []
    = (Raise e,
       [ mkRequest Example.nrk_url [] [];
         mkRequest "http://v7.psapi.nrk.no/mediaelement/150533" [] [] ])
    /\ e = ExtractorError NRKIE.geo_message true
    /\ is_GeoRestrictedError e = false.
Proof.
  eexists. split; [vm_compute; reflexivity|]. split; reflexivity.
Qed.

End GeoRestriction.

(* ================================================================== *)
(** * The candidate content ids of RAI *)

Module Candidates.

Import RaiIE.

Section WithHost.

Context {H : Host}.
Variable subtitles : string -> value -> result value.

Lemma first_candidate_returns (id url : string) (rest : list string)
    (info : value) (log log1 : list request) :
  _extract_from_content_id subtitles id url log = (Ok info, log1) ->
  try_content_ids subtitles (id :: rest) url log = (Ok (Some info), log1).
Proof.
  intros Hrun. cbn [try_content_ids]. unfold try_except_else.
  rewrite Hrun. reflexivity.
Qed.

Lemma first_candidate_skipped (id url : string) (rest : list string)
    (e : exn) (log log1 : list request) :
  _extract_from_content_id subtitles id url log = (Raise e, log1) ->
  is_ExtractorError e = true ->
  is_GeoRestrictedError e = false ->
  try_content_ids subtitles (id :: rest) url log
  = try_content_ids subtitles rest url log1.
Proof.
  intros Hrun He Hg. cbn [try_content_ids]. unfold try_except_else.
  rewrite Hrun, He, Hg. reflexivity.
Qed.

Lemma first_candidate_aborts (id url : string) (rest : list string)
    (e : exn) (log log1 : list request) :
  _extract_from_content_id subtitles id url log = (Raise e, log1) ->
  is_GeoRestrictedError e = true \/ is_ExtractorError e = false ->
  try_content_ids subtitles (id :: rest) url log = (Raise e, log1).
Proof.
  intros Hrun Hcase. cbn [try_content_ids]. unfold try_except_else.
  rewrite Hrun. destruct Hcase as [Hg|He].
  - rewrite Hg, andb_false_r. reflexivity.
  - rewrite He. reflexivity.
Qed.

Lemma two_candidates (cid video_id : string) :
  cid <> EmptyString -> cid <> video_id ->
  candidate_ids (VStr cid) video_id = [cid; video_id].
Proof.
  intros Hne Hdiff. unfold candidate_ids.
  destruct cid as [|a s]; [contradiction|].
  cbn [existsb]. destruct (String.eqb_spec video_id (String a s)) as [E|_].
  - symmetry in E. contradiction.
  - reflexivity.
Qed.

(** [_real_extract] up to the loop over the candidates. *)
Lemma real_extract_loop (url video_id webpage : string)
    (content_item_id : value) (log : list request) :
  _match_id _VALID_URL url = Ok video_id ->
  urlopen (mkRequest url [] []) = Some webpage ->
  find_content_item_id webpage = Ok content_item_id ->
  _real_extract subtitles url log
  = bind (try_content_ids subtitles
            (set_order (candidate_ids content_item_id video_id)) url)
         (fun found =>
            match found with
            | Some info => ret info
            | None => extract_from_page url video_id webpage
            end)
         (log ++ [mkRequest url [] []])%list.
Proof.
  intros Hid Hpage Hfind.
  unfold _real_extract, _download_webpage.
  cbv beta iota zeta delta [bind lift of_option].
  step Hid. step Hpage.
  rewrite Hfind. reflexivity.
Qed.

End WithHost.

(** C8, as amended.  When the page gives a content id that differs from
    the id in the address, the extractor tries the two ids in the order in
    which the set of them is iterated, which is one of the two orders.
    It returns the result of the first id tried when its extraction
    returns; when that extraction raises an extractor error other than a
    geo-restriction it returns the result of the second id when that
    extraction returns; a geo-restriction error of the first id ends the
    extraction at once. *)
Theorem candidates_tried_in_set_order (H : Host)
    (subtitles : string -> value -> result value)
    (url video_id webpage cid : string) (log : list request) :
  _match_id _VALID_URL url = Ok video_id ->
  urlopen (mkRequest url [] []) = Some webpage ->
  find_content_item_id webpage = Ok (VStr cid) ->
  cid <> EmptyString ->
  cid <> video_id ->
  exists first second,
    set_order [cid; video_id] = [first; second]
    /\ ((first = cid /\ second = video_id)
        \/ (first = video_id /\ second = cid))
    /\ (forall info log1,
           _extract_from_content_id subtitles first url
             (log ++ [mkRequest url [] []])%list = (Ok info, log1) ->
           _real_extract subtitles url log = (Ok info, log1))
    /\ (forall e log1 info log2,
           _extract_from_content_id subtitles first url
             (log ++ [mkRequest url [] []])%list = (Raise e, log1) ->
           is_ExtractorError e = true ->
           is_GeoRestrictedError e = false ->
           _extract_from_content_id subtitles second url log1
           = (Ok info, log2) ->
           _real_extract subtitles url log = (Ok info, log2))
    /\ (forall e log1,
           _extract_from_content_id subtitles first url
             (log ++ [mkRequest url [] []])%list = (Raise e, log1) ->
           is_GeoRestrictedError e = true ->
           _real_extract subtitles url log = (Raise e, log1)).
Proof.
  intros Hid Hpage Hfind Hne Hdiff.
  pose proof (set_order_perm [cid; video_id]) as Hperm.
  apply Permutation_sym, Permutation_length_2_inv in Hperm.
  pose proof (real_extract_loop subtitles url video_id webpage (VStr cid) log
                Hid Hpage Hfind) as Hloop.
  rewrite (two_candidates cid video_id Hne Hdiff) in Hloop.
  destruct Hperm as [Hp|Hp]; rewrite Hp in Hloop;
    [exists cid, video_id|exists video_id, cid];
    (split; [exact Hp|]); (split; [tauto|]); (split; [|split]).
  all: intros; rewrite Hloop; unfold bind.
  1, 4: erewrite first_candidate_returns by eassumption; reflexivity.
  1, 3: erewrite first_candidate_skipped by eassumption;
        erewrite first_candidate_returns by eassumption; reflexivity.
  all: erewrite first_candidate_aborts by (try eassumption; left; assumption);
       reflexivity.
Qed.

(** With sets met in the order of insertion, the record of the example
    page is the one of the id the page gives. *)
Lemma candidates_example :
  exists info,
    @_real_extract (Example.rai_host false) Example.no_subtitles
      Example.rai_url []
    = (Ok (VDict info),
       [ mkRequest Example.rai_url [] [];
         mkRequest (Example.media_address Example.page_id) [] [] ])
    /\ Dict.get "id" info = VStr Example.page_id.
Proof.
  destruct (candidates_tried_in_set_order (Example.rai_host false)
              Example.no_subtitles Example.rai_url Example.url_id
              "<html></html>" Example.page_id []
              eq_refl eq_refl eq_refl)
    as (first & second & Horder & _ & Hok & _).
  - discriminate.
  - discriminate.
  - injection Horder as <- <-.
    eexists. split.
    + apply Hok. vm_compute. reflexivity.
    + reflexivity.
Defined.

(** C8 fails as stated: with sets met in the other order, the page gives
    the id [1ad6dc64-...], the extraction from that id would return, and
    yet the record returned is the one of the id in the address, which was
    tried first. *)
Lemma address_id_tried_before_page_id :
  @find_content_item_id (Example.rai_host true) "<html></html>"
  = Ok (VStr Example.page_id)
  /\ _match_id _VALID_URL Example.rai_url = Ok Example.url_id
  /\ (exists info log,
        @_extract_from_content_id (Example.rai_host true) Example.no_subtitles
          Example.page_id Example.rai_url [ mkRequest Example.rai_url [] [] ]
        = (Ok info, log))
  /\ (exists info,
        @_real_extract (Example.rai_host true) Example.no_subtitles
          Example.rai_url []
        = (Ok (VDict info),
           [ mkRequest Example.rai_url [] [];
             mkRequest (Example.media_address Example.url_id) [] [] ])
        /\ Dict.get "id" info = VStr Example.url_id).
Proof.
  split; [vm_compute; reflexivity|].
  split; [vm_compute; reflexivity|].
  split.
  - eexists. eexists. vm_compute. reflexivity.
  - eexists. split; vm_compute; reflexivity.
Qed.

End Candidates.

(* ================================================================== *)
(** * The trailer pages *)

Module Trailers.

Import AppleTrailersIE.

(** A download of JSON raises extractor errors only. *)
Lemma download_json_raises_extractor_error (H : Host) (url : string)
    (e : exn) (log log' : list request) :
  _download_json url log = (Raise e, log') -> is_ExtractorError e = true.
Proof.
  unfold _download_json, _download_webpage, bind, lift, of_option.
  destruct (urlopen (mkRequest url [] [])) as [page|].
  - destruct (json_loads page); intros Hrun; inversion Hrun; reflexivity.
  - intros Hrun; inversion Hrun; reflexivity.
Qed.

(** C2.  When the download of the settings of a trailer fails, which it
    does with an extractor error, and the trailer info of the page has
    the fields [width] and [height] besides the address [first_url], the
    list of formats is the one format made of these: the address with
    the letter put in, the extension of the address, and the two sizes. *)
Theorem fallback_format_from_page_fields (H : Host)
    (url first_url : string) (trailer_info : Dict.t) (e : exn)
    (log log' : list request) :
  _download_json (settings_url url first_url) log = (Raise e, log') ->
  Dict.mem "width" trailer_info = true ->
  Dict.mem "height" trailer_info = true ->
  trailer_formats url first_url (VDict trailer_info) log
  = (Ok [ [ ("url", VStr (construct_direct_download_url first_url));
            ("format", VStr (Py.last_part (Py.split "." first_url)));
            ("width", int_or_none (Dict.get "width" trailer_info));
            ("height", int_or_none (Dict.get "height" trailer_info)) ] ],
     log').
Proof.
  intros Hfail Hw Hh.
  unfold trailer_formats, try_except_else.
  unfold settings_url in Hfail. rewrite Hfail.
  rewrite (download_json_raises_extractor_error H _ _ _ _ Hfail).
  unfold lift, fallback_formats, Value.item, Dict.item, rbind.
  rewrite Hw, Hh. reflexivity.
Qed.

(** The trailer of the example, whose settings are not served. *)
Lemma fallback_format_example :
  @trailer_formats Example.trailers_host Example.trailers_url
    Example.trailer_address (VDict Example.trailer_info) []
  = (Ok [ [ ("url",
              VStr "http://trailers.apple.com/movies/wb/manofsteel/manofsteel-tlr4_h480p.mov");
            ("format", VStr "mov");
            ("width", VInt 480);
            ("height", VInt 204) ] ],
     [ mkRequest
         "http://trailers.apple.com/trailers/wb/manofsteel/includes/settings/manofsteel-tlr4.json"
         [] [] ]).
Proof.
  exact (fallback_format_from_page_fields Example.trailers_host
           Example.trailers_url Example.trailer_address Example.trailer_info
           fetch_error []
           [ mkRequest
               "http://trailers.apple.com/trailers/wb/manofsteel/includes/settings/manofsteel-tlr4.json"
               [] [] ]
           eq_refl eq_refl eq_refl).
Defined.

Lemma lacks_url_not_truthy (trailer_info : Dict.t) :
  lacks_url trailer_info ->
  Value.truthy (Dict.get "url" trailer_info) = false.
Proof.
  intros [Hmem|[Hnone|Hempty]].
  - rewrite (Livestreamfails.get_absent _ _ Hmem). reflexivity.
  - rewrite Hnone. reflexivity.
  - rewrite Hempty. reflexivity.
Qed.

Section Skipping.

Context {H : Host}.
Variables (url movie uploader_id : string) (li : xml).
Variables (on_click text : string) (trailer_info : Dict.t).

Hypothesis Hclick :
  ET.found_attrib_item "onClick" (ET.find_descendant "a" li) = Ok on_click.
Hypothesis Hsearch :
  _search_regex _JSON_RE on_click "trailer info" "1" None true
  = Ok (VStr text).
Hypothesis Hloads : json_loads text = Some (VDict trailer_info).
Hypothesis Hlacks : lacks_url trailer_info.

Lemma entry_skipped (log : list request) :
  trailer_entry url movie uploader_id li log = (Ok None, log).
Proof.
  unfold trailer_entry.
  cbv beta iota zeta delta [bind lift ret of_option Value.get Value.as_str].
  step Hclick. step Hsearch.
  step Hloads.
  rewrite (lacks_url_not_truthy _ Hlacks). reflexivity.
Qed.

Lemma entries_skip (before after : list xml) :
  forall (playlist : list value) (log : list request),
    entries url movie uploader_id (before ++ li :: after) playlist log
    = entries url movie uploader_id (before ++ after) playlist log.
Proof.
  induction before as [|x before IH]; intros playlist log.
  - cbn [app entries]. unfold bind. rewrite entry_skipped. reflexivity.
  - cbn [app entries]. unfold bind.
    destruct (trailer_entry url movie uploader_id x log) as [[[e|]|err] log1];
      [apply IH|apply IH|reflexivity].
Qed.

End Skipping.

(** C9.  For an item of the playlist whose trailer info is found and
    read and has no value for [url] (the key is absent, or its value is
    [None] or the empty string), the turn of the loop ends without an
    entry, without an error and without a request, and the loop over the
    items gives what it gives without that item. *)
Theorem item_without_url_is_skipped (H : Host)
    (url movie uploader_id : string) (li : xml) (on_click text : string)
    (trailer_info : Dict.t) :
  ET.found_attrib_item "onClick" (ET.find_descendant "a" li) = Ok on_click ->
  _search_regex _JSON_RE on_click "trailer info" "1" None true
  = Ok (VStr text) ->
  json_loads text = Some (VDict trailer_info) ->
  lacks_url trailer_info ->
  (forall log, trailer_entry url movie uploader_id li log = (Ok None, log))
  /\ (forall before after playlist log,
         entries url movie uploader_id (before ++ li :: after) playlist log
         = entries url movie uploader_id (before ++ after) playlist log).
Proof.
  intros Hclick Hsearch Hloads Hlacks. split.
  - intros log. eapply entry_skipped; eassumption.
  - intros before after. eapply entries_skip; eassumption.
Qed.

(** The teaser of the example has no [url]: its turn gives no entry, and
    the playlist of the two items is the playlist of the trailer alone. *)
Lemma item_without_url_example :
  @trailer_entry Example.trailers_host Example.trailers_url "manofsteel"
    "wb" Example.teaser_item [] = (Ok None, [])
  /\ @entries Example.trailers_host Example.trailers_url "manofsteel" "wb"
       ([Example.trailer_item] ++ Example.teaser_item :: []) [] []
     = @entries Example.trailers_host Example.trailers_url "manofsteel" "wb"
         ([Example.trailer_item] ++ []) [] [].
Proof.
  destruct (item_without_url_is_skipped Example.trailers_host
              Example.trailers_url "manofsteel" "wb" Example.teaser_item
              "iTunes.playURL(<info of the teaser>);" "<info of the teaser>"
              Example.teaser_info eq_refl eq_refl eq_refl
              (or_introl eq_refl))
    as [Hskip Hloop].
  split.
  - apply Hskip.
  - apply Hloop.
Defined.

End Trailers.

(* ================================================================== *)
(** * The order of formats *)

Module Sorting.

Lemma key_le_refl (a : list Z) : key_le a a = true.
Proof.
  induction a as [|x a IH]; simpl; [reflexivity|].
  rewrite Z.eqb_refl, IH. apply orb_true_r.
Qed.

Lemma key_le_total (a b : list Z) : key_le a b = false -> key_le b a = true.
Proof.
  revert b; induction a as [|x a IH]; intros [|y b]; simpl; try discriminate;
    try reflexivity.
  intros Hle. apply orb_false_iff in Hle as [Hlt Heq].
  apply Z.ltb_ge in Hlt.
  destruct (Z.eqb_spec x y) as [->|Hne].
  - simpl in Heq. rewrite Z.eqb_refl, (IH _ Heq). apply orb_true_r.
  - assert (Hyx : (y <? x)%Z = true) by (apply Z.ltb_lt; lia).
    rewrite Hyx. reflexivity.
Qed.

Section WithHost.

Context {H : Host}.

Lemma insert_perm (f : format) (fs : list format) :
  Permutation (insert_format f fs) (f :: fs).
Proof.
  induction fs as [|g fs IH]; simpl; [reflexivity|].
  destruct (format_le f g); [reflexivity|].
  rewrite IH. apply perm_swap.
Qed.

Lemma sort_perm (fs : list format) : Permutation (_sort_formats fs) fs.
Proof.
  induction fs as [|f fs IH]; simpl; [reflexivity|].
  rewrite insert_perm. apply perm_skip, IH.
Qed.

Lemma insert_head (f : format) (fs : list format) (g : format) :
  format_order g f -> HdRel format_order g fs ->
  HdRel format_order g (insert_format f fs).
Proof.
  intros Hgf Hhd. destruct fs as [|h fs]; simpl.
  - constructor. exact Hgf.
  - destruct (format_le f h); constructor; [exact Hgf|].
    inversion Hhd; assumption.
Qed.

Lemma insert_sorted (f : format) (fs : list format) :
  Sorted format_order fs -> Sorted format_order (insert_format f fs).
Proof.
  induction fs as [|g fs IH]; simpl; intros Hs.
  - repeat constructor.
  - destruct (format_le f g) eqn:Hle.
    + constructor; [exact Hs|]. constructor. exact Hle.
    + apply Sorted_inv in Hs as [Hs Hhd].
      constructor; [apply IH, Hs|].
      apply insert_head; [|exact Hhd].
      apply key_le_total, Hle.
Qed.

Lemma sort_sorted (fs : list format) : Sorted format_order (_sort_formats fs).
Proof.
  induction fs as [|f fs IH]; simpl; [constructor|].
  apply insert_sorted, IH.
Qed.

Lemma sort_of_sorted (fs : list format) :
  Sorted format_order fs -> _sort_formats fs = fs.
Proof.
  induction fs as [|f fs IH]; simpl; intros Hs; [reflexivity|].
  apply Sorted_inv in Hs as [Hs Hhd]. rewrite (IH Hs).
  destruct fs as [|g fs]; [reflexivity|].
  simpl. inversion Hhd as [|? ? Hfg]; subst.
  unfold format_order in Hfg. rewrite Hfg. reflexivity.
Qed.

Lemma insert_keeps_ties (k : list Z) (f : format) (fs : list format) :
  filter (has_key k) (insert_format f fs) = filter (has_key k) (f :: fs).
Proof.
  induction fs as [|g fs IH]; [reflexivity|].
  cbn [insert_format]. destruct (format_le f g) eqn:Hle; [reflexivity|].
  cbn [filter] in *. rewrite IH.
  unfold has_key.
  destruct (list_eq_dec Z.eq_dec (format_key f) k) as [Hf|Hf];
    destruct (list_eq_dec Z.eq_dec (format_key g) k) as [Hg|Hg];
    try reflexivity.
  exfalso. unfold format_le in Hle. rewrite Hf, Hg, key_le_refl in Hle.
  discriminate.
Qed.

Lemma sort_keeps_ties (k : list Z) (fs : list format) :
  filter (has_key k) (_sort_formats fs) = filter (has_key k) fs.
Proof.
  induction fs as [|f fs IH]; [reflexivity|].
  cbn [_sort_formats fold_right]. rewrite insert_keeps_ties.
  cbn [filter]. fold (_sort_formats fs). rewrite IH. reflexivity.
Qed.

End WithHost.

(** C7.  The sort of the formats gives a list that is in the order of
    the key (height and width, then bitrate, then the preference of the
    container), that has the formats of the input, and in which formats
    of one key stand in the order of the input; sorting the result again
    gives the same list.  The list of formats the trailer extractor makes
    from the settings, and the one the NRK TV extractor makes from the
    page, are sorted lists that a second sort leaves as they are. *)
Theorem sort_formats_deterministic (H : Host) :
  (forall fs : list format,
      Sorted format_order (_sort_formats fs)
      /\ Permutation (_sort_formats fs) fs
      /\ (forall k, filter (has_key k) (_sort_formats fs)
                    = filter (has_key k) fs)
      /\ _sort_formats (_sort_formats fs) = _sort_formats fs)
  /\ (forall (settings : value) (formats : list format),
         AppleTrailersIE.settings_formats settings = Ok formats ->
         Sorted format_order formats /\ _sort_formats formats = formats)
  /\ (forall page : string,
         let formats := _sort_formats (NRKTVIE.page_formats page) in
         Sorted format_order formats /\ _sort_formats formats = formats).
Proof.
  split; [|split].
  - intros fs. split; [apply sort_sorted|]. split; [apply sort_perm|].
    split; [intros k; apply sort_keeps_ties|].
    apply sort_of_sorted, sort_sorted.
  - intros settings formats. unfold AppleTrailersIE.settings_formats, rbind.
    destruct (Value.item "metadata" settings) as [metadata|]; [|discriminate].
    destruct (Value.item "sizes" metadata) as [sizes|]; [|discriminate].
    destruct (Value.iterate sizes) as [l|]; [|discriminate].
    destruct (AppleTrailersIE.size_formats l []) as [fs|]; [|discriminate].
    intros Hok; inversion Hok; subst.
    split; [apply sort_sorted|apply sort_of_sorted, sort_sorted].
  - intros page formats.
    split; [apply sort_sorted|apply sort_of_sorted, sort_sorted].
Qed.

End Sorting.

(* ================================================================== *)
(** * The tests of the source, run on the embedding *)

Module SourceTests.

Import Re.

(** The addresses of [_TESTS] match the pattern of their extractor, with
    the identifier the tests expect. *)
Lemma test_urls_match :
  matched AppleTrailersIE._VALID_URL "movie"
    "http://trailers.apple.com/trailers/wb/manofsteel/" = Some "manofsteel"
  /\ matched AppleTrailersIE._VALID_URL "company"
       "http://trailers.apple.com/trailers/wb/manofsteel/" = Some "wb"
  /\ matched AppleTrailersIE._VALID_URL "movie"
       "http://trailers.apple.com/trailers/magnolia/blackthorn/"
     = Some "blackthorn"
  /\ matched AppleTrailersIE._VALID_URL "movie"
       "http://trailers.apple.com/ca/metropole/autrui/" = Some "autrui"
  /\ matched AppleTrailersSectionIE._VALID_URL "id"
       "http://trailers.apple.com/#section=moviestudios"
     = Some "moviestudios"
  /\ matched LivestreamfailsIE._VALID_URL "id"
       "https://livestreamfails.com/clip/139200" = Some "139200"
  /\ matched NRKIE._VALID_URL "id"
       "http://www.nrk.no/lyd/lyd_av_oppleser_for_blinde/AEFDDD5473BA0198/"
     = Some "AEFDDD5473BA0198"
  /\ matched NRKTVIE._VALID_URL "id"
       "http://tv.nrk.no/serie/20-spoersmaal-tv/MUHH48000314/23-05-2014"
     = Some "MUHH48000314"
  /\ matched NRKTVIE._VALID_URL "id" "http://tv.nrk.no/program/mdfp15000514"
     = Some "mdfp15000514"
  /\ matched RaiPlayIE._VALID_URL "id"
       "http://www.raiplay.it/video/2016/11/gazebotraindesi-efebe701-969c-4593-92f3-285f0d1ce750.html?"
     = Some "efebe701-969c-4593-92f3-285f0d1ce750"
  /\ matched RaiPlayLiveIE._VALID_URL "id"
       "http://www.raiplay.it/dirette/rainews24" = Some "rainews24"
  /\ matched RaiPlayPlaylistIE._VALID_URL "id"
       "http://www.raiplay.it/programmi/nondirloalmiocapo/"
     = Some "nondirloalmiocapo"
  /\ matched RaiIE._VALID_URL "id"
       "http://www.tg1.rai.it/dl/tg1/2010/edizioni/ContentSet-9b6e0cba-4bef-4aef-8cf0-9f7f665b7dfb-tg1.html?item=undefined"
     = Some "9b6e0cba-4bef-4aef-8cf0-9f7f665b7dfb"
  /\ matched RaiIE._VALID_URL "id"
       "https://www.rainews.it/tgr/marche/notiziari/video/2019/02/ContentItem-6ba945a2-889c-4a80-bdeb-8489c70a8db9.html"
     = Some "6ba945a2-889c-4a80-bdeb-8489c70a8db9"
  /\ matched RaiPlayRadioIE._VALID_URL "id"
       "https://www.raiplayradio.it/audio/2019/07/RADIO3---LEZIONI-DI-MUSICA-36b099ff-4123-4443-9bf9-38e43ef5e025.html"
     = Some "36b099ff-4123-4443-9bf9-38e43ef5e025"
  /\ matched RaiPlayRadioPlaylistIE._VALID_URL "id"
       "https://www.raiplayradio.it/playlist/2017/12/Alice-nel-paese-delle-meraviglie-72371d3c-d998-49f3-8860-d168cfdf4966.html"
     = Some "72371d3c-d998-49f3-8860-d168cfdf4966".
Proof. repeat split; vm_compute; reflexivity. Qed.

(** The address of the test of [ertflix.py] has a language in its path
    and does not match the pattern of the extractor. *)
Lemma ertflix_test_url_does_not_match :
  re_match ErtflixIE._VALID_URL
    "https://www.ertflix.gr/en/vod/vod.130833-the-incredible-story-of-the-giant-pear-i-apisteyti-istoria-toy-gigantioy-achladioy"
  = None
  /\ matched ErtflixIE._VALID_URL "id" "https://www.ertflix.gr/vod/vod.130833"
     = Some "vod.130833".
Proof. split; vm_compute; reflexivity. Qed.

(** The first trailer of the test of [appletrailers.py], with settings
    that are not served: the entry has the id, the duration, the date and
    the uploader the test expects, and one format. *)
Lemma trailer_page_entry :
  @AppleTrailersIE._real_extract Example.trailers_host Example.trailers_url []
  = (Ok (VDict
      [ ("_type", VStr "playlist");
        ("id", VStr "manofsteel");
        ("entries",
          VList
            [ VDict
                [ ("_type", VStr "video");
                  ("id", VStr "manofsteel-trailer4");
                  ("formats",
                    VList
                      [ VDict
                          [ ("url",
                              VStr "http://trailers.apple.com/movies/wb/manofsteel/manofsteel-tlr4_h480p.mov");
                            ("format", VStr "mov");
                            ("width", VInt 480);
                            ("height", VInt 204) ] ]);
                  ("title", VStr "Trailer 4");
                  ("duration", VInt 111);
                  ("thumbnail", VStr "http://trailers.apple.com/wb/poster4.jpg");
                  ("upload_date", VStr "20130523");
                  ("uploader_id", VStr "wb");
                  ("http_headers",
                    VDict [ ("User-Agent",
                             VStr "QuickTime compatible (youtube-dl)") ]) ] ]) ]),
     [ mkRequest
         "http://trailers.apple.com/trailers/wb/manofsteel/includes/playlists/itunes.inc"
         [] [];
       mkRequest
         "http://trailers.apple.com/trailers/wb/manofsteel/includes/settings/manofsteel-tlr4.json"
         [] [] ]).
Proof. vm_compute. reflexivity. Qed.

End SourceTests.

(* ================================================================== *)
(* THMS *)
Module ReLangFacts.

Import Re ReLang.

Lemma append_length (a b : string) :
  String.length (a ++ b) = String.length a + String.length b.
Proof. induction a as [|x a IH]; simpl; auto. Qed.

Lemma append_empty_r (a : string) : a ++ "" = a.
Proof. induction a as [|x a IH]; simpl; congruence. Qed.

Lemma append_assoc (a b c : string) : (a ++ b) ++ c = a ++ b ++ c.
Proof. induction a as [|x a IH]; simpl; congruence. Qed.

Lemma substring_app (t s' : string) :
  substring 0 (String.length t) (t ++ s') = t.
Proof.
  induction t as [|x t IH]; simpl; [destruct s'; reflexivity|congruence].
Qed.

(** The text in front of a suffix. *)
Lemma consumed_app (t s' : string) : consumed (t ++ s') s' = t.
Proof.
  unfold consumed. rewrite append_length.
  replace (String.length t + String.length s' - String.length s')
    with (String.length t) by lia.
  apply substring_app.
Qed.

Lemma prefix_drop (v s : string) :
  prefix v s = true -> s = v ++ drop (String.length v) s.
Proof.
  revert s; induction v as [|x v IH]; intros [|y s] Hp; simpl in *;
    try reflexivity; try discriminate.
  destruct (ascii_dec x y) as [->|]; [|discriminate].
  f_equal. apply IH, Hp.
Qed.

(** A match consumes a text of the pattern from the front of the
    subject. *)
Lemma run_matches (subject : string) (r : regex) :
  forall s c s' c',
    In (s', c') (run subject r s c) ->
    exists t, s = t ++ s' /\ matches r t.
Proof.
  induction r as [|p|a IHa b IHb|a IHa b IHb|g r IH|n r IH| |n|r IH];
    intros s c s' c' Hin; simpl in *.
  - destruct Hin as [E|[]]; inversion E; subst.
    exists ""; split; [reflexivity|constructor].
  - destruct s as [|x s]; [destruct Hin|].
    destruct (p x) eqn:Hp; [|destruct Hin].
    destruct Hin as [E|[]]; inversion E; subst.
    exists (String x ""); split; [reflexivity|constructor; exact Hp].
  - apply in_flat_map in Hin as [[s1 c1] [H1 H2]]; simpl in H2.
    destruct (IHa _ _ _ _ H1) as [t [-> Ht]], (IHb _ _ _ _ H2) as [u [-> Hu]].
    exists (t ++ u); split; [symmetry; apply append_assoc|constructor; assumption].
  - apply in_app_iff in Hin as [Hin|Hin].
    + destruct (IHa _ _ _ _ Hin) as [t [-> Ht]].
      exists t; split; [reflexivity|apply matches_alt_l, Ht].
    + destruct (IHb _ _ _ _ Hin) as [t [-> Ht]].
      exists t; split; [reflexivity|apply matches_alt_r, Ht].
  - revert Hin.
    apply (ReFacts.star_loop_invariant (run subject r) g
             (fun s _ s' _ => exists t, s = t ++ s' /\ matches (Star g r) t)).
    + intros s0 _. exists ""; split; [reflexivity|constructor].
    + intros s0 c0 s1 c1 s2 c2 H1 _ [u [-> Hu]].
      destruct (IH _ _ _ _ H1) as [t [-> Ht]].
      exists (t ++ u); split; [symmetry; apply append_assoc|].
      constructor; assumption.
  - apply in_map_iff in Hin as [[s1 c1] [E Hin]]; inversion E; subst.
    destruct (IH _ _ _ _ Hin) as [t [-> Ht]].
    exists t; split; [reflexivity|constructor; exact Ht].
  - destruct (at_boundary subject s); [|destruct Hin].
    destruct Hin as [E|[]]; inversion E; subst.
    exists ""; split; [reflexivity|constructor].
  - destruct (lookup n c) as [v|]; [|destruct Hin].
    destruct (prefix v s) eqn:Hp; [|destruct Hin].
    destruct Hin as [E|[]]; inversion E; subst.
    exists v; split; [apply prefix_drop, Hp|constructor].
  - destruct (run subject r s c); [|destruct Hin].
    destruct Hin as [E|[]]; inversion E; subst.
    exists ""; split; [reflexivity|constructor].
Qed.

(** The text of a group after a match is the text the group had before,
    or a text of one of the patterns of the group. *)
Lemma run_group (name subject : string) (r : regex) :
  forall s c s' c' v,
    In (s', c') (run subject r s c) ->
    lookup name c' = Some v ->
    lookup name c = Some v
    \/ exists body, In body (group_bodies name r) /\ matches body v.
Proof.
  induction r as [|p|a IHa b IHb|a IHa b IHb|g r IH|n r IH| |n|r IH];
    intros s c s' c' v Hin Hv; simpl in *.
  - destruct Hin as [E|[]]; inversion E; subst; auto.
  - destruct s as [|x s]; [destruct Hin|].
    destruct (p x); [|destruct Hin].
    destruct Hin as [E|[]]; inversion E; subst; auto.
  - apply in_flat_map in Hin as [[s1 c1] [H1 H2]]; simpl in H2.
    destruct (IHb _ _ _ _ _ H2 Hv) as [Hv1|[body [Hb Hm]]].
    + destruct (IHa _ _ _ _ _ H1 Hv1) as [Hv0|[body [Hb Hm]]]; auto.
      right; exists body; split; [apply in_or_app; auto|exact Hm].
    + right; exists body; split; [apply in_or_app; auto|exact Hm].
  - apply in_app_iff in Hin as [Hin|Hin].
    + destruct (IHa _ _ _ _ _ Hin Hv) as [Hv0|[body [Hb Hm]]]; auto.
      right; exists body; split; [apply in_or_app; auto|exact Hm].
    + destruct (IHb _ _ _ _ _ Hin Hv) as [Hv0|[body [Hb Hm]]]; auto.
      right; exists body; split; [apply in_or_app; auto|exact Hm].
  - revert Hv. revert Hin.
    apply (ReFacts.star_loop_invariant (run subject r) g
             (fun _ c _ c' =>
                lookup name c' = Some v ->
                lookup name c = Some v
                \/ exists body, In body (group_bodies name r)
                                /\ matches body v)).
    + auto.
    + intros s0 c0 s1 c1 s2 c2 H1 _ Hrest Hv.
      destruct (Hrest Hv) as [Hv1|Hb]; [|auto].
      apply (IH _ _ _ _ _ H1 Hv1).
  - apply in_map_iff in Hin as [[s1 c1] [E Hin]]; inversion E; subst.
    simpl in Hv. destruct (String.eqb n name) eqn:En.
    + inversion Hv; subst. right.
      destruct (run_matches _ _ _ _ _ _ Hin) as [t [-> Ht]].
      rewrite consumed_app.
      exists r; split; [left; reflexivity|exact Ht].
    + destruct (IH _ _ _ _ _ Hin Hv) as [Hv0|[body [Hb Hm]]]; auto.
      right; exists body; split; [exact Hb|exact Hm].
  - destruct (at_boundary subject s); [|destruct Hin].
    destruct Hin as [E|[]]; inversion E; subst; auto.
  - destruct (lookup n c) as [w|]; [|destruct Hin].
    destruct (prefix w s); [|destruct Hin].
    destruct Hin as [E|[]]; inversion E; subst; auto.
  - destruct (run subject r s c); [|destruct Hin].
    destruct Hin as [E|[]]; inversion E; subst; auto.
Qed.

Lemma match_at_group (name subject : string) (r : regex) (s : string)
    (m : match_object) (v : string) :
  match_at subject r s = Some m ->
  group name m = Some v ->
  exists body, In body (group_bodies name r) /\ matches body v.
Proof.
  unfold match_at, group; intros Hm Hv.
  destruct (run subject r s []) as [|[s' c'] l] eqn:E; [discriminate|].
  inversion Hm; subst; simpl in Hv.
  destruct (run_group name subject r s [] s' c' v) as [Hv0|Hb]; auto.
  - rewrite E; left; reflexivity.
  - discriminate.
Qed.

(** [re.match]: the text of a group is a text of a pattern of the group. *)
Lemma match_group (name : string) (r : regex) (s : string)
    (m : match_object) (v : string) :
  re_match r s = Some m ->
  group name m = Some v ->
  exists body, In body (group_bodies name r) /\ matches body v.
Proof. apply match_at_group. Qed.



(** [re.match] consumes a text of the pattern from the front. *)
Lemma match_prefix (r : regex) (s : string) (m : match_object) :
  re_match r s = Some m -> exists t, s = t ++ fst m /\ matches r t.
Proof.
  unfold re_match, match_at; intros Hm.
  destruct (run s r s []) as [|[s' c'] l] eqn:E; [discriminate|].
  inversion Hm; subst; simpl.
  apply (run_matches s r s [] s' c'). rewrite E; left; reflexivity.
Qed.

Lemma match_at_matches (subject : string) (r : regex) (s : string)
    (m : match_object) :
  match_at subject r s = Some m -> exists t, s = t ++ fst m /\ matches r t.
Proof.
  unfold match_at; intros Hm.
  destruct (run subject r s []) as [|[s' c'] l] eqn:E; [discriminate|].
  inversion Hm; subst; simpl.
  apply (run_matches subject r s [] s' c'). rewrite E; left; reflexivity.
Qed.

(** [re.search] finds a text of the pattern somewhere in the subject. *)
Lemma search_matches (r : regex) (s : string) (m : match_object) :
  re_search r s = Some m ->
  exists front t, s = front ++ t ++ fst m /\ matches r t.
Proof.
  unfold re_search. generalize s at 1. intros subject.
  induction s as [|a s IH]; simpl; intros Hm.
  - destruct (match_at subject r "") as [m'|] eqn:E; [|discriminate].
    inversion Hm; subst.
    destruct (match_at_matches _ _ _ _ E) as [t [Ht Hr]].
    exists "", t; auto.
  - destruct (match_at subject r (String a s)) as [m'|] eqn:E.
    + inversion Hm; subst.
      destruct (match_at_matches _ _ _ _ E) as [t [Ht Hr]].
      exists "", t; auto.
    + destruct (IH Hm) as (front & t & -> & Hr).
      exists (String a front), t; auto.
Qed.

End ReLangFacts.

(* ================================================================== *)
Module PatternFacts.

Import Re ReLang ReLangFacts.

(** The texts of some shapes of pattern. *)
Lemma matches_lit (w t : string) : matches (lit w) t -> t = w.
Proof.
  revert t; induction w as [|x w IH]; intros t Hm; simpl in Hm.
  - inversion Hm; reflexivity.
  - inversion Hm as [| |a b t1 t2 H1 H2| | | | | | | |]; subst.
    inversion H1 as [|p a Hp| | | | | | | | |]; subst.
    apply Ascii.eqb_eq in Hp; subst. simpl. f_equal. apply IH, H2.
Qed.

Lemma all_chars_app (p : ascii -> bool) (a b : string) :
  Py.all_chars p (a ++ b) = Py.all_chars p a && Py.all_chars p b.
Proof.
  induction a as [|x a IH]; simpl; [reflexivity|].
  rewrite IH. apply andb_assoc.
Qed.

Lemma matches_chr (p : ascii -> bool) (t : string) :
  matches (Chr p) t -> exists a, t = String a "" /\ p a = true.
Proof. intros Hm; inversion Hm; subst; eauto. Qed.

Lemma matches_star_chr (g : bool) (p : ascii -> bool) (t : string) :
  matches (Star g (Chr p)) t -> Py.all_chars p t = true.
Proof.
  intros Hm. remember (Star g (Chr p)) as r eqn:Er.
  induction Hm; try discriminate; [reflexivity|].
  inversion Er; subst.
  apply matches_chr in Hm1 as [a [-> Ha]].
  simpl. rewrite Ha. auto.
Qed.


Lemma matches_lazy_plus_chr (p : ascii -> bool) (t : string) :
  matches (lazy_plus (Chr p)) t ->
  exists a u, t = String a u /\ p a = true /\ Py.all_chars p u = true.
Proof.
  unfold lazy_plus; intros Hm.
  inversion Hm as [| |a b t1 t2 H1 H2| | | | | | | |]; subst.
  apply matches_chr in H1 as [x [-> Hx]].
  apply matches_star_chr in H2. simpl. eauto.
Qed.

Lemma matches_times_chr (n : nat) (p : ascii -> bool) (t : string) :
  matches (times n (Chr p)) t ->
  String.length t = n /\ Py.all_chars p t = true.
Proof.
  revert t; induction n as [|n IH]; intros t Hm; simpl in Hm.
  - inversion Hm; subst; auto.
  - inversion Hm as [| |a b t1 t2 H1 H2| | | | | | | |]; subst.
    apply matches_chr in H1 as [x [-> Hx]].
    destruct (IH _ H2) as [Hl Ha].
    simpl. rewrite Hx, Hl, Ha. auto.
Qed.

Lemma matches_seq (a b : regex) (t : string) :
  matches (Seq a b) t ->
  exists t1 t2, t = t1 ++ t2 /\ matches a t1 /\ matches b t2.
Proof. intros Hm; inversion Hm; subst; eauto. Qed.

Lemma matches_alt (a b : regex) (t : string) :
  matches (Alt a b) t -> matches a t \/ matches b t.
Proof. intros Hm; inversion Hm; subst; auto. Qed.

Lemma matches_group_inv (n : string) (r : regex) (t : string) :
  matches (Group n r) t -> matches r t.
Proof. intros Hm; inversion Hm; subst; auto. Qed.

Lemma matches_eps (t : string) : matches Eps t -> t = "".
Proof. intros Hm; inversion Hm; reflexivity. Qed.


End PatternFacts.

(* ================================================================== *)
Module Ertflix.

Import Re ReLang ReLangFacts PatternFacts.
Import ErtflixIE.






End Ertflix.

(* ================================================================== *)
Module TrailerSections.

Import Re ReLang ReLangFacts PatternFacts.
Import AppleTrailersSectionIE.

(** The identifier of a matching address is a key of [_SECTIONS]. *)
Lemma section_is_listed (url section : string) :
  _match_id _VALID_URL url = Ok section ->
  exists feed title,
    In (section, (feed, title)) _SECTIONS
    /\ sections_item section = Ok (feed, title).
Proof.
  unfold _match_id. destruct (re_match _VALID_URL url) as [m|] eqn:Em;
    [|discriminate].
  destruct (group "id" m) as [v|] eqn:Ev; [|discriminate].
  intros E; inversion E; subst; clear E.
  destruct (match_group "id" _ _ _ _ Em Ev) as [body [Hb Hbody]].
  cbn in Hb. destruct Hb as [<-|[]].
  repeat (apply matches_alt in Hbody as [Hbody|Hbody]);
    [ apply (matches_lit "justadded") in Hbody
    | apply (matches_lit "exclusive") in Hbody
    | apply (matches_lit "justhd") in Hbody
    | apply (matches_lit "mostpopular") in Hbody
    | apply (matches_lit "moviestudios") in Hbody ];
    subst section; do 2 eexists; (split; [|reflexivity]);
    unfold _SECTIONS; simpl; tauto.
Qed.

(** X2.  For every address the section pattern accepts, the section it
    names is a key of [_SECTIONS], so that [_SECTIONS[section]] does not
    raise, and the extraction sends one request, for the feed of that
    section, whatever comes of it. *)
Theorem section_feed_is_requested (H : Host)
    (url_result : string -> value)
    (playlist_result : list value -> string -> string -> value)
    (url section : string) (log : list request) :
  _match_id _VALID_URL url = Ok section ->
  exists feed title,
    In (section, (feed, title)) _SECTIONS
    /\ sections_item section = Ok (feed, title)
    /\ snd (_real_extract url_result playlist_result url log)
       = (log ++ [mkRequest (feed_url feed) [] []])%list.
Proof.
  intros Hid.
  destruct (section_is_listed url section Hid) as (feed & title & Hin & Hitem).
  exists feed, title. split; [exact Hin|]. split; [exact Hitem|].
  unfold _real_extract.
  cbv beta iota zeta delta [bind lift ret _download_json _download_webpage].
  rewrite Hid. cbv beta iota. rewrite Hitem. cbv beta iota. cbn [fst snd].
  destruct (urlopen (mkRequest (feed_url feed) [] [])) as [page|];
    cbn [of_option]; [|reflexivity].
  destruct (json_loads page) as [data|]; cbn [of_option]; [|reflexivity].
  destruct (Value.iterate data) as [l|e]; [|reflexivity].
  destruct (section_entries url_result l) as [entries|e]; reflexivity.
Qed.

(** The section [justhd]: its feed is [just_hd.json]. *)
Lemma section_feed_example :
  exists feed title,
    In ("justhd", (feed, title)) _SECTIONS
    /\ sections_item "justhd" = Ok (feed, title)
    /\ snd (@_real_extract Example.section_host Example.url_entry
              Example.playlist Example.section_url [])
       = ([] ++ [mkRequest (feed_url feed) [] []])%list.
Proof.
  exact (section_feed_is_requested Example.section_host Example.url_entry
           Example.playlist Example.section_url "justhd" [] eq_refl).
Defined.

Section Entries.

Variable url_result : string -> value.

Lemma entries_of_locations (data : list value) (locations : list string) :
  Forall2 (fun e location => Value.item "location" e = Ok (VStr location))
          data locations ->
  section_entries url_result data = Ok (map (entry_of url_result) locations).
Proof.
  induction 1 as [|e location data locations He _ IH]; [reflexivity|].
  cbn [section_entries]. unfold section_entry at 1.
  rewrite He. cbn [rbind Value.as_str]. rewrite IH. reflexivity.
Qed.

Lemma entries_stop (good : list value) (locations : list string)
    (bad : value) (rest : list value) (e : exn) :
  Forall2 (fun e location => Value.item "location" e = Ok (VStr location))
          good locations ->
  Value.item "location" bad = Raise e ->
  section_entries url_result (good ++ bad :: rest) = Raise e.
Proof.
  induction 1 as [|x location good locations Hx _ IH]; intros Hbad.
  - cbn [app section_entries]. unfold section_entry. rewrite Hbad.
    reflexivity.
  - cbn [app section_entries]. unfold section_entry at 1.
    rewrite Hx. cbn [rbind Value.as_str]. rewrite (IH Hbad). reflexivity.
Qed.

End Entries.

(** X3.  When the feed of the section is a list whose members all have a
    text under [location], the playlist has one entry for each member, in
    the order of the feed, each for the address of the site followed by
    the location.  When a member has no [location], the extraction raises
    [KeyError] and gives no playlist. *)
Theorem section_playlist_follows_feed (H : Host)
    (url_result : string -> value)
    (playlist_result : list value -> string -> string -> value)
    (url section feed title page : string) (log : list request)
    (data : list value) :
  _match_id _VALID_URL url = Ok section ->
  sections_item section = Ok (feed, title) ->
  urlopen (mkRequest (feed_url feed) [] []) = Some page ->
  json_loads page = Some (VList data) ->
  (forall locations,
      Forall2 (fun e location => Value.item "location" e = Ok (VStr location))
              data locations ->
      fst (_real_extract url_result playlist_result url log)
      = Ok (playlist_result (map (entry_of url_result) locations)
                            section title))
  /\ (forall good locations d rest,
         data = (good ++ VDict d :: rest)%list ->
         Forall2 (fun e location =>
                    Value.item "location" e = Ok (VStr location))
                 good locations ->
         Dict.mem "location" d = false ->
         fst (_real_extract url_result playlist_result url log)
         = Raise (KeyError "location")).
Proof.
  intros Hid Hitem Hpage Hdata.
  assert (Hrun : forall r,
             section_entries url_result data = r ->
             fst (_real_extract url_result playlist_result url log)
             = match r with
               | Ok entries => Ok (playlist_result entries section title)
               | Raise e => Raise e
               end).
  { intros r Hr. unfold _real_extract.
    cbv beta iota zeta delta [bind lift ret _download_json _download_webpage].
    rewrite Hid. cbv beta iota. rewrite Hitem. cbv beta iota. cbn [fst snd].
    rewrite Hpage. cbn [of_option]. rewrite Hdata. cbn [of_option Value.iterate].
    rewrite Hr. destruct r; reflexivity. }
  split.
  - intros locations Hall.
    apply (Hrun _ (entries_of_locations url_result data locations Hall)).
  - intros good locations d rest -> Hall Hd.
    apply (Hrun (Raise (KeyError "location"))).
    apply (entries_stop url_result good locations (VDict d) rest _ Hall).
    unfold Value.item, Dict.item. rewrite Hd. reflexivity.
Qed.

(** A feed of two trailers, and a feed whose second member has no
    location. *)
Lemma section_playlist_example :
  fst (@_real_extract Example.section_host Example.url_entry
         Example.playlist Example.section_url [])
  = Ok (Example.playlist
          [ Example.url_entry
              "http://trailers.apple.com/trailers/wb/manofsteel/";
            Example.url_entry
              "http://trailers.apple.com/trailers/magnolia/blackthorn/" ]
          "justhd" "Just HD")
  /\ fst (@_real_extract Example.broken_section_host Example.url_entry
            Example.playlist Example.section_url [])
     = Raise (KeyError "location").
Proof.
  split.
  - apply (proj1 (section_playlist_follows_feed Example.section_host
                    Example.url_entry Example.playlist
                    Example.section_url "justhd" "just_hd" "Just HD"
                    "<feed>" [] Example.section_data
                    eq_refl eq_refl eq_refl eq_refl)
             [ "/trailers/wb/manofsteel/"; "/trailers/magnolia/blackthorn/" ]).
    repeat constructor.
  - apply (proj2 (section_playlist_follows_feed Example.broken_section_host
                    Example.url_entry Example.playlist
                    Example.section_url "justhd" "just_hd" "Just HD"
                    "<feed>" [] Example.broken_section_data
                    eq_refl eq_refl eq_refl eq_refl)
             [ VDict [ ("location", VStr "/trailers/wb/manofsteel/") ] ]
             [ "/trailers/wb/manofsteel/" ]
             [ ("title", VStr "Blackthorn") ] []);
      [reflexivity|repeat constructor|reflexivity].
Defined.

End TrailerSections.

(* ================================================================== *)
Module RaiIdentifiers.

Import Re ReLang ReLangFacts PatternFacts.
Import RaiBaseIE RaiPatterns.

Lemma uuid_matches (t : string) : matches _UUID_RE t -> uuid_text t.
Proof.
  unfold _UUID_RE, seqs; cbn [fold_right]. intros Hm.
  apply matches_seq in Hm as (a & t1 & -> & Ha & Hm).
  apply matches_seq in Hm as (d1 & t2 & -> & Hd1 & Hm).
  apply matches_seq in Hm as (b & t3 & -> & Hb & Hm).
  apply matches_seq in Hm as (d2 & t4 & -> & Hd2 & Hm).
  apply matches_seq in Hm as (c & t5 & -> & Hc & Hm).
  apply matches_seq in Hm as (d3 & t6 & -> & Hd3 & Hm).
  apply matches_seq in Hm as (d & t7 & -> & Hd & Hm).
  apply matches_seq in Hm as (d4 & t8 & -> & Hd4 & Hm).
  apply matches_seq in Hm as (e & t9 & -> & He & Hm).
  apply matches_eps in Hm as ->.
  apply matches_lit in Hd1 as ->, Hd2 as ->, Hd3 as ->, Hd4 as ->.
  apply matches_times_chr in Ha, Hb, Hc, Hd, He.
  exists a, b, c, d, e. rewrite append_empty_r.
  repeat split; try tauto.
Qed.

(** X4.  The identifier that an extractor of RAI reads from an address
    (RaiPlay, Rai, RaiPlay Radio and its playlists) always has the shape
    of a UUID: runs of 8, 4, 4, 4 and 12 characters, each a digit or a
    lower-case letter from [a] to [f], with dashes between them. *)
Theorem rai_identifier_is_uuid (pattern : regex) (url id : string) :
  In pattern uuid_patterns ->
  _match_id pattern url = Ok id ->
  uuid_text id.
Proof.
  intros Hin. unfold _match_id.
  destruct (re_match pattern url) as [m|] eqn:Em; [|discriminate].
  destruct (group "id" m) as [v|] eqn:Ev; [|discriminate].
  intros E; inversion E; subst; clear E.
  destruct (match_group "id" _ _ _ _ Em Ev) as [body [Hb Hbody]].
  apply uuid_matches.
  unfold uuid_patterns in Hin.
  repeat destruct Hin as [<-|Hin]; try destruct Hin;
    cbn in Hb; destruct Hb as [<-|[]]; exact Hbody.
Qed.

(** The identifier of the address of the example page. *)
Lemma rai_identifier_example : uuid_text Example.url_id.
Proof.
  apply (rai_identifier_is_uuid RaiIE._VALID_URL Example.rai_url);
    [right; left; reflexivity|vm_compute; reflexivity].
Defined.

End RaiIdentifiers.

(* ================================================================== *)
Module ListParser.

Import HTMLListAttrsParser.

Lemma feed_app (a b : list event) (self : parser) :
  feed (a ++ b) self = feed b (feed a self).
Proof. apply fold_left_app. Qed.

Lemma element_rect_children (P : element -> Prop) :
  (forall tag attrs children,
      Forall P children -> P (Elem tag attrs children)) ->
  forall e, P e.
Proof.
  intros Hstep. fix IH 1. intros [tag attrs children]. apply Hstep.
  induction children as [|c cs IHcs]; constructor; [apply IH|exact IHcs].
Qed.

Lemma kept_elements (elements : list element) :
  Forall (fun e => kept (events_of e) (list_items [e])) elements ->
  kept (flat_map events_of elements) (list_items elements).
Proof.
  induction 1 as [|e rest He _ IH]; intros self Hl.
  - simpl. destruct self as [its lv]; simpl.
    destruct (lv =? 0)%Z; rewrite app_nil_r; reflexivity.
  - cbn [flat_map]. rewrite feed_app, (He self Hl), IH by exact Hl.
    cbn [items _level]. f_equal.
    destruct e as [tag attrs children]. cbn [list_items].
    rewrite <- app_assoc. f_equal.
    destruct (_level self =? 0)%Z; [|reflexivity].
    destruct (String.eqb tag "li"); reflexivity.
Qed.

Lemma kept_element (e : element) : kept (events_of e) (list_items [e]).
Proof.
  induction e as [tag attrs children IH] using element_rect_children.
  intros [its lv] Hl. cbn [_level items] in *.
  cbn [events_of].
  change (Starttag tag attrs :: ?l) with ([Starttag tag attrs] ++ l)%list.
  rewrite !feed_app.
  change (feed [Starttag tag attrs] (mkParser its lv))
    with (handle_starttag tag attrs (mkParser its lv)).
  unfold handle_starttag; cbn [items _level].
  rewrite (kept_elements children IH) by (cbn [_level]; lia).
  cbn [items _level].
  replace (lv + 1 =? 0)%Z with false by (symmetry; apply Z.eqb_neq; lia).
  rewrite app_nil_r.
  change (feed [Endtag tag] ?p) with (handle_endtag tag p).
  unfold handle_endtag; cbn [items _level].
  replace (lv + 1 - 1)%Z with lv by lia.
  f_equal. cbn [list_items].
  destruct (String.eqb tag "li"), (lv =? 0)%Z; cbn [andb];
    rewrite ?app_nil_r; reflexivity.
Qed.

Lemma feed_closed (elements : list element) :
  kept (flat_map events_of elements) (list_items elements).
Proof.
  apply kept_elements, Forall_forall. intros e _. apply kept_element.
Qed.

(** X5.  When every tag of the list page is closed, the parser returns
    the attributes of the [li] elements at the top of the page, in their
    order, and of no element below another one. *)
Theorem parser_collects_top_items (elements : list element) :
  feed (flat_map events_of elements) init
  = mkParser (list_items elements) 0.
Proof.
  rewrite (feed_closed elements init) by (cbn; lia). reflexivity.
Qed.

(** X6.  A start tag that is never closed, such as an [img] written
    without a slash, hides every item that follows it: the parser
    returns the items in front of the tag, and the tag itself when it is
    an [li], whatever closed markup comes after. *)
Theorem unclosed_tag_hides_later_items (before after : list element)
    (tag : string) (attrs : list (string * value)) :
  items (feed (flat_map events_of before
               ++ Starttag tag attrs :: flat_map events_of after) init)
  = (list_items before
     ++ (if String.eqb tag "li" then [dict attrs] else []))%list.
Proof.
  rewrite feed_app, (feed_closed before init) by (cbn; lia).
  change (Starttag tag attrs :: ?l) with ([Starttag tag attrs] ++ l)%list.
  rewrite feed_app.
  cbn [feed fold_left handle handle_starttag items _level init Z.eqb app].
  fold (feed (flat_map events_of after)).
  rewrite (feed_closed after) by (cbn; lia).
  cbn [items _level Z.add Z.eqb Pos.add]. rewrite ?app_nil_r.
  unfold handle_starttag; cbn [items _level Z.eqb].
  rewrite andb_true_r.
  destruct (String.eqb tag "li"); rewrite ?app_nil_r; reflexivity.
Qed.

End ListParser.

(* ================================================================== *)
Module Radio.

Import Re.
Import RaiPlayRadioIE RaiPlayRadioBaseIE.

(** [lstrip] leaves no character of the set in front. *)
Lemma lstrip_chars_head (chars s : string) :
  match lstrip_chars chars s with
  | String c _ => one_of chars c = false
  | EmptyString => True
  end.
Proof.
  induction s as [|c s IH]; simpl; [exact I|].
  destruct (one_of chars c) eqn:E; [exact IH|exact E].
Qed.


Section WithHost.

Context {H : Host}.
Variable html_events : string -> list HTMLListAttrsParser.event.
Variable urljoin_value : string -> value -> value.

(** The id of an entry is what [lstrip] leaves of the name of the item. *)
Lemma entry_id (url : string) (attrs : Dict.t) (e : value) :
  playlist_entry urljoin_value url attrs = Ok e ->
  exists name d,
    Dict.item "data-uniquename" attrs = Ok (VStr name)
    /\ e = VDict d
    /\ Dict.item "id" d = Ok (VStr (lstrip_chars "ContentItem-" name)).
Proof.
  unfold playlist_entry, rbind.
  destruct (Dict.item "data-title" attrs) as [title|]; [|discriminate].
  destruct (Value.as_str title AttributeError) as [t|]; [|discriminate].
  destruct (Dict.item "data-mediapolis" attrs) as [m|]; [|discriminate].
  destruct (Dict.item "data-uniquename" attrs) as [[| | | |name| |]|];
    try discriminate.
  cbn [Value.as_str].
  destruct (Dict.mem "data-image" attrs); intros E; inversion E; subst;
    exists name; eexists; (split; [reflexivity|]); (split; [reflexivity|]);
    reflexivity.
Qed.

(** No entry has an id that starts with a character of [ContentItem-]. *)
Lemma find_entry_misses (url audio_id : string) (c : ascii) (rest : string)
    (l : list Dict.t) :
  audio_id = String c rest ->
  one_of "ContentItem-" c = true ->
  find_entry audio_id (map (playlist_entry urljoin_value url) l) = Ok VNone
  \/ exists e,
      find_entry audio_id (map (playlist_entry urljoin_value url) l) = Raise e.
Proof.
  intros -> Hc. induction l as [|attrs l IH]; [left; reflexivity|].
  cbn [map find_entry].
  destruct (playlist_entry urljoin_value url attrs) as [e|x] eqn:Ee;
    [|right; exists x; reflexivity].
  destruct (entry_id url attrs e Ee) as (name & d & _ & -> & Hid).
  cbn [rbind Value.item]. rewrite Hid. cbn [rbind].
  pose proof (lstrip_chars_head "ContentItem-" name) as Hh.
  destruct (lstrip_chars "ContentItem-" name) as [|a s]; [exact IH|].
  cbn [String.eqb].
  destruct (Ascii.eqb_spec a c) as [->|Hne]; [congruence|exact IH].
Qed.

End WithHost.

(** X7.  An audio whose identifier starts with the letter [e] is never
    found: [lstrip('ContentItem-')] removes characters of the set, not the
    prefix, so no entry has an id that starts with [e], and the extractor
    returns [None] or raises, whatever the list page holds. *)
Theorem audio_id_with_leading_e_is_missed (H : Host)
    (html_events : string -> list HTMLListAttrsParser.event)
    (urljoin_value : string -> value -> value)
    (url audio_id : string) (log : list request) :
  _match_id _VALID_URL url = Ok audio_id ->
  prefix "e" audio_id = true ->
  fst (_real_extract html_events urljoin_value url log) = Ok VNone
  \/ exists e,
      fst (_real_extract html_events urljoin_value url log) = Raise e.
Proof.
  intros Hid He. unfold _real_extract, get_playlist_iter.
  cbv beta iota zeta delta [bind lift ret _download_webpage].
  rewrite Hid. cbv beta iota.
  destruct (urlopen _) as [page|]; cbn [of_option fst];
    [|right; eexists; reflexivity].
  destruct audio_id as [|c rest]; [discriminate|].
  cbn [prefix] in He. destruct (ascii_dec "e" c) as [<-|]; [|discriminate].
  apply (find_entry_misses urljoin_value _ _ "e"%char rest); reflexivity.
Qed.

(** The list page has an item named [ContentItem-e6b099ff-...]; the
    extractor returns [None] for the address of that audio. *)
Lemma audio_id_with_leading_e_example :
  In (HTMLListAttrsParser.dict
        (Example.radio_item Example.radio_e_id " Terza parte "))
     (parse_list Example.radio_events "<list>")
  /\ fst (@_real_extract Example.radio_host Example.radio_events
            Example.joined_value Example.radio_e_url [])
     = Ok VNone.
Proof.
  split; [right; right; left; reflexivity|].
  destruct (audio_id_with_leading_e_is_missed Example.radio_host
              Example.radio_events Example.joined_value
              Example.radio_e_url Example.radio_e_id []
              eq_refl eq_refl) as [Hnone|[e He]];
    [exact Hnone|vm_compute in He; discriminate].
Defined.



End Radio.

(* ================================================================== *)
Module SubtitleTracks.

Import Subtitles.

Lemma paired_app (a b : list Dict.t) :
  paired a -> paired b -> paired (a ++ b).
Proof.
  induction 1; intros Hb; simpl; auto using paired.
Qed.

(** What every list of the result satisfies. *)
Lemma add_tracks_keeps (P : value -> list Dict.t -> Prop)
    (sub_lang : value) (new : list Dict.t) (subtitles : tracks) :
  (forall k l, P k l -> P k (l ++ new)%list) ->
  P sub_lang new ->
  Forall (fun kl => P (fst kl) (snd kl)) subtitles ->
  Forall (fun kl => P (fst kl) (snd kl)) (add_tracks sub_lang new subtitles).
Proof.
  intros Happ Hnew. induction 1 as [|[k l] rest Hkl Hrest IH]; simpl.
  - constructor; [exact Hnew|constructor].
  - destruct (key_eqb k sub_lang).
    + constructor; [apply Happ, Hkl|exact Hrest].
    + constructor; [exact Hkl|exact IH].
Qed.

Section WithHost.

Context {H : Host}.
Variable determine_ext_or : value -> string -> string.

Lemma well_formed_app (new : list Dict.t) :
  paired new ->
  forall k l, well_formed k l -> well_formed k (l ++ new)%list.
Proof.
  intros Hnew k l (Hk & Hl & Hp). split; [exact Hk|]. split.
  - destruct l; [contradiction|discriminate].
  - apply paired_app; assumption.
Qed.

Lemma add_subtitle_keeps (url : string) (subtitles subtitles' : tracks)
    (subtitle : value) :
  Forall (fun kl => well_formed (fst kl) (snd kl)) subtitles ->
  add_subtitle determine_ext_or url subtitles subtitle = Ok subtitles' ->
  Forall (fun kl => well_formed (fst kl) (snd kl)) subtitles'.
Proof.
  intros Hinv. unfold add_subtitle, rbind.
  destruct (Value.get "url" subtitle) as [sub_url|]; [|discriminate].
  destruct sub_url as [| | | |[|a u]| |];
    try (intros E; inversion E; subst; exact Hinv).
  destruct (Value.get "language" subtitle) as [language|]; [|discriminate].
  set (sub_lang := if Value.truthy language then language else VStr "it").
  assert (Hlang : Value.truthy sub_lang = true).
  { unfold sub_lang. destruct (Value.truthy language) eqn:E; auto. }
  destruct (hashable sub_lang); [|discriminate].
  destruct (String.eqb STL_EXT (determine_ext_or (utils_urljoin url (String a u)) SRT_EXT))
    eqn:Eext.
  - apply String.eqb_eq in Eext. rewrite <- Eext.
    destruct (utils_urljoin url (String a u)) as [| | | |s| |];
      try discriminate.
    intros E; inversion E; subst; clear E.
    assert (Hnew : paired [ track STL_EXT (VStr s);
                            track SRT_EXT (VStr (without_ext s ++ SRT_EXT)) ])
      by (constructor; constructor).
    apply add_tracks_keeps; [apply well_formed_app, Hnew| |exact Hinv].
    split; [exact Hlang|]. split; [discriminate|exact Hnew].
  - intros E; inversion E; subst; clear E.
    apply String.eqb_neq in Eext.
    assert (Hnew : paired [ track (determine_ext_or
                                     (utils_urljoin url (String a u)) SRT_EXT)
                                  (utils_urljoin url (String a u)) ])
      by (constructor; [congruence|constructor]).
    apply add_tracks_keeps; [apply well_formed_app, Hnew| |exact Hinv].
    split; [exact Hlang|]. split; [discriminate|exact Hnew].
Qed.

Lemma add_subtitles_keeps (url : string) (subtitles_array : list value) :
  forall subtitles subtitles',
    Forall (fun kl => well_formed (fst kl) (snd kl)) subtitles ->
    add_subtitles determine_ext_or url subtitles subtitles_array
    = Ok subtitles' ->
    Forall (fun kl => well_formed (fst kl) (snd kl)) subtitles'.
Proof.
  induction subtitles_array as [|subtitle rest IH]; intros s s' Hinv; simpl.
  - intros E; inversion E; subst; exact Hinv.
  - destruct (add_subtitle determine_ext_or url s subtitle) as [s1|] eqn:E1;
      [|discriminate].
    cbn [rbind]. apply IH. eapply add_subtitle_keeps; eauto.
Qed.

End WithHost.

(** X9.  In the dict of subtitles the method returns, every language
    is a true value (never [None] or the empty text), no language has an
    empty list of tracks, and every track of extension [stl] is followed
    at once by the [srt] track of the same address with [srt] in the place
    of its last three characters. *)
Theorem stl_track_comes_with_srt (H : Host)
    (determine_ext_or : value -> string -> string)
    (url : string) (video_data : value) (subtitles : tracks) :
  _extract_subtitles determine_ext_or url video_data = Ok subtitles ->
  Forall (fun kl => Value.truthy (fst kl) = true
                    /\ snd kl <> []
                    /\ paired (snd kl)) subtitles.
Proof.
  unfold _extract_subtitles, rbind.
  destruct (Value.get "subtitlesArray" video_data) as [arr|]; [|discriminate].
  destruct (if Value.truthy arr then _ else _) as [l|]; [|discriminate].
  destruct (Value.get "subtitles" video_data) as [first|]; [|discriminate].
  destruct (Value.get "subtitlesUrl" video_data) as [second|]; [|discriminate].
  apply add_subtitles_keeps. constructor.
Qed.

(** A media with an [stl] address under [subtitles]. *)
Lemma stl_track_example :
  Forall (fun kl => Value.truthy (fst kl) = true
                    /\ snd kl <> []
                    /\ paired (snd kl))
    [ (VStr "it",
       [ track "stl" (VStr "http://www.rai.it/dl/subtitles/presadiretta.stl");
         track "srt" (VStr "http://www.rai.it/dl/subtitles/presadiretta.srt") ]) ].
Proof.
  apply (stl_track_comes_with_srt (Example.rai_host false)
           Example.extension_or "http://www.rai.it"
           (VDict Example.subtitled_media)).
  vm_compute. reflexivity.
Defined.

Lemma add_subtitle_without_address (H : Host)
    (determine_ext_or : value -> string -> string)
    (url : string) (subtitles : tracks) (v : value) :
  no_address v ->
  add_subtitle determine_ext_or url subtitles (VDict [("url", v)])
  = Ok subtitles.
Proof.
  unfold add_subtitle. cbn [Value.get Dict.get String.eqb Ascii.eqb Bool.eqb rbind].
  destruct v as [| | | |[|a u]| |]; simpl; intros Hv; try reflexivity.
  destruct Hv.
Qed.

(** X10.  For a media without [subtitlesArray]: when neither [subtitles]
    nor [subtitlesUrl] is a text that is not empty, the result is the
    empty dict and nothing is raised; when [subtitles] is an address and
    [subtitlesUrl] is none, the result has the one language [it], with
    the track of the address, followed by the [srt] track when the
    extension of the address is [stl]. *)
Theorem subtitles_of_media (H : Host)
    (determine_ext_or : value -> string -> string)
    (url : string) (d : Dict.t) :
  Value.truthy (Dict.get "subtitlesArray" d) = false ->
  no_address (Dict.get "subtitlesUrl" d) ->
  (no_address (Dict.get "subtitles" d) ->
   _extract_subtitles determine_ext_or url (VDict d) = Ok [])
  /\ (forall a u s,
         Dict.get "subtitles" d = VStr (String a u) ->
         utils_urljoin url (String a u) = VStr s ->
         _extract_subtitles determine_ext_or url (VDict d)
         = Ok [ (VStr "it",
                 if String.eqb STL_EXT (determine_ext_or (VStr s) SRT_EXT)
                 then [ track STL_EXT (VStr s);
                        track SRT_EXT (VStr (without_ext s ++ SRT_EXT)) ]
                 else [ track (determine_ext_or (VStr s) SRT_EXT) (VStr s) ]) ]).
Proof.
  intros Harr Hsecond.
  unfold _extract_subtitles. cbn [Value.get rbind]. rewrite Harr.
  cbn [rbind app add_subtitles].
  split.
  - intros Hfirst.
    rewrite (add_subtitle_without_address _ _ _ _ _ Hfirst). cbn [rbind].
    rewrite (add_subtitle_without_address _ _ _ _ _ Hsecond). reflexivity.
  - intros a u s Hfirst Hjoin.
    unfold add_subtitle at 1.
    cbn [Value.get Dict.get String.eqb Ascii.eqb Bool.eqb rbind].
    rewrite Hfirst. cbn [Value.truthy hashable]. rewrite Hjoin.
    destruct (String.eqb STL_EXT (determine_ext_or (VStr s) SRT_EXT)) eqn:E.
    + apply String.eqb_eq in E. rewrite <- E. cbn [rbind add_tracks].
      rewrite (add_subtitle_without_address _ _ _ _ _ Hsecond). reflexivity.
    + cbn [rbind add_tracks].
      rewrite (add_subtitle_without_address _ _ _ _ _ Hsecond). reflexivity.
Qed.

(** A media without subtitles, and one with an [stl] address. *)
Lemma subtitles_of_media_example :
  @_extract_subtitles (Example.rai_host false) Example.extension_or
    "http://www.rai.it" (VDict [ ("name", VStr "Presa diretta") ])
  = Ok []
  /\ @_extract_subtitles (Example.rai_host false) Example.extension_or
       "http://www.rai.it" (VDict Example.subtitled_media)
     = Ok [ (VStr "it",
             [ track "stl"
                 (VStr "http://www.rai.it/dl/subtitles/presadiretta.stl");
               track "srt"
                 (VStr "http://www.rai.it/dl/subtitles/presadiretta.srt") ]) ].
Proof.
  split.
  - apply (proj1 (subtitles_of_media (Example.rai_host false)
                    Example.extension_or "http://www.rai.it"
                    [ ("name", VStr "Presa diretta") ] eq_refl I)).
    exact I.
  - apply (proj2 (subtitles_of_media (Example.rai_host false)
                    Example.extension_or "http://www.rai.it"
                    Example.subtitled_media eq_refl I)
             "/"%char "dl/subtitles/presadiretta.stl"
             "http://www.rai.it/dl/subtitles/presadiretta.stl");
      reflexivity.
Defined.

End SubtitleTracks.

(* ================================================================== *)
Module Thumbnails.

Import NRKIE.

Lemma sort_images_total (l : list value) :
  Forall (fun image => exists w, pixel_width image = Ok w) l ->
  exists sorted, sort_images l = Ok sorted.
Proof.
  induction 1 as [|image rest [w Hw] _ [sorted IH]]; simpl.
  - eexists; reflexivity.
  - rewrite Hw, IH. eexists; reflexivity.
Qed.

Lemma insert_image_members (w : Z) (image : value) (sorted : list (Z * value))
    (p : Z * value) :
  In p (insert_image w image sorted) -> p = (w, image) \/ In p sorted.
Proof.
  induction sorted as [|[w' image'] rest IH]; simpl.
  - intros [<-|[]]; auto.
  - destruct (w <=? w')%Z; simpl.
    + intros [<-|[<-|Hin]]; auto.
    + intros [<-|Hin]; auto. destruct (IH Hin); auto.
Qed.

Lemma insert_image_not_nil (w : Z) (image : value) (sorted : list (Z * value)) :
  insert_image w image sorted <> [].
Proof.
  destruct sorted as [|[w' image'] rest]; simpl; [discriminate|].
  destruct (w <=? w')%Z; discriminate.
Qed.

Lemma insert_image_cons (w : Z) (image : value) (w' : Z) (image' : value)
    (rest : list (Z * value)) :
  insert_image w image ((w', image') :: rest)
  = if (w <=? w')%Z then (w, image) :: (w', image') :: rest
    else (w', image') :: insert_image w image rest.
Proof. reflexivity. Qed.

(** Where the last member is after an insertion. *)
Lemma insert_image_last (w : Z) (image : value) (sorted : list (Z * value))
    (d : Z * value) :
  sorted <> [] ->
  ((w <= fst (last sorted d))%Z ->
   last (insert_image w image sorted) d = last sorted d)
  /\ ((forall p, In p sorted -> (fst p < w)%Z) ->
      last (insert_image w image sorted) d = (w, image)).
Proof.
  induction sorted as [|[w' image'] rest IH]; [contradiction|]. intros _.
  destruct rest as [|q rest].
  - cbn [insert_image last fst]. split.
    + intros Hle. apply Z.leb_le in Hle. rewrite Hle. reflexivity.
    + intros Hall. specialize (Hall (w', image') (or_introl eq_refl)).
      cbn [fst] in Hall.
      replace (w <=? w')%Z with false by (symmetry; apply Z.leb_gt; lia).
      reflexivity.
  - assert (Hq : q :: rest <> []) by discriminate.
    destruct (IH Hq) as [IH1 IH2].
    change (last ((w', image') :: q :: rest) d) with (last (q :: rest) d).
    rewrite insert_image_cons.
    split.
    + intros Hle. destruct (w <=? w')%Z; [reflexivity|].
      pose proof (insert_image_not_nil w image (q :: rest)) as Hne.
      destruct (insert_image w image (q :: rest)) as [|x xs] eqn:E;
        [contradiction|].
      change (last ((w', image') :: x :: xs) d) with (last (x :: xs) d).
      apply IH1, Hle.
    + intros Hall.
      pose proof (Hall (w', image') (or_introl eq_refl)) as Hlt.
      cbn [fst] in Hlt.
      replace (w <=? w')%Z with false by (symmetry; apply Z.leb_gt; lia).
      pose proof (insert_image_not_nil w image (q :: rest)) as Hne.
      destruct (insert_image w image (q :: rest)) as [|x xs] eqn:E;
        [contradiction|].
      change (last ((w', image') :: x :: xs) d) with (last (x :: xs) d).
      apply IH2. intros p Hp. apply Hall. right; exact Hp.
Qed.

(** The last member of the sorted list is the last of the widest images
    of the list. *)
Lemma sort_images_last (l : list value) :
  forall sorted d,
    sort_images l = Ok sorted -> l <> [] ->
    (forall p, In p sorted ->
               In (snd p) l /\ pixel_width (snd p) = Ok (fst p))
    /\ sorted <> []
    /\ exists before image after w,
        l = (before ++ image :: after)%list
        /\ last sorted d = (w, image)
        /\ pixel_width image = Ok w
        /\ (forall x w', In x before -> pixel_width x = Ok w' -> (w' <= w)%Z)
        /\ (forall x w', In x after -> pixel_width x = Ok w' -> (w' < w)%Z).
Proof.
  induction l as [|x rest IH]; [contradiction|].
  intros sorted d Hs _. cbn [sort_images] in Hs.
  destruct (pixel_width x) as [wx|] eqn:Hx; [|discriminate].
  destruct (sort_images rest) as [sr|] eqn:Hr; [|discriminate].
  cbn [rbind] in Hs. inversion Hs; subst sorted; clear Hs.
  destruct rest as [|y rest'].
  - cbn in Hr. inversion Hr; subst sr. cbn [insert_image].
    split; [|split; [discriminate|]].
    + intros p [<-|[]]. cbn; auto.
    + exists [], x, [], wx. cbn. repeat split; auto; intros ? ? [].
  - assert (Hne : y :: rest' <> []) by discriminate.
    destruct (IH sr d eq_refl Hne)
      as (Hmem & Hsr & before & image & after & w & Hl & Hlast & Hw & Hb & Ha).
    split; [|split; [apply insert_image_not_nil|]].
    + intros p Hp. apply insert_image_members in Hp as [->|Hp].
      * cbn; auto.
      * destruct (Hmem p Hp). split; [right|]; assumption.
    + destruct (insert_image_last wx x sr d Hsr) as [Hkeep Hnew].
      destruct (Z_le_gt_dec wx w) as [Hle|Hgt].
      * exists (x :: before), image, after, w.
        rewrite Hl. repeat split; auto.
        -- rewrite Hkeep; [exact Hlast|]. rewrite Hlast. exact Hle.
        -- intros x0 w' [<-|Hin] Hw'; [|eauto].
           rewrite Hx in Hw'. inversion Hw'; subst. exact Hle.
      * exists [], x, (y :: rest'), wx. repeat split; auto.
        -- apply Hnew. intros p Hp. destruct (Hmem p Hp) as [Hin Hpw].
           rewrite Hl in Hin. apply in_app_iff in Hin as [Hin|[E|Hin]].
           ++ specialize (Hb _ _ Hin Hpw). lia.
           ++ rewrite <- E, Hw in Hpw. inversion Hpw. lia.
           ++ specialize (Ha _ _ Hin Hpw). lia.
        -- intros ? ? [].
        -- intros x0 w' Hin Hw'. rewrite Hl in Hin.
           apply in_app_iff in Hin as [Hin|[E|Hin]].
           ++ specialize (Hb _ _ Hin Hw'). lia.
           ++ rewrite <- E, Hw in Hw'. inversion Hw'. lia.
           ++ specialize (Ha _ _ Hin Hw'). lia.
Qed.

Lemma last_map_some (A B : Type) (f : A -> B) (l : list A) (d : A) :
  l <> [] -> last (map (fun x => Some (f x)) l) None = Some (f (last l d)).
Proof.
  induction l as [|x [|y l] IH]; [contradiction|reflexivity|].
  intros _.
  change (last (map (fun x => Some (f x)) (x :: y :: l)) None)
    with (last (map (fun x => Some (f x)) (y :: l)) None).
  change (last (x :: y :: l) d) with (last (y :: l) d).
  apply IH. discriminate.
Qed.

(** X11.  When the images of a programme of NRK all have a whole number
    as [pixelWidth], the thumbnail is read from an image of the greatest
    width: no image is wider, and among the images of that width it is
    the one that comes last in the answer. *)
Theorem widest_image_is_the_thumbnail (d : Dict.t) (l : list value) :
  Dict.item "webImages" d = Ok (VList l) ->
  l <> [] ->
  Forall (fun image => exists w, pixel_width image = Ok w) l ->
  exists before image after w,
    l = (before ++ image :: after)%list
    /\ pixel_width image = Ok w
    /\ best_thumbnail (VDict d) = Value.item "imageUrl" image
    /\ (forall x w', In x before -> pixel_width x = Ok w' -> (w' <= w)%Z)
    /\ (forall x w', In x after -> pixel_width x = Ok w' -> (w' < w)%Z).
Proof.
  intros Hitem Hne Hall.
  destruct (sort_images_total l Hall) as [sorted Hs].
  destruct (sort_images_last l sorted (0%Z, VNone) Hs Hne)
    as (_ & Hsne & before & image & after & w & Hl & Hlast & Hw & Hb & Ha).
  exists before, image, after, w. repeat split; auto.
  unfold best_thumbnail.
  assert (Hd : d <> []).
  { intros ->. discriminate. }
  replace (Value.truthy (VDict d)) with true
    by (destruct d; [contradiction|reflexivity]).
  cbn [Value.item]. rewrite Hitem. cbn [rbind]. rewrite Hs. cbn [rbind].
  rewrite (last_map_some _ _ snd sorted (0%Z, VNone) Hsne), Hlast.
  reflexivity.
Qed.

(** Five images, two of them of the greatest width. *)
Lemma widest_image_example :
  exists before image after w,
    Example.web_images = (before ++ image :: after)%list
    /\ pixel_width image = Ok w
    /\ best_thumbnail (VDict [ ("webImages", VList Example.web_images) ])
       = Value.item "imageUrl" image
    /\ (forall x w', In x before -> pixel_width x = Ok w' -> (w' <= w)%Z)
    /\ (forall x w', In x after -> pixel_width x = Ok w' -> (w' < w)%Z).
Proof.
  apply (widest_image_is_the_thumbnail
           [ ("webImages", VList Example.web_images) ] Example.web_images
           eq_refl);
    [discriminate|repeat constructor; eexists; reflexivity].
Defined.

End Thumbnails.

(* ================================================================== *)
Module FirstMatch.

Import Re ReLang ReLangFacts.

(** ** The first match of a pattern, piece by piece *)

Lemma first_seq (subject : string) (a b : regex) (s : string) (c : captures)
    (s1 : string) (c1 : captures) (x : string * captures) :
  hd_error (run subject a s c) = Some (s1, c1) ->
  hd_error (run subject b s1 c1) = Some x ->
  hd_error (run subject (Seq a b) s c) = Some x.
Proof.
  cbn [run]. destruct (run subject a s c) as [|y l]; [discriminate|].
  intros E; inversion E; subst. cbn [flat_map fst snd].
  destruct (run subject b s1 c1) as [|z l']; [discriminate|].
  intros E'; inversion E'; subst. reflexivity.
Qed.

Lemma first_group (subject name : string) (r : regex) (s : string)
    (c : captures) (s1 : string) (c1 : captures) :
  hd_error (run subject r s c) = Some (s1, c1) ->
  hd_error (run subject (Group name r) s c)
  = Some (s1, (name, consumed s s1) :: c1).
Proof.
  cbn [run]. destruct (run subject r s c) as [|y l]; [discriminate|].
  intros E; inversion E; subst. reflexivity.
Qed.

Lemma first_lit (subject w rest : string) (c : captures) :
  hd_error (run subject (lit w) (w ++ rest) c) = Some (rest, c).
Proof.
  induction w as [|a w IH]; [reflexivity|].
  cbn [lit]. eapply first_seq; [|exact IH].
  cbn [append run]. rewrite Ascii.eqb_refl. reflexivity.
Qed.

Lemma first_chr (subject : string) (p : ascii -> bool) (a : ascii)
    (rest : string) (c : captures) :
  p a = true ->
  hd_error (run subject (Chr p) (String a rest) c) = Some (rest, c).
Proof. intros Hp. cbn [run]. rewrite Hp. reflexivity. Qed.

Lemma first_alt (subject : string) (a b : regex) (s : string) (c : captures)
    (x : string * captures) :
  hd_error (run subject a s c) = Some x ->
  hd_error (run subject (Alt a b) s c) = Some x.
Proof.
  cbn [run]. destruct (run subject a s c) as [|y l]; [discriminate|].
  intros E; inversion E; subst. reflexivity.
Qed.

(** A greedy star of a class takes all the characters of the class. *)
Lemma first_star_chr (subject : string) (p : ascii -> bool) (ds rest : string)
    (c : captures) :
  Py.all_chars p ds = true -> stops p rest ->
  forall fuel, String.length ds <= fuel ->
  hd_error (star_loop (run subject (Chr p)) true fuel (ds ++ rest) c)
  = Some (rest, c).
Proof.
  intros Hds Hrest. set (step := run subject (Chr p)).
  induction ds as [|a ds IH]; intros fuel Hf.
  - cbn [append]. destruct fuel as [|n]; [reflexivity|].
    cbn [star_loop].
    assert (Hstep : step rest c = []).
    { unfold step. destruct rest as [|a r]; [reflexivity|].
      cbn [run]. cbn in Hrest. rewrite Hrest. reflexivity. }
    rewrite Hstep. reflexivity.
  - cbn [Py.all_chars] in Hds. apply andb_true_iff in Hds as [Ha Hds].
    destruct fuel as [|n]; [cbn in Hf; lia|].
    cbn [append star_loop].
    assert (Hstep : step (String a (ds ++ rest)) c = [(ds ++ rest, c)]).
    { unfold step. cbn [run]. rewrite Ha. reflexivity. }
    rewrite Hstep. cbn [flat_map fst snd].
    replace (String.length (ds ++ rest) <? String.length (String a (ds ++ rest)))%nat
      with true by (symmetry; apply Nat.ltb_lt; cbn; lia).
    rewrite app_nil_r.
    specialize (IH Hds n ltac:(cbn in Hf; lia)).
    destruct (star_loop step true n (ds ++ rest) c) as [|y l];
      [discriminate|].
    inversion IH; subst. reflexivity.
Qed.

Lemma first_star (subject : string) (p : ascii -> bool) (ds rest : string)
    (c : captures) :
  Py.all_chars p ds = true -> stops p rest ->
  hd_error (run subject (Star true (Chr p)) (ds ++ rest) c) = Some (rest, c).
Proof.
  intros Hds Hrest. cbn [run]. apply (first_star_chr subject); auto.
  rewrite append_length. lia.
Qed.

End FirstMatch.

(* ================================================================== *)
Module TrailerAddresses.

Import Re ReLang ReLangFacts PatternFacts FirstMatch.
Import AppleTrailersIE.

(** ** [split] and [join] *)

Lemma split_not_nil (sep : ascii) (s : string) : Py.split sep s <> [].
Proof.
  induction s as [|c s IH]; simpl; [discriminate|].
  destruct (Ascii.eqb c sep); [discriminate|].
  destruct (Py.split sep s); [contradiction|discriminate].
Qed.

Lemma join_cons (sep : string) (c : ascii) (w : string) (ws : list string) :
  Py.join sep (String c w :: ws) = String c (Py.join sep (w :: ws)).
Proof. destruct ws; reflexivity. Qed.

Lemma prefix_empty (s : string) : prefix "" s = true.
Proof. destruct s; reflexivity. Qed.

(** Joining the parts with another text replaces the separator. *)
Lemma join_split_replace (sep : ascii) (new s : string) :
  Py.join new (Py.split sep s)
  = Py.replace (String sep "") new s.
Proof.
  unfold Py.replace. induction s as [|c s IH]; [reflexivity|].
  cbn [Py.split Py.replace_from prefix String.length Nat.sub].
  destruct (Ascii.eqb_spec c sep) as [->|Hne].
  - destruct (ascii_dec sep sep) as [_|]; [|contradiction].
    pose proof (split_not_nil sep s) as Hs.
    destruct (Py.split sep s) as [|w ws] eqn:E; [contradiction|].
    rewrite prefix_empty, <- IH. reflexivity.
  - destruct (ascii_dec sep c) as [->|_]; [contradiction|].
    pose proof (split_not_nil sep s) as Hs.
    destruct (Py.split sep s) as [|w ws] eqn:E; [contradiction|].
    rewrite join_cons, IH. reflexivity.
Qed.

(** ** The two ways to the address of the file *)

Lemma sub_from_skips (subject : string) (r : regex)
    (repl : captures -> string) (s : string) :
  forall k, String.length s <= k -> sub_from subject r repl k s = "".
Proof.
  induction s as [|a s IH]; intros k Hk; [reflexivity|].
  destruct k as [|k]; [cbn in Hk; lia|].
  cbn [sub_from]. apply IH. cbn in Hk. lia.
Qed.

(** A pattern that cannot match at the characters of [stem] leaves
    [stem] as it is. *)
Lemma sub_from_front (subject : string) (x : ascii) (r : regex)
    (repl : captures -> string) (stem tail : string) :
  (forall c s, Ascii.eqb x c = false ->
               match_at subject r (String c s) = None) ->
  without x stem ->
  sub_from subject r repl 0 (stem ++ tail)
  = stem ++ sub_from subject r repl 0 tail.
Proof.
  intros Hr. unfold without.
  induction stem as [|c stem IH]; intros Hs; [reflexivity|].
  cbn [Py.all_chars] in Hs. apply andb_true_iff in Hs as [Hc Hs].
  apply negb_true_iff in Hc.
  cbn [append sub_from]. rewrite (Hr _ _ Hc), (IH Hs). reflexivity.
Qed.

Lemma real_url_of (stem res : string) (x : ascii) :
  without "_" stem -> digits res -> dot x = true ->
  real_url (stem ++ "_" ++ res ++ "p" ++ String x "mov")
  = stem ++ "_h" ++ res ++ "p" ++ String x "mov".
Proof.
  intros Hstem Hres Hx. unfold real_url, re_sub.
  fold size_re.
  generalize (stem ++ "_" ++ res ++ "p" ++ String x "mov") at 1.
  intros subject.
  rewrite (sub_from_front subject "_" size_re _ stem); [f_equal| |exact Hstem].
  2:{ intros c s Hc. unfold match_at, size_re.
      cbn [seqs fold_right lit run]. rewrite Hc. reflexivity. }
  set (file := res ++ "p" ++ String x "mov").
  assert (Hm : match_at subject size_re (String "_" file)
               = Some ("", [("1", file)])).
  { unfold match_at, size_re. cbn [seqs fold_right].
    eapply first_seq; [apply (first_lit subject "_")|].
    eapply first_seq; [|reflexivity].
    replace (("1", file) :: [])
      with (("1", consumed file "") :: @nil (string * string))
      by (f_equal; f_equal;
          rewrite <- (append_empty_r file) at 1; apply consumed_app).
    apply first_group.
    eapply first_seq.
    { unfold file. apply first_star; [exact Hres|reflexivity]. }
    eapply first_seq; [apply (first_lit subject "p")|].
    eapply first_seq; [apply first_chr, Hx|].
    eapply first_seq; [apply (first_lit subject "mov" "")|reflexivity]. }
  cbn [append sub_from].
  rewrite Hm. cbn [String.length Nat.ltb Nat.leb].
  rewrite sub_from_skips by lia.
  unfold group_text; cbn [lookup String.eqb Ascii.eqb Bool.eqb].
  rewrite append_empty_r. reflexivity.
Qed.

Lemma replace_front (old new stem tail : string) (x : ascii) (w : string) :
  old = String x w -> without x stem ->
  Py.replace_from old new 0 (stem ++ tail)
  = stem ++ Py.replace_from old new 0 tail.
Proof.
  intros -> . unfold without.
  induction stem as [|c stem IH]; intros Hs; [reflexivity|].
  cbn [Py.all_chars] in Hs. apply andb_true_iff in Hs as [Hc Hs].
  apply negb_true_iff, Ascii.eqb_neq in Hc.
  cbn [append Py.replace_from prefix].
  destruct (ascii_dec x c) as [->|_]; [contradiction|].
  rewrite (IH Hs). reflexivity.
Qed.

Lemma replace_none (old new s : string) (x : ascii) (w : string) :
  old = String x w -> without x s -> Py.replace old new s = s.
Proof.
  intros Ho Hs. unfold Py.replace.
  rewrite <- (append_empty_r s) at 1.
  rewrite (replace_front old new s "" x w Ho Hs). apply append_empty_r.
Qed.

Lemma without_digits (x : ascii) (s : string) :
  Py.is_digit x = false -> digits s -> without x s.
Proof.
  unfold digits, without. intros Hx.
  induction s as [|c s IH]; [reflexivity|]. cbn [Py.all_chars].
  intros Hs. apply andb_true_iff in Hs as [Hc Hs]. rewrite (IH Hs).
  destruct (Ascii.eqb_spec x c) as [->|_]; [congruence|reflexivity].
Qed.

Lemma without_app (x : ascii) (a b : string) :
  without x a -> without x b -> without x (a ++ b).
Proof.
  unfold without. intros Ha Hb. rewrite all_chars_app, Ha, Hb. reflexivity.
Qed.

(** X12.  For an address with one underscore, the one in front of the
    size ([..._480p.mov]), the address the fallback builds from the page
    is the address with an [h] put behind the underscore
    ([..._h480p.mov]), and it is the address the substitution of the
    settings branch gives for the same source. *)
Theorem fallback_address_agrees (stem res : string) :
  without "_" stem -> digits res ->
  construct_direct_download_url (stem ++ "_" ++ res ++ "p.mov")
  = stem ++ "_h" ++ res ++ "p.mov"
  /\ real_url (stem ++ "_" ++ res ++ "p.mov")
     = construct_direct_download_url (stem ++ "_" ++ res ++ "p.mov").
Proof.
  intros Hstem Hres.
  assert (Hc : construct_direct_download_url (stem ++ "_" ++ res ++ "p.mov")
               = stem ++ "_h" ++ res ++ "p.mov").
  { unfold construct_direct_download_url.
    change ("_" ++ "h") with "_h".
    rewrite (join_split_replace "_" "_h"). unfold Py.replace.
    rewrite (replace_front "_" "_h" stem _ "_" "" eq_refl Hstem). f_equal.
    cbn [append Py.replace_from prefix String.length Nat.sub].
    destruct (ascii_dec "_" "_") as [_|]; [|contradiction].
    rewrite prefix_empty. cbn [append]. do 2 f_equal.
    apply (replace_none "_" "_h" _ "_" "" eq_refl).
    apply without_app; [|reflexivity].
    apply without_digits; [reflexivity|exact Hres]. }
  split; [exact Hc|]. rewrite Hc.
  apply (real_url_of stem res "."); auto.
Qed.

(** The trailer of the test of the source. *)
Lemma fallback_address_example :
  construct_direct_download_url
    "http://trailers.apple.com/movies/wb/manofsteel/manofsteel-tlr4_480p.mov"
  = "http://trailers.apple.com/movies/wb/manofsteel/manofsteel-tlr4_h480p.mov"
  /\ real_url
       "http://trailers.apple.com/movies/wb/manofsteel/manofsteel-tlr4_480p.mov"
     = construct_direct_download_url
         "http://trailers.apple.com/movies/wb/manofsteel/manofsteel-tlr4_480p.mov".
Proof.
  exact (fallback_address_agrees
           "http://trailers.apple.com/movies/wb/manofsteel/manofsteel-tlr4"
           "480" eq_refl eq_refl).
Defined.

(** With another underscore in the address the two ways part: the
    fallback puts an [h] behind each underscore. *)
Lemma fallback_address_with_two_underscores :
  construct_direct_download_url "/movies/man_of_steel-tlr4_480p.mov"
  = "/movies/man_hof_hsteel-tlr4_h480p.mov"
  /\ real_url "/movies/man_of_steel-tlr4_480p.mov"
     = "/movies/man_of_steel-tlr4_h480p.mov".
Proof. split; vm_compute; reflexivity. Qed.

End TrailerAddresses.

(* ================================================================== *)
Module TrailerFields.

Import Re ReLang ReLangFacts PatternFacts FirstMatch TrailerAddresses.
Import AppleTrailersIE.

(** ** The id of a trailer *)

(** [re.sub] with a class and the empty text drops the characters of the
    class. *)
Lemma sub_class (subject : string) (p : ascii -> bool) (s : string) :
  sub_from subject (Chr p) (fun _ => "") 0 s
  = Py.filter (fun a => negb (p a)) s.
Proof.
  induction s as [|a s IH]; [reflexivity|].
  cbn [sub_from Py.filter]. unfold match_at. cbn [run].
  destruct (p a); cbn [hd_error negb].
  - replace (String.length s <? String.length (String a s))%nat with true
      by (symmetry; apply Nat.ltb_lt; cbn; lia).
    cbn [String.length]. replace (S (String.length s) - String.length s - 1)
      with 0 by lia.
    exact IH.
  - rewrite IH. reflexivity.
Qed.

Lemma lower_char_class (c : ascii) :
  Py.is_alnum c = true ->
  Py.is_digit (Py.lower_char c) || Py.is_lower (Py.lower_char c) = true.
Proof.
  destruct c as [[] [] [] [] [] [] [] []]; vm_compute; intros E;
    first [reflexivity | discriminate].
Qed.

(** X13.  The part of the id of a trailer that comes from its title is
    the title with every character that is no letter and no digit
    dropped and the rest in lower case, so that it holds lower-case
    letters and digits only. *)
Theorem trailer_id_has_letters_and_digits (title : string) :
  slug title = Py.lower (Py.filter Py.is_alnum title)
  /\ Py.all_chars (fun c => Py.is_digit c || Py.is_lower c) (slug title)
     = true.
Proof.
  assert (Hs : slug title = Py.lower (Py.filter Py.is_alnum title)).
  { unfold slug, re_sub. rewrite sub_class. f_equal.
    induction title as [|c t IH]; [reflexivity|].
    cbn [Py.filter]. rewrite negb_involutive, IH. reflexivity. }
  split; [exact Hs|]. rewrite Hs. clear Hs.
  induction title as [|c t IH]; [reflexivity|].
  cbn [Py.filter]. destruct (Py.is_alnum c) eqn:Ec; [|exact IH].
  cbn [Py.lower Py.all_chars]. rewrite (lower_char_class c Ec). exact IH.
Qed.

(** ** The duration of a trailer *)

Lemma range_digit (c : ascii) : range "0" "9" c = Py.is_digit c.
Proof. reflexivity. Qed.

(** X14.  A runtime that starts with minutes, a colon and two digits
    of seconds gives the duration of sixty times the minutes plus the
    seconds, whatever follows the seconds; a runtime without a colon gives no duration
    ([None]) and raises nothing. *)
Theorem runtime_in_seconds :
  (forall (a : ascii) (minutes : string) (b c : ascii) (rest : string),
      digits (String a minutes) -> digits (String b (String c "")) ->
      parse_runtime (String a minutes ++ ":" ++ String b (String c rest))
      = VInt (60 * Py.digits_value 0 (String a minutes)
              + Py.digits_value 0 (String b (String c ""))))
  /\ (forall runtime, without ":" runtime -> parse_runtime runtime = VNone).
Proof.
  split.
  - intros a minutes b c rest Hm Hs.
    unfold digits in Hm, Hs. cbn [Py.all_chars] in Hm, Hs.
    apply andb_true_iff in Hm as [Ha Hm].
    apply andb_true_iff in Hs as [Hb Hs].
    apply andb_true_iff in Hs as [Hc _].
    set (tail := String b (String c rest)).
    set (subject := String a minutes ++ ":" ++ tail).
    assert (Hmatch : match_at subject runtime_re subject
                     = Some (rest, [ ("seconds", consumed tail rest);
                                     ("minutes",
                                       consumed subject (":" ++ tail)) ])).
    { unfold match_at, runtime_re. cbn [seqs fold_right].
      eapply first_seq.
      { apply first_group. unfold plus.
        eapply first_seq; [apply first_chr; rewrite range_digit; exact Ha|].
        change (minutes ++ String ":" tail) with (minutes ++ ":" ++ tail).
        apply first_star; [exact Hm|reflexivity]. }
      eapply first_seq; [apply (first_lit subject ":")|].
      eapply first_seq; [|reflexivity].
      apply first_group.
      eapply first_seq; [apply first_chr; rewrite range_digit; exact Hb|].
      unfold opt. apply first_alt. apply first_chr.
      rewrite range_digit; exact Hc. }
    unfold subject in Hmatch at 3. rewrite consumed_app in Hmatch.
    replace (consumed tail rest) with (String b (String c "")) in Hmatch
      by (symmetry; apply (consumed_app (String b (String c "")) rest)).
    unfold parse_runtime, re_search. fold subject.
    unfold subject at 2. cbn [append search_from].
    change (String a (minutes ++ String ":" tail)) with subject.
    rewrite Hmatch. reflexivity.
  - intros runtime Hr. unfold parse_runtime.
    destruct (re_search runtime_re runtime) as [m|] eqn:E; [|reflexivity].
    exfalso.
    destruct (search_matches _ _ _ E) as (front & t & -> & Ht).
    unfold runtime_re in Ht. cbn [seqs fold_right] in Ht.
    apply matches_seq in Ht as (t1 & t2 & -> & _ & Ht).
    apply matches_seq in Ht as (t3 & t4 & -> & Hc & _).
    apply (matches_lit ":") in Hc as ->.
    unfold without in Hr. rewrite !all_chars_app in Hr.
    cbn in Hr. rewrite !andb_false_r in Hr. cbn in Hr.
    rewrite ?andb_false_r in Hr. discriminate.
Qed.

(** A runtime of two and a half minutes, and one that is not given. *)
Lemma runtime_example :
  parse_runtime "2:30" = VInt 150 /\ parse_runtime "n/a" = VNone.
Proof.
  destruct runtime_in_seconds as [Hminutes Hnone].
  split.
  - exact (Hminutes "2"%char "" "3"%char "0"%char "" eq_refl eq_refl).
  - exact (Hnone "n/a" eq_refl).
Defined.

(** ** The id of the settings of a trailer *)

Lemma split_without (x : ascii) (s : string) :
  without x s -> Py.split x s = [s].
Proof.
  unfold without. induction s as [|c s IH]; [reflexivity|].
  cbn [Py.all_chars Py.split]. intros Hs.
  apply andb_true_iff in Hs as [Hc Hs]. apply negb_true_iff in Hc.
  rewrite Ascii.eqb_sym in Hc. rewrite Hc, (IH Hs). reflexivity.
Qed.

(** The parts of a text are the parts in front of a separator followed
    by the parts behind it. *)
Lemma split_app (x : ascii) (a b : string) :
  Py.split x (a ++ String x b) = (Py.split x a ++ Py.split x b)%list.
Proof.
  induction a as [|c a IH].
  - cbn [append Py.split]. rewrite Ascii.eqb_refl. reflexivity.
  - cbn [append Py.split]. rewrite IH.
    destruct (Ascii.eqb c x); [reflexivity|].
    pose proof (split_not_nil x a) as Hne.
    destruct (Py.split x a) as [|w ws]; [contradiction|reflexivity].
Qed.

(** [join] gives back what [split] took apart. *)
Lemma join_split (x : ascii) (s : string) :
  Py.join (String x "") (Py.split x s) = s.
Proof.
  induction s as [|c s IH]; [reflexivity|].
  cbn [Py.split]. pose proof (split_not_nil x s) as Hne.
  destruct (Ascii.eqb_spec c x) as [->|_].
  - destruct (Py.split x s) as [|w ws]; [contradiction|].
    cbn [Py.join append]. f_equal. exact IH.
  - destruct (Py.split x s) as [|w ws]; [contradiction|].
    rewrite join_cons, IH. reflexivity.
Qed.

Lemma last_part_of (dir file : string) :
  without "/" file ->
  Py.last_part (Py.split "/" (dir ++ "/" ++ file)) = file.
Proof.
  intros Hf. unfold Py.last_part. cbn [append].
  rewrite split_app, (split_without "/" file Hf). apply last_last.
Qed.

(** X15.  The id under which the settings of a trailer are requested is
    the file name of its address up to the last underscore, in lower
    case, when the size behind that underscore has no underscore of its
    own; for a file name without an underscore the id is the empty
    text. *)
Theorem settings_id_of_address :
  (forall dir name size,
      without "/" name -> without "/" size -> without "_" size ->
      trailer_id_of (dir ++ "/" ++ name ++ "_" ++ size) = Py.lower name)
  /\ (forall dir file,
         without "/" file -> without "_" file ->
         trailer_id_of (dir ++ "/" ++ file) = "").
Proof.
  split.
  - intros dir name size Hn Hs Hu. unfold trailer_id_of.
    rewrite last_part_of by (apply without_app; [exact Hn|apply Hs]).
    unfold Py.rpartition_head. cbn [append].
    rewrite split_app, (split_without "_" size Hu), removelast_last.
    rewrite join_split. reflexivity.
  - intros dir file Hf Hu. unfold trailer_id_of.
    rewrite (last_part_of dir file Hf).
    unfold Py.rpartition_head. rewrite (split_without "_" file Hu).
    reflexivity.
Qed.

(** The trailer of the test of the source, and an address without an
    underscore. *)
Lemma settings_id_example :
  trailer_id_of
    "http://trailers.apple.com/movies/wb/manofsteel/ManOfSteel-tlr4_480p.mov"
  = "manofsteel-tlr4"
  /\ trailer_id_of "http://trailers.apple.com/movies/wb/manofsteel/trailer.mov"
     = "".
Proof.
  destruct settings_id_of_address as [Hname Hnone].
  split.
  - exact (Hname "http://trailers.apple.com/movies/wb/manofsteel"
             "ManOfSteel-tlr4" "480p.mov" eq_refl eq_refl eq_refl).
  - exact (Hnone "http://trailers.apple.com/movies/wb/manofsteel"
             "trailer.mov" eq_refl eq_refl).
Defined.

End TrailerFields.

(* ================================================================== *)
Module RequestFacts.

Import Requests.

Lemma appends_ret (A : Type) (a : A) : appends (ret a).
Proof. intros log; exists []; cbn; rewrite app_nil_r; reflexivity. Qed.

Lemma appends_raise (A : Type) (e : exn) : appends (@raise A e).
Proof. intros log; exists []; cbn; rewrite app_nil_r; reflexivity. Qed.

Lemma appends_lift (A : Type) (r : result A) : appends (lift r).
Proof. intros log; exists []; cbn; rewrite app_nil_r; reflexivity. Qed.

Lemma appends_bind (A B : Type) (m : M A) (k : A -> M B) :
  appends m -> (forall a, appends (k a)) -> appends (bind m k).
Proof.
  intros Hm Hk log. unfold bind. destruct (Hm log) as [more Hmore].
  destruct (m log) as [[a|e] log1]; cbn [snd] in Hmore; subst log1.
  - destruct (Hk a (log ++ more)%list) as [more' Hmore'].
    exists (more ++ more')%list. rewrite Hmore', app_assoc. reflexivity.
  - exists more; reflexivity.
Qed.

Lemma appends_download_webpage (H : Host) (url : string) :
  appends (_download_webpage url).
Proof. intros log; eexists; reflexivity. Qed.

Lemma appends_download_json (H : Host) (url : string) :
  appends (_download_json url).
Proof.
  unfold _download_json. apply appends_bind;
    [apply appends_download_webpage|intros; apply appends_lift].
Qed.

Lemma appends_download_xml (H : Host) (url : string)
    (transform : string -> string) (query headers : list (string * string)) :
  appends (_download_xml url transform query headers).
Proof. intros log; eexists; reflexivity. Qed.

(** The first request of a computation that starts with a download. *)
Lemma first_request (H : Host) (A : Type) (url : string)
    (k : value -> M A) (log : list request) :
  (forall a, appends (k a)) ->
  exists more,
    snd (bind (_download_json url) k log)
    = (log ++ mkRequest url [] [] :: more)%list.
Proof.
  intros Hk. unfold bind, _download_json, _download_webpage, bind, lift.
  destruct (of_option fetch_error (urlopen _)) as [page|e];
    [|exists []; reflexivity].
  destruct (of_option _ (json_loads page)) as [v|e]; [|exists []; reflexivity].
  destruct (Hk v (log ++ [mkRequest url [] []])%list) as [more Hmore].
  exists more. rewrite Hmore, <- app_assoc. reflexivity.
Qed.

(** Steps of a proof that a computation only adds requests. *)
Ltac appends_step :=
  first
    [ apply appends_ret
    | apply appends_raise
    | apply appends_lift
    | apply appends_download_json
    | apply appends_download_webpage
    | apply appends_download_xml
    | apply appends_bind; [|intros ?]
    | match goal with
      | |- appends (match ?x with _ => _ end) => destruct x
      | |- appends (if ?x then _ else _) => destruct x
      end ].

Section WithHost.

Context {H : Host}.
Hypothesis Hhost : adds_requests H.

Lemma appends_platform_step (relinker_url video_id platform : string)
    (st : RaiBaseIE.relinker_state) :
  appends (RaiBaseIE.platform_step relinker_url video_id platform st).
Proof.
  destruct Hhost as (Hm3u8 & Hf4m & _).
  unfold RaiBaseIE.platform_step.
  repeat first [ apply Hm3u8 | apply Hf4m | appends_step ].
Qed.

Lemma appends_platform_loop (relinker_url video_id : string)
    (platforms : list string) :
  forall st,
    appends (RaiBaseIE.platform_loop relinker_url video_id platforms st).
Proof.
  induction platforms as [|p rest IH]; intros st; cbn [RaiBaseIE.platform_loop].
  - apply appends_ret.
  - apply appends_bind; [apply appends_platform_step|exact IH].
Qed.

Lemma appends_extract_relinker_info (relinker_url video_id : string) :
  appends (RaiBaseIE._extract_relinker_info relinker_url video_id).
Proof.
  unfold RaiBaseIE._extract_relinker_info, raise_geo_restricted.
  destruct (Re.re_match RaiBaseIE.scheme_re relinker_url);
    [|apply appends_ret].
  apply appends_bind; [apply appends_platform_loop|intros st].
  repeat appends_step.
Qed.

End WithHost.

(** The hosts of the examples read no manifest. *)
Lemma host_adds_requests (serve : request -> option string)
    (documents : list (string * value)) (trees : list (string * xml))
    (meta : list string -> string -> option string) (reversed : bool) :
  adds_requests (Example.host serve documents trees meta reversed).
Proof.
  repeat split; intros; apply appends_ret.
Qed.

End RequestFacts.

Module RaiPlay.

Import Re ReLang ReLangFacts PatternFacts FirstMatch.
Import RaiBaseIE RaiPlayIE RaiPatterns.

Section WithHost.

Context {H : Host}.
Variable _extract_subtitles : string -> value -> result value.
Variable remove_start : value -> string -> result value.
Variables unified_timestamp _live_title : value -> result value.
Variable urljoin_value : string -> value -> value.

(** With the group [base] of the match known, the extraction starts
    with the request for the JSON of the media. *)
Lemma real_extract_first_request (pattern : regex) (url base : string)
    (m : match_object) (log : list request) :
  Requests.adds_requests H ->
  re_match pattern url = Some m ->
  group "base" m = Some base ->
  exists more,
    snd (_real_extract _extract_subtitles remove_start unified_timestamp
           _live_title urljoin_value pattern url log)
    = (log ++ mkRequest (base ++ ".json") [] [] :: more)%list.
Proof.
  intros Hhost Hm Hbase. unfold _real_extract.
  unfold bind at 1. unfold lift at 1. rewrite Hm. cbn [of_option].
  rewrite Hbase. cbn [Value.of_option add_text].
  unfold bind at 1. unfold lift at 1.
  unfold bind at 1. unfold lift at 1. cbn [Value.as_str].
  apply RequestFacts.first_request. intros media.
  repeat first [ apply (RequestFacts.appends_extract_relinker_info Hhost)
               | RequestFacts.appends_step ].
Qed.

End WithHost.

(** ** All the matches of a pattern, piece by piece *)

Lemma run_seq_single (subject : string) (a b : regex) (s : string)
    (c : captures) (s1 : string) (c1 : captures) :
  run subject a s c = [(s1, c1)] ->
  run subject (Seq a b) s c = run subject b s1 c1.
Proof. intros Ha. cbn [run]. rewrite Ha. cbn. apply app_nil_r. Qed.

Lemma run_group_single (subject name : string) (r : regex) (s : string)
    (c : captures) (s1 : string) (c1 : captures) :
  run subject r s c = [(s1, c1)] ->
  run subject (Group name r) s c = [(s1, (name, consumed s s1) :: c1)].
Proof. intros Hr. cbn [run]. rewrite Hr. reflexivity. Qed.

Lemma run_lit_app (subject w rest : string) (c : captures) :
  run subject (lit w) (w ++ rest) c = [(rest, c)].
Proof.
  induction w as [|a w IH]; [reflexivity|].
  cbn [lit append]. erewrite run_seq_single; [exact IH|].
  cbn [run]. rewrite Ascii.eqb_refl. reflexivity.
Qed.

Lemma run_times_chr (subject : string) (p : ascii -> bool) (n : nat)
    (ds rest : string) (c : captures) :
  String.length ds = n -> Py.all_chars p ds = true ->
  run subject (times n (Chr p)) (ds ++ rest) c = [(rest, c)].
Proof.
  revert ds; induction n as [|n IH]; intros [|a ds] Hn Hp; try discriminate.
  - reflexivity.
  - cbn [Py.all_chars] in Hp. apply andb_true_iff in Hp as [Ha Hp].
    cbn [times append].
    rewrite (run_seq_single subject (Chr p) (times n (Chr p)) _ c
               (ds ++ rest) c).
    + apply IH; [cbn in Hn; lia|exact Hp].
    + cbn [run]. rewrite Ha. reflexivity.
Qed.

Lemma run_uuid (subject uuid rest : string) (c : captures) :
  uuid_text uuid -> run subject _UUID_RE (uuid ++ rest) c = [(rest, c)].
Proof.
  intros (a & b & x & d & e & -> & [La Ha] & [Lb Hb] & [Lx Hx] & [Ld Hd]
          & [Le He]).
  unfold _UUID_RE. cbn [seqs fold_right]. rewrite !append_assoc.
  erewrite run_seq_single; [|apply run_times_chr; eassumption].
  erewrite run_seq_single; [|apply (run_lit_app subject "-")].
  erewrite run_seq_single; [|apply run_times_chr; eassumption].
  erewrite run_seq_single; [|apply (run_lit_app subject "-")].
  erewrite run_seq_single; [|apply run_times_chr; eassumption].
  erewrite run_seq_single; [|apply (run_lit_app subject "-")].
  erewrite run_seq_single; [|apply run_times_chr; eassumption].
  erewrite run_seq_single; [|apply (run_lit_app subject "-")].
  erewrite run_seq_single; [|apply run_times_chr; eassumption].
  reflexivity.
Qed.

(** The start of an address of the site leaves one way to go on. *)
Lemma run_site (subject site w rest : string) (r : regex) (c : captures) :
  In site raiplay_sites ->
  run subject
    (Seq (lit "http")
       (Seq (opt (lit "s"))
          (Seq (lit "://")
             (Seq (opt (lit "www.")) (Seq (lit "raiplay.it/") r)))))
    (site ++ rest) c
  = run subject r rest c.
Proof.
  intros Hsite. unfold raiplay_sites in Hsite.
  repeat destruct Hsite as [<-|Hsite]; try destruct Hsite;
    cbn; rewrite ?app_nil_r; reflexivity.
Qed.

Lemma flat_map_flat_map (A B C : Type) (f : A -> list B) (g : B -> list C)
    (l : list A) :
  flat_map g (flat_map f l) = flat_map (fun x => flat_map g (f x)) l.
Proof.
  induction l as [|x l IH]; [reflexivity|].
  cbn [flat_map]. rewrite flat_map_app, IH. reflexivity.
Qed.

Lemma flat_map_nonempty (A B : Type) (f : A -> list B) (l : list A) :
  flat_map f l <> [] -> exists x, In x l /\ f x <> [].
Proof.
  induction l as [|x l IH]; [intros Hn; contradiction|].
  cbn [flat_map]. destruct (f x) as [|y ys] eqn:E.
  - intros Hn. destruct (IH Hn) as [z [Hz Hfz]]. exists z; split; auto.
    right; exact Hz.
  - intros _. exists x; split; [left; reflexivity|rewrite E; discriminate].
Qed.

(** A lazy star of a class stops at the first place where what follows
    in the pattern matches. *)
Lemma lazy_star_first (A : Type) (subject : string) (p : ascii -> bool)
    (k : string * captures -> list A) (tail : string) (c : captures) (x : A) :
  hd_error (k (tail, c)) = Some x ->
  forall ds,
    Py.all_chars p ds = true ->
    (forall front back, ds = front ++ back -> back <> "" ->
                        k (back ++ tail, c) = []) ->
    forall fuel, String.length ds <= fuel ->
    hd_error (flat_map k (star_loop (run subject (Chr p)) false fuel
                            (ds ++ tail) c))
    = Some x.
Proof.
  intros Hk. induction ds as [|a ds IH]; intros Hp Hnone fuel Hfuel.
  - cbn [append]. destruct fuel; cbn [star_loop flat_map].
    + rewrite app_nil_r. exact Hk.
    + destruct (k (tail, c)); [discriminate|exact Hk].
  - cbn [Py.all_chars] in Hp. apply andb_true_iff in Hp as [Ha Hp].
    destruct fuel as [|n]; [cbn in Hfuel; lia|].
    cbn [append star_loop flat_map].
    pose proof (Hnone "" (String a ds) eq_refl ltac:(discriminate)) as H0.
    cbn [append] in H0. rewrite H0. clear H0.
    cbn [app run]. rewrite Ha. cbn [flat_map fst snd].
    replace (String.length (ds ++ tail) <? String.length (String a (ds ++ tail)))%nat
      with true by (symmetry; apply Nat.ltb_lt; cbn; lia).
    rewrite app_nil_r. apply IH; [exact Hp| |cbn in Hfuel; lia].
    intros front back -> Hb. apply (Hnone (String a front) back); auto.
Qed.

Lemma flat_map_map (A B C : Type) (f : A -> B) (g : B -> list C)
    (l : list A) :
  flat_map g (map f l) = flat_map (fun x => g (f x)) l.
Proof.
  induction l as [|x l IH]; [reflexivity|].
  cbn [map flat_map]. rewrite IH. reflexivity.
Qed.

(** What follows the lazy [.+?] in the pattern of [RaiPlayIE]: the rest
    of the group [base], and the extension behind the group. *)
Lemma media_tail_matches (subject whole t : string) (c : captures) :
  flat_map (fun sc : string * captures =>
              run subject (Seq (lit ".")
                             (Seq (Alt (lit "html") (lit "json")) Eps))
                (fst sc) (("base", consumed whole (fst sc)) :: snd sc))
    (run subject (Seq (lit "-") (Seq (Group "id" _UUID_RE) Eps)) t c)
  <> [] ->
  starts_media t.
Proof.
  intros Hne. apply flat_map_nonempty in Hne as [[s1 c1] [H1 Hne]].
  cbn [fst snd] in Hne.
  destruct (run subject _ s1 _) as [|[s2 c2] l] eqn:E2; [contradiction|].
  assert (H2 : In (s2, c2)
                 (run subject (Seq (lit ".")
                                 (Seq (Alt (lit "html") (lit "json")) Eps))
                    s1 (("base", consumed whole s1) :: c1)))
    by (rewrite E2; left; reflexivity).
  destruct (run_matches _ _ _ _ _ _ H1) as [t1 [-> Hm1]].
  destruct (run_matches _ _ _ _ _ _ H2) as [t2 [-> Hm2]].
  apply matches_seq in Hm1 as (d & t3 & -> & Hd & Hm1).
  apply (matches_lit "-") in Hd as ->.
  apply matches_seq in Hm1 as (u & t4 & -> & Hu & Hm1).
  apply matches_eps in Hm1 as ->.
  apply matches_group_inv in Hu. apply RaiIdentifiers.uuid_matches in Hu.
  apply matches_seq in Hm2 as (p & t5 & -> & Hp & Hm2).
  apply (matches_lit ".") in Hp as ->.
  apply matches_seq in Hm2 as (e & t6 & -> & He & Hm2).
  apply matches_eps in Hm2 as ->.
  exists u, e, s2. split; [|split; [exact Hu|]].
  - rewrite !append_empty_r, !append_assoc. reflexivity.
  - apply matches_alt in He as [He|He];
      [left; apply (matches_lit "html")|right; apply (matches_lit "json")];
      exact He.
Qed.

(** The match of the pattern of [RaiPlayIE]: the group [base] ends with
    the first UUID that an extension follows. *)
Lemma raiplay_match (site path uuid ext rest : string) :
  In site raiplay_sites ->
  path <> "" -> Py.all_chars dot path = true ->
  uuid_text uuid -> ext = "html" \/ ext = "json" ->
  earliest_media path ("-" ++ uuid ++ "." ++ ext ++ rest) ->
  exists m,
    re_match RaiPlayIE._VALID_URL
      (site ++ path ++ "-" ++ uuid ++ "." ++ ext ++ rest) = Some m
    /\ group "base" m = Some (site ++ path ++ "-" ++ uuid).
Proof.
  intros Hsite Hpath Hdot Huuid Hext Hfirst.
  set (tail := "-" ++ uuid ++ "." ++ ext ++ rest) in *.
  set (url := site ++ path ++ tail).
  exists (rest, [ ("base", site ++ path ++ "-" ++ uuid); ("id", uuid) ]).
  split; [|reflexivity].
  unfold re_match, match_at, RaiPlayIE._VALID_URL.
  cbn [seqs fold_right].
  change (run url (Seq (Group "base" ?b) ?k) url [])
    with (flat_map (fun sc : string * captures =>
                      run url k (fst sc) (snd sc))
            (map (fun sc : string * captures =>
                    (fst sc, ("base", consumed url (fst sc)) :: snd sc))
               (run url b url []))).
  rewrite flat_map_map. cbn [fst snd].
  match goal with
  | |- context [run url (Seq (lit "http") (Seq _ (Seq _ (Seq _ (Seq _ ?r)))))
                  url []] =>
      pose proof (run_site url site "" (path ++ tail) r [] Hsite) as Hs
  end.
  fold url in Hs. rewrite Hs. clear Hs.
  destruct path as [|a path']; [contradiction|].
  cbn [Py.all_chars] in Hdot. apply andb_true_iff in Hdot as [Ha Hdot].
  change (run url (Seq (lazy_plus (Chr dot)) ?r) ?s [])
    with (flat_map (fun sc : string * captures =>
                      run url r (fst sc) (snd sc))
            (run url (lazy_plus (Chr dot)) s [])).
  unfold lazy_plus.
  rewrite (run_seq_single url (Chr dot) (Star false (Chr dot))
             (String a path' ++ tail) [] (path' ++ tail) [])
    by (cbn [append run]; rewrite Ha; reflexivity).
  change (run url (Star false (Chr dot)) ?s ?c)
    with (star_loop (run url (Chr dot)) false (String.length s) s c).
  rewrite flat_map_flat_map.
  apply (lazy_star_first _ url dot _ tail []).
  - cbv beta. cbn [fst snd]. unfold tail.
    rewrite (run_seq_single url (lit "-") _ _ [] _ []
               (run_lit_app url "-" _ [])).
    rewrite (run_seq_single url (Group "id" _UUID_RE) Eps _ []
               ("." ++ ext ++ rest) [("id", uuid)]).
    2:{ rewrite (run_group_single url "id" _UUID_RE _ [] _ []
                   (run_uuid url uuid _ [] Huuid)).
        rewrite consumed_app. reflexivity. }
    cbn [run flat_map fst snd app].
    replace (consumed url ("." ++ ext ++ rest))
      with (site ++ String a path' ++ "-" ++ uuid).
    2:{ unfold url, tail. symmetry.
        replace (site ++ String a path' ++ "-" ++ uuid ++ "." ++ ext ++ rest)
          with ((site ++ String a path' ++ "-" ++ uuid)
                ++ "." ++ ext ++ rest)
          by (rewrite !append_assoc; reflexivity).
        apply consumed_app. }
    destruct Hext as [-> | ->]; cbn; rewrite ?Ascii.eqb_refl; reflexivity.
  - exact Hdot.
  - intros front back -> Hback. cbv beta. cbn [fst snd].
    match goal with |- ?l = [] => destruct l eqn:E; [reflexivity|] end.
    exfalso. apply (Hfirst (String a front) back eq_refl);
      [discriminate|exact Hback|].
    apply (media_tail_matches url url (back ++ tail) []).
    rewrite E. discriminate.
  - rewrite append_length. lia.
Qed.

Lemma run_live_site (subject site rest : string) (r : regex) (c : captures) :
  In site raiplay_sites ->
  run subject
    (Seq (lit "http")
       (Seq (opt (lit "s"))
          (Seq (lit "://")
             (Seq (opt (lit "www.")) (Seq (lit "raiplay.it/dirette/") r)))))
    (site ++ "dirette/" ++ rest) c
  = run subject r rest c.
Proof.
  intros Hsite. unfold raiplay_sites in Hsite.
  repeat destruct Hsite as [<-|Hsite]; try destruct Hsite;
    cbn; rewrite ?app_nil_r; reflexivity.
Qed.

(** The match of the pattern of [RaiPlayLiveIE]: the group [base] ends
    where the name of the channel ends. *)
Lemma live_match (site id rest : string) :
  In site raiplay_sites ->
  id <> "" -> Py.all_chars (none_of "/?#&") id = true ->
  stops (none_of "/?#&") rest ->
  exists m,
    re_match RaiPlayLiveIE._VALID_URL (site ++ "dirette/" ++ id ++ rest)
    = Some m
    /\ group "base" m = Some (site ++ "dirette/" ++ id).
Proof.
  intros Hsite Hid Hchars Hrest.
  set (url := site ++ "dirette/" ++ id ++ rest).
  exists (rest, [ ("base", site ++ "dirette/" ++ id); ("id", id) ]).
  split; [|reflexivity].
  unfold re_match, match_at, RaiPlayLiveIE._VALID_URL.
  cbn [seqs fold_right].
  assert (Hbody :
            hd_error (run url (Seq (Group "id" (plus (Chr (none_of "/?#&"))))
                                 Eps) (id ++ rest) [])
            = Some (rest, [("id", id)])).
  { assert (Hplus :
              hd_error (run url (plus (Chr (none_of "/?#&"))) (id ++ rest) [])
              = Some (rest, [])).
    { destruct id as [|a id']; [contradiction|].
      cbn [Py.all_chars] in Hchars.
      apply andb_true_iff in Hchars as [Ha Hchars].
      unfold plus. eapply first_seq; [apply first_chr; exact Ha|].
      apply first_star; assumption. }
    pose proof (first_group url "id" _ _ _ _ _ Hplus) as Hgroup.
    rewrite consumed_app in Hgroup.
    eapply first_seq; [exact Hgroup|reflexivity]. }
  change (run url (Group "base" ?b) url [])
    with (map (fun sc : string * captures =>
                 (fst sc, ("base", consumed url (fst sc)) :: snd sc))
            (run url b url [])).
  match goal with
  | |- context [run url (Seq (lit "http") (Seq _ (Seq _ (Seq _ (Seq _ ?r)))))
                  url []] =>
      pose proof (run_live_site url site (id ++ rest) r [] Hsite) as Hs
  end.
  fold url in Hs. rewrite Hs. clear Hs.
  destruct (run url _ (id ++ rest) []) as [|x l]; [discriminate|].
  inversion Hbody; subst x. cbn [map hd_error fst snd].
  unfold url.
  replace (site ++ "dirette/" ++ id ++ rest)
    with ((site ++ "dirette/" ++ id) ++ rest)
    by (rewrite !append_assoc; reflexivity).
  rewrite consumed_app. reflexivity.
Qed.

(** ** A path without a dot *)

Lemma hex_no_dot (c : ascii) :
  hex c = true -> negb (Ascii.eqb "." c) = true.
Proof.
  destruct c as [[] [] [] [] [] [] [] []]; vm_compute; intros E;
    first [reflexivity | discriminate].
Qed.

Lemma all_chars_weaken (p q : ascii -> bool) (s : string) :
  (forall c, p c = true -> q c = true) ->
  Py.all_chars p s = true -> Py.all_chars q s = true.
Proof.
  intros Hpq. induction s as [|c s IH]; [reflexivity|].
  cbn [Py.all_chars]. intros Hs. apply andb_true_iff in Hs as [Hc Hs].
  rewrite (Hpq c Hc), (IH Hs). reflexivity.
Qed.

Lemma all_chars_get (p : ascii -> bool) (s : string) (n : nat) (c : ascii) :
  Py.all_chars p s = true -> get n s = Some c -> p c = true.
Proof.
  revert n; induction s as [|a s IH]; intros n Hs Hn; [discriminate|].
  cbn [Py.all_chars] in Hs. apply andb_true_iff in Hs as [Ha Hs].
  destruct n as [|n]; cbn in Hn; [inversion Hn; subst; exact Ha|].
  exact (IH n Hs Hn).
Qed.

Lemma uuid_length (u : string) : uuid_text u -> String.length u = 36.
Proof.
  intros (a & b & x & d & e & -> & [La _] & [Lb _] & [Lx _] & [Ld _]
          & [Le _]).
  rewrite !append_length, La, Lb, Lx, Ld, Le. reflexivity.
Qed.

Lemma uuid_no_dot (u : string) :
  uuid_text u -> Py.all_chars (fun c => negb (Ascii.eqb "." c)) u = true.
Proof.
  intros (a & b & x & d & e & -> & [_ Ha] & [_ Hb] & [_ Hx] & [_ Hd]
          & [_ He]).
  rewrite !all_chars_app.
  rewrite (all_chars_weaken _ _ a hex_no_dot Ha),
    (all_chars_weaken _ _ b hex_no_dot Hb),
    (all_chars_weaken _ _ x hex_no_dot Hx),
    (all_chars_weaken _ _ d hex_no_dot Hd),
    (all_chars_weaken _ _ e hex_no_dot He).
  reflexivity.
Qed.

(** In a path without a dot the UUID that the extension follows is the
    first such place. *)
Lemma earliest_without_dot (path uuid ext rest : string) :
  Py.all_chars (fun c => negb (Ascii.eqb "." c)) path = true ->
  uuid_text uuid ->
  earliest_media path ("-" ++ uuid ++ "." ++ ext ++ rest).
Proof.
  intros Hpath Huuid front back -> _ Hback (u & e & r & Heq & Hu & _).
  rewrite all_chars_app in Hpath. apply andb_true_iff in Hpath as [_ Hb].
  assert (Hfront : Py.all_chars (fun c => negb (Ascii.eqb "." c))
                     (back ++ "-" ++ uuid) = true).
  { rewrite all_chars_app, Hb. cbn [append Py.all_chars].
    rewrite (uuid_no_dot uuid Huuid). reflexivity. }
  assert (Hget : get 37 (back ++ "-" ++ uuid ++ "." ++ ext ++ rest)
                 = Some "."%char).
  { rewrite Heq.
    replace ("-" ++ u ++ "." ++ e ++ r) with (("-" ++ u) ++ "." ++ e ++ r)
      by (rewrite !append_assoc; reflexivity).
    assert (L : String.length ("-" ++ u) = 37)
      by (cbn [append String.length]; rewrite (uuid_length u Hu);
          reflexivity).
    pose proof (append_correct2 ("-" ++ u) ("." ++ e ++ r) 0) as H2.
    rewrite L in H2. cbn [Nat.add] in H2. rewrite <- H2. reflexivity. }
  replace (back ++ "-" ++ uuid ++ "." ++ ext ++ rest)
    with ((back ++ "-" ++ uuid) ++ "." ++ ext ++ rest) in Hget
    by (rewrite !append_assoc; reflexivity).
  rewrite <- append_correct1 in Hget.
  - pose proof (all_chars_get _ _ _ _ Hfront Hget) as Hc. discriminate.
  - rewrite append_length. cbn [append String.length].
    rewrite (uuid_length uuid Huuid).
    destruct back; [contradiction|cbn; lia].
Qed.

(** X16.  The extractor of RaiPlay starts with the request for the JSON
    of the media.  For an address made of the start of the site, a path,
    a dash, a UUID, a dot, [html] or [json] and any rest, where the UUID
    is the first one of the path that such an extension follows, the
    address requested is the address up to the end of that UUID followed
    by [.json].  The extractor of the live channels, which inherits the
    method, requests the address up to the end of the name of the
    channel, that is up to the first of [/], [?], [#] and [&] behind
    [dirette/], followed by [.json].  The manifest readers of the host
    are taken to add their requests to the list, as the fetcher does. *)
Theorem media_json_address (H : Host)
    (_extract_subtitles : string -> value -> result value)
    (remove_start : value -> string -> result value)
    (unified_timestamp _live_title : value -> result value)
    (urljoin_value : string -> value -> value)
    (log : list request) :
  Requests.adds_requests H ->
  (forall site path uuid ext rest,
      In site raiplay_sites ->
      path <> "" -> Py.all_chars dot path = true ->
      uuid_text uuid -> ext = "html" \/ ext = "json" ->
      earliest_media path ("-" ++ uuid ++ "." ++ ext ++ rest) ->
      exists more,
        snd (_real_extract _extract_subtitles remove_start unified_timestamp
               _live_title urljoin_value RaiPlayIE._VALID_URL
               (site ++ path ++ "-" ++ uuid ++ "." ++ ext ++ rest) log)
        = (log ++ mkRequest (site ++ path ++ "-" ++ uuid ++ ".json") [] []
               :: more)%list)
  /\ (forall site id rest,
         In site raiplay_sites ->
         id <> "" -> Py.all_chars (none_of "/?#&") id = true ->
         stops (none_of "/?#&") rest ->
         exists more,
           snd (_real_extract _extract_subtitles remove_start
                  unified_timestamp _live_title urljoin_value
                  RaiPlayLiveIE._VALID_URL
                  (site ++ "dirette/" ++ id ++ rest) log)
           = (log ++ mkRequest (site ++ "dirette/" ++ id ++ ".json") [] []
                  :: more)%list).
Proof.
  intros Hhost. split.
  - intros site path uuid ext rest Hsite Hpath Hdot Huuid Hext Hfirst.
    destruct (raiplay_match site path uuid ext rest Hsite Hpath Hdot Huuid
                Hext Hfirst) as (m & Hm & Hbase).
    destruct (real_extract_first_request _extract_subtitles
                remove_start unified_timestamp _live_title urljoin_value
                _ _ _ m log Hhost Hm Hbase) as [more Hmore].
    exists more. rewrite Hmore, !append_assoc. reflexivity.
  - intros site id rest Hsite Hid Hchars Hrest.
    destruct (live_match site id rest Hsite Hid Hchars Hrest)
      as (m & Hm & Hbase).
    destruct (real_extract_first_request _extract_subtitles
                remove_start unified_timestamp _live_title urljoin_value
                _ _ _ m log Hhost Hm Hbase) as [more Hmore].
    exists more. rewrite Hmore, !append_assoc. reflexivity.
Qed.

(** The page of the test of the source with a query behind it; an
    address with a second UUID and extension, which is not the one
    requested; and a live channel. *)
Lemma media_json_example :
  (exists more,
      snd (@_real_extract Example.raiplay_host Example.no_tracks
             Example.without_start Example.same Example.same
             Example.joined_raiplay RaiPlayIE._VALID_URL
             Example.raiplay_url [])
      = ([] ++ mkRequest
                 "http://www.raiplay.it/video/2014/04/Report-del-07042014-cb27157f-9dd0-4aee-b788-b1f67643a391.json"
                 [] [] :: more)%list)
  /\ (exists more,
        snd (@_real_extract Example.raiplay_host Example.no_tracks
               Example.without_start Example.same Example.same
               Example.joined_raiplay RaiPlayIE._VALID_URL
               "https://raiplay.it/a-cb27157f-9dd0-4aee-b788-b1f67643a391.json-efebe701-969c-4593-92f3-285f0d1ce750.html"
               [])
        = ([] ++ mkRequest
                   "https://raiplay.it/a-cb27157f-9dd0-4aee-b788-b1f67643a391.json"
                   [] [] :: more)%list)
  /\ (exists more,
        snd (@_real_extract Example.raiplay_host Example.no_tracks
               Example.without_start Example.same Example.same
               Example.joined_raiplay RaiPlayLiveIE._VALID_URL
               "http://www.raiplay.it/dirette/rainews24?autoplay" [])
        = ([] ++ mkRequest "http://www.raiplay.it/dirette/rainews24.json"
                   [] [] :: more)%list).
Proof.
  assert (Huuid : uuid_text "cb27157f-9dd0-4aee-b788-b1f67643a391").
  { exists "cb27157f", "9dd0", "4aee", "b788", "b1f67643a391".
    repeat split; reflexivity. }
  destruct (media_json_address Example.raiplay_host Example.no_tracks
              Example.without_start Example.same Example.same
              Example.joined_raiplay []
              (RequestFacts.host_adds_requests _ _ _ _ _))
    as [Hmedia Hlive].
  split; [|split].
  - apply (Hmedia "http://www.raiplay.it/"
             "video/2014/04/Report-del-07042014"
             "cb27157f-9dd0-4aee-b788-b1f67643a391" "html" "?autoplay");
      [left; reflexivity|discriminate|reflexivity|exact Huuid
      |left; reflexivity|].
    apply earliest_without_dot; [reflexivity|exact Huuid].
  - apply (Hmedia "https://raiplay.it/" "a"
             "cb27157f-9dd0-4aee-b788-b1f67643a391" "json"
             "-efebe701-969c-4593-92f3-285f0d1ce750.html");
      [do 3 right; left; reflexivity|discriminate|reflexivity|exact Huuid
      |right; reflexivity|].
    apply earliest_without_dot; [reflexivity|exact Huuid].
  - apply (Hlive "http://www.raiplay.it/" "rainews24" "?autoplay");
      [left; reflexivity|discriminate|reflexivity|reflexivity].
Defined.

End RaiPlay.

(* ================================================================== *)
Module RaiPlayPlaylist.

Import Re ReLang ReLangFacts PatternFacts.
Import RaiPlayPlaylistIE.

(** What a loop meets in [v or []]: the members of a list, or the keys
    of a dict or the characters of a text, which are texts. *)
Lemma members_listed (v : value) (l : list value) :
  members v = Ok l ->
  l = listed v \/ exists s rest, l = VStr s :: rest.
Proof.
  unfold members, Value.iterate.
  destruct v as [| | | |s|l'|d]; cbn [Value.truthy listed].
  - intros E; inversion E; auto.
  - destruct b; [discriminate|intros E; inversion E; auto].
  - destruct (negb (n =? 0)%Z); [discriminate|intros E; inversion E; auto].
  - destruct f; try discriminate. intros E; inversion E; auto.
  - destruct s as [|a s]; cbn [Py.truthy]; intros E; inversion E; auto.
    right. cbn. eauto.
  - destruct l'; intros E; inversion E; auto.
  - destruct d as [|[k x] d]; intros E; inversion E; auto.
    right. cbn. eauto.
Qed.

Section WithHost.

Context {H : Host}.
Variable py_str : value -> string.
Variable urljoin_value : string -> value -> value.
Variable url_result : value -> string -> string -> value.

Lemma set_entries_requests (url base : string) (sets : list value) :
  forall entries log es log',
    set_entries py_str urljoin_value url_result url base sets entries log
    = (Ok es, log') ->
    log' = (log ++ set_requests py_str base
                     (List.filter Value.truthy (map (field "id") sets)))%list.
Proof.
  induction sets as [|s rest IH]; intros entries log es log'.
  - cbn. intros E; inversion E. rewrite app_nil_r. reflexivity.
  - cbn [set_entries map List.filter].
    unfold bind at 1. unfold lift at 1.
    destruct (Value.get "id" s) as [s_id|e] eqn:Eid; [|discriminate].
    assert (Hfield : field "id" s = s_id).
    { destruct s; try discriminate. cbn in Eid |- *. congruence. }
    rewrite Hfield.
    destruct (Value.truthy s_id) eqn:Et; [|apply IH].
    unfold bind at 1. unfold _download_json_not_fatal at 1.
    set (medias := match urlopen _ with Some _ => _ | None => _ end).
    intros Hrun.
    assert (Hrest : exists entries',
               set_entries py_str urljoin_value url_result url base rest
                 entries'
                 (log ++ [mkRequest (set_url py_str base s_id) [] []])%list
               = (Ok es, log')).
    { destruct (Value.truthy medias); [|eauto].
      unfold bind at 1, lift at 1 in Hrun.
      destruct (Value.get "items" medias) as [items|]; [|discriminate].
      unfold bind at 1, lift at 1 in Hrun.
      destruct (members items) as [l|]; [|discriminate].
      unfold bind at 1, lift at 1 in Hrun.
      destruct (item_entries urljoin_value url_result url l entries)
        as [entries'|]; [|discriminate].
      eauto. }
    destruct Hrest as [entries' Hrest].
    rewrite (IH _ _ _ _ Hrest). cbn [set_requests map].
    rewrite <- app_assoc. reflexivity.
Qed.

Lemma set_entries_of_texts (url base s : string) (rest entries : list value)
    (log : list request) :
  exists e log',
    set_entries py_str urljoin_value url_result url base (VStr s :: rest)
      entries log = (Raise e, log').
Proof. cbn. eauto. Qed.

Lemma block_entries_requests (url base : string) (blocks : list value) :
  forall entries log es log',
    block_entries py_str urljoin_value url_result url base blocks entries log
    = (Ok es, log') ->
    log' = (log ++ set_requests py_str base
                     (flat_map
                        (fun b => List.filter Value.truthy
                                    (map (field "id")
                                         (listed (field "sets" b))))
                        blocks))%list.
Proof.
  induction blocks as [|b rest IH]; intros entries log es log'.
  - cbn. intros E; inversion E. rewrite app_nil_r. reflexivity.
  - cbn [block_entries flat_map].
    unfold bind at 1. unfold lift at 1.
    destruct (Value.get "sets" b) as [sets_v|e] eqn:Esets; [|discriminate].
    assert (Hfield : field "sets" b = sets_v).
    { destruct b; try discriminate. cbn in Esets |- *. congruence. }
    rewrite Hfield.
    unfold bind at 1. unfold lift at 1.
    destruct (members sets_v) as [sets|e] eqn:Em; [|discriminate].
    unfold bind at 1.
    destruct (set_entries py_str urljoin_value url_result url base sets
                entries log) as [[es1|e] log1] eqn:Eset; [|discriminate].
    intros Hrest.
    apply members_listed in Em as [->|(s & srest & ->)].
    + rewrite (IH _ _ _ _ Hrest), (set_entries_requests _ _ _ _ _ _ _ Eset).
      unfold set_requests. rewrite <- app_assoc, <- map_app. reflexivity.
    + destruct (set_entries_of_texts url base s srest entries log)
        as (e & l & Hraise). congruence.
Qed.

End WithHost.

(** X17.  When the extractor of the programmes of RaiPlay returns a
    playlist, the requests it has sent are the one for the JSON of the
    programme followed by one request for each content set that has an
    id, in the order of the blocks and of the sets, for the address of
    the programme followed by the id and [.json]: a set without id is not
    requested, and a set whose download fails or that has no items still
    counts as requested. *)
Theorem playlist_requests (H : Host)
    (py_str : value -> string)
    (urljoin_value : string -> value -> value)
    (url_result : value -> string -> string -> value)
    (playlist_result : list value -> value -> value -> value -> value)
    (try_get : value -> (value -> result value) -> value)
    (url base page : string) (m : match_object) (program v : value)
    (log log' : list request) :
  re_match _VALID_URL url = Some m ->
  group "base" m = Some base ->
  urlopen (mkRequest (base ++ ".json") [] []) = Some page ->
  json_loads page = Some program ->
  _real_extract py_str urljoin_value url_result playlist_result try_get
    url log = (Ok v, log') ->
  log' = (log ++ mkRequest (base ++ ".json") [] []
              :: set_requests py_str base (set_ids program))%list.
Proof.
  intros Hm Hbase Hpage Hprogram. unfold _real_extract.
  unfold bind at 1. unfold lift at 1. rewrite Hm. cbn [of_option].
  rewrite Hbase. cbn [Value.of_option RaiPlayIE.add_text].
  unfold bind at 1. unfold lift at 1.
  unfold bind at 1. unfold lift at 1. cbn [Value.as_str].
  unfold bind at 1. unfold _download_json, _download_webpage.
  unfold bind at 1. rewrite Hpage. cbn [of_option]. unfold lift at 1.
  rewrite Hprogram. cbn [of_option].
  unfold bind at 1. unfold lift at 1.
  destruct (Value.get "blocks" program) as [blocks_v|] eqn:Eb; [|discriminate].
  assert (Hfield : field "blocks" program = blocks_v).
  { destruct program; try discriminate. cbn in Eb |- *. congruence. }
  unfold bind at 1. unfold lift at 1.
  destruct (members blocks_v) as [blocks|] eqn:Em; [|discriminate].
  unfold bind at 1.
  destruct (block_entries py_str urljoin_value url_result url base blocks []
              (log ++ [mkRequest (base ++ ".json") [] []])%list)
    as [[es|e] log1] eqn:Eblocks; [|discriminate].
  unfold bind at 1. unfold lift at 1.
  destruct (Value.get "name" program) as [name|]; [|discriminate].
  unfold ret. intros E; inversion E; subst; clear E.
  apply members_listed in Em as [->|(s & srest & ->)].
  - rewrite (block_entries_requests _ _ _ _ _ _ _ _ _ _ Eblocks).
    unfold set_ids, set_requests. rewrite <- app_assoc. reflexivity.
  - cbn in Eblocks. discriminate.
Qed.

(** A programme with two sets that have an id, the second of which is
    not served, and a set without id. *)
Lemma playlist_requests_example :
  exists v log',
    @_real_extract Example.raiplay_programme_host Example.python_str
      Example.joined_raiplay Example.video_entry
      Example.playlist_record Example.getter
      Example.programme_address []
    = (Ok v, log')
    /\ log'
       = [ mkRequest (Example.programme_base ++ ".json") [] [];
           mkRequest (Example.programme_base ++ "/ContentSet-1.json") [] [];
           mkRequest (Example.programme_base ++ "/ContentSet-2.json") [] [] ].
Proof.
  eexists; eexists. split; [vm_compute; reflexivity|].
  eapply (playlist_requests Example.raiplay_programme_host Example.python_str
            Example.joined_raiplay Example.video_entry
            Example.playlist_record Example.getter
            Example.programme_address Example.programme_base
            "<programme>" _ Example.programme _ []).
  - vm_compute. reflexivity.
  - reflexivity.
  - reflexivity.
  - reflexivity.
  - vm_compute. reflexivity.
Defined.

End RaiPlayPlaylist.

(* ================================================================== *)
Module RecordUpdate.

Import RaiBaseIE.

(** ** [info.update(relinker_info)] *)

Lemma get_set (k k' : string) (v : value) (d : Dict.t) :
  Dict.get k (Dict.set k' v d)
  = if String.eqb k' k then v else Dict.get k d.
Proof.
  induction d as [|[k0 v0] d IH]; cbn [Dict.set Dict.get].
  - destruct (String.eqb k' k); reflexivity.
  - destruct (String.eqb k0 k') eqn:E0; cbn [Dict.get].
    + apply String.eqb_eq in E0; subst k0.
      destruct (String.eqb k' k); reflexivity.
    + rewrite IH. destruct (String.eqb k0 k) eqn:E1; [|reflexivity].
      apply String.eqb_eq in E1; subst k0. rewrite String.eqb_sym, E0.
      reflexivity.
Qed.

(** X18.  In the record of an extractor of RAI the fields of the
    relinker win: [formats] is always the list of the relinker, and
    [duration] and [is_live] are those of the relinker when it has them;
    a field the relinker left at [None] does not erase the one the page
    gave, and every other field of the record is kept. *)
Theorem relinker_fields_override (info : Dict.t) (ri : relinker_info) :
  Dict.get "formats" (update_with info ri) = VList (map VDict (ri_formats ri))
  /\ Dict.get "duration" (update_with info ri)
     = match ri_duration ri with
       | Some v => v
       | None => Dict.get "duration" info
       end
  /\ Dict.get "is_live" (update_with info ri)
     = match ri_is_live ri with
       | Some v => v
       | None => Dict.get "is_live" info
       end
  /\ forall k,
       k <> "formats" -> k <> "duration" -> k <> "is_live" ->
       Dict.get k (update_with info ri) = Dict.get k info.
Proof.
  unfold update_with, Dict.update.
  destruct (ri_is_live ri) as [live|], (ri_duration ri) as [dur|];
    cbn [app fold_left fst snd]; rewrite ?get_set;
    (split; [reflexivity|]); (split; [reflexivity|]);
    (split; [reflexivity|]);
    intros k Hf Hd Hl; rewrite ?get_set;
    apply String.eqb_neq in Hf, Hd, Hl;
    rewrite 1?(String.eqb_sym "formats"), 1?(String.eqb_sym "duration"),
      1?(String.eqb_sym "is_live"), ?Hf, ?Hd, ?Hl; reflexivity.
Qed.

End RecordUpdate.

(* ================================================================== *)
Module RelinkerAnswers.

Import Re.
Import RaiBaseIE RaiNotions.

Lemma is_Y_other (o : option string) : o <> Some "Y" -> is_Y o = VBool false.
Proof.
  unfold is_Y. destruct o as [t|]; [|reflexivity]. intros Hne.
  destruct (String.eqb_spec t "Y") as [->|_]; [contradiction|reflexivity].
Qed.

Section WithHost.

Context {H : Host}.

(** A turn of the loop on an empty answer: the request is sent, no format
    is added and the state shows no geo-protection. *)
Lemma platform_step_empty (relinker_url video_id platform : string)
    (st : relinker_state) (relinker : xml) (log : list request) :
  answer relinker_url platform = Some relinker ->
  empty_answer relinker ->
  geoprotection st = VNone \/ geoprotection st = VBool false ->
  exists st',
    platform_step relinker_url video_id platform st log
    = (Ok st', (log ++ [platform_request relinker_url platform])%list)
    /\ formats st' = formats st
    /\ geoprotection st' = VBool false.
Proof.
  intros Hanswer [Hurl Hgeo] Hst.
  unfold answer, platform_request in Hanswer.
  unfold platform_step, bind, _download_xml, platform_request.
  destruct (urlopen _) as [page|]; [|discriminate].
  cbn [of_option rbind]. rewrite Hanswer. cbn [of_option].
  rewrite Hurl. unfold ret. eexists; split; [reflexivity|].
  cbn [formats geoprotection]. split; [reflexivity|].
  rewrite (is_Y_other _ Hgeo).
  destruct Hst as [->| ->]; reflexivity.
Qed.

End WithHost.

(** X19.  For an http or https address of the relinker, when the
    answers for the three platforms hold no media address and none of
    them signals geo-protection, the relinker operation raises nothing:
    it returns a result whose list of formats is empty, after the three
    requests for [mon], [flash] and [native], in this order. *)
Theorem relinker_without_media (H : Host) (relinker_url video_id : string)
    (mon flash native : xml) (log : list request) :
  prefix "http://" relinker_url = true
  \/ prefix "https://" relinker_url = true ->
  answer relinker_url "mon" = Some mon ->
  answer relinker_url "flash" = Some flash ->
  answer relinker_url "native" = Some native ->
  empty_answer mon -> empty_answer flash -> empty_answer native ->
  exists info,
    _extract_relinker_info relinker_url video_id log
    = (Ok info,
       (log ++ map (platform_request relinker_url)
                   ["mon"; "flash"; "native"])%list)
    /\ ri_formats info = [].
Proof.
  intros Hscheme Hmon Hflash Hnative Em Ef En.
  unfold _extract_relinker_info.
  destruct (re_match scheme_re relinker_url) as [m|] eqn:Es.
  2:{ apply Relinker.scheme_match in Es as [E1 E2].
      destruct Hscheme; congruence. }
  destruct (platform_step_empty relinker_url video_id "mon" initial_state
              mon log Hmon Em (or_introl eq_refl)) as (s1 & H1 & Hf1 & Hg1).
  destruct (platform_step_empty relinker_url video_id "flash" s1 flash
              (log ++ [platform_request relinker_url "mon"])%list
              Hflash Ef (or_intror Hg1)) as (s2 & H2 & Hf2 & Hg2).
  destruct (platform_step_empty relinker_url video_id "native" s2 native
              ((log ++ [platform_request relinker_url "mon"])
               ++ [platform_request relinker_url "flash"])%list
              Hnative En (or_intror Hg2)) as (s3 & H3 & Hf3 & Hg3).
  assert (Hloop :
            platform_loop relinker_url video_id ["mon"; "flash"; "native"]
              initial_state log
            = (Ok s3,
               (log ++ map (platform_request relinker_url)
                           ["mon"; "flash"; "native"])%list)).
  { cbn [platform_loop]. unfold bind. rewrite H1, H2, H3. unfold ret.
    cbn [map]. rewrite <- !app_assoc. reflexivity. }
  unfold bind. rewrite Hloop.
  assert (Hf : formats s3 = []) by (rewrite Hf3, Hf2, Hf1; reflexivity).
  rewrite Hf, Hg3. unfold ret. eexists; split; reflexivity.
Qed.

(** A relinker that answers [geoprotection] N and no address. *)
Lemma relinker_without_media_example :
  exists info,
    @_extract_relinker_info Example.plain_relinker_host
      Example.relinker_url "308709" []
    = (Ok info,
       ([] ++ map (@platform_request Example.plain_relinker_host
                     Example.relinker_url)
                  ["mon"; "flash"; "native"])%list)
    /\ ri_formats info = [].
Proof.
  apply (relinker_without_media Example.plain_relinker_host
           Example.relinker_url "308709" Example.plain_answer
           Example.plain_answer Example.plain_answer []);
    first [ left; reflexivity
          | reflexivity
          | split; [reflexivity|discriminate] ].
Defined.

End RelinkerAnswers.

(* ================================================================== *)
Module ContentNotFound.

Import Re.
Import RaiIE RaiNotions.


Section WithHost.

Context {H : Host}.
Variable subtitles : string -> value -> result value.



End WithHost.



End ContentNotFound.

Module AudioItems.

Import Re.
Import RaiBaseIE RaiIE RaiNotions.

(** X21.  For a content item whose type names an audio, the only
    request is the one for the JSON of the item: the relinker is not
    asked.  A record that is returned has one format, whose address is
    the [audioUrl] of the item and whose id is its [formatoAudio]. *)
Theorem audio_item_needs_no_relinker (H : Host)
    (subtitles : string -> value -> result value)
    (content_id url page type : string) (media : value)
    (log : list request) :
  urlopen (mkRequest (media_url content_id) [] []) = Some page ->
  json_loads page = Some media ->
  Value.item "type" media = Ok (VStr type) ->
  Py.contains "Audio" type = true ->
  snd (_extract_from_content_id subtitles content_id url log)
  = (log ++ [mkRequest (media_url content_id) [] []])%list
  /\ forall d,
       fst (_extract_from_content_id subtitles content_id url log)
       = Ok (VDict d) ->
       exists f,
         Dict.get "formats" d = VList [ VDict f ]
         /\ Value.item "audioUrl" media = Ok (Dict.get "url" f)
         /\ Value.get "formatoAudio" media = Ok (Dict.get "format_id" f).
Proof.
  intros Hpage Hmedia Htype Haudio.
  unfold _extract_from_content_id, _download_json, _download_webpage.
  fold (media_url content_id).
  cbv beta iota zeta delta [bind lift ret]. rewrite Hpage.
  cbn [of_option]. rewrite Hmedia. cbn [of_option].
  destruct (Value.item "name" media) as [name|]; [|split; [reflexivity|discriminate]].
  destruct (Value.as_str name AttributeError) as [title|];
    [|split; [reflexivity|discriminate]].
  rewrite Htype. cbn [contains_text]. rewrite Haudio.
  destruct (Value.get "formatoAudio" media) as [formato|];
    [|split; [reflexivity|discriminate]].
  destruct (Value.item "audioUrl" media) as [audio_url|];
    [|split; [reflexivity|discriminate]].
  cbn [ri_is_live ri_duration ri_formats].
  destruct (thumbnail_of url media "image") as [t1|];
    [|split; [reflexivity|discriminate]].
  destruct (thumbnail_of url media "image_medium") as [t2|];
    [|split; [reflexivity|discriminate]].
  destruct (thumbnail_of url media "image_300") as [t3|];
    [|split; [reflexivity|discriminate]].
  destruct (subtitles url media) as [subs|];
    [|split; [reflexivity|discriminate]].
  destruct (Value.get "desc" media) as [desc|];
    [|split; [reflexivity|discriminate]].
  destruct (Value.get "author" media) as [author|];
    [|split; [reflexivity|discriminate]].
  destruct (Value.get "date" media) as [date|];
    [|split; [reflexivity|discriminate]].
  destruct (Value.get "length" media) as [length|];
    [|split; [reflexivity|discriminate]].
  split; [reflexivity|].
  cbn [fst]. intros d E. inversion E; subst d; clear E.
  eexists. split; [reflexivity|]. split; reflexivity.
Qed.

(** The audio item of the example page. *)
Lemma audio_item_example :
  snd (@_extract_from_content_id (Example.rai_host false)
         Example.no_subtitles Example.page_id Example.rai_url [])
  = ([] ++ [mkRequest (media_url Example.page_id) [] []])%list
  /\ exists d f,
       fst (@_extract_from_content_id (Example.rai_host false)
              Example.no_subtitles Example.page_id Example.rai_url [])
       = Ok (VDict d)
       /\ Dict.get "formats" d = VList [ VDict f ]
       /\ Dict.get "url" f = VStr "http://www.rai.it/audio/from-the-page.mp3"
       /\ Dict.get "format_id" f = VStr "mp3".
Proof.
  destruct (audio_item_needs_no_relinker (Example.rai_host false)
              Example.no_subtitles Example.page_id Example.rai_url
              "<media of the page id>" "RaiTv Media Audio Item"
              (Example.audio_item "from-the-page") []
              eq_refl eq_refl eq_refl eq_refl) as [Hlog Hrecord].
  split; [exact Hlog|].
  destruct (Hrecord _ eq_refl) as (f & Hformats & Hurl & Hid).
  eexists; exists f. split; [reflexivity|]. split; [exact Hformats|].
  injection Hurl as Hurl. injection Hid as Hid. split; congruence.
Defined.

End AudioItems.

(* ================================================================== *)
Module ClipStreamer.

Import LivestreamfailsIE.

(** X22.  When the answer of the API has a [streamer] that is no
    object, such as [null], the extraction of the clip raises and gives
    no record: the default of [get('streamer', {})] is used for a key
    that is missing only.  With a text as [videoId] and no [createdAt]
    the error is an [AttributeError]. *)
Theorem streamer_that_is_no_object_raises (H : Host)
    (url id page : string) (api : Dict.t) (log : list request) :
  _match_id _VALID_URL url = Ok id ->
  urlopen (api_request id) = Some page ->
  json_loads page = Some (VDict api) ->
  Dict.mem "streamer" api = true ->
  (forall d, Dict.get "streamer" api <> VDict d) ->
  (exists e, fst (_real_extract url log) = Raise e)
  /\ (forall video,
         Value.truthy (Dict.get "createdAt" api) = false ->
         Dict.get "videoId" api = VStr video ->
         fst (_real_extract url log) = Raise AttributeError).
Proof.
  intros Hid Hpage Hjson Hmem Hstreamer.
  unfold _real_extract, _download_webpage, api_request in *.
  cbv beta iota zeta delta [bind lift ret]. rewrite Hid. cbv beta iota.
  rewrite Hpage. cbn [of_option]. rewrite Hjson. cbn [of_option Value.get].
  assert (Hcreator : Value.get "label" (Dict.get "streamer" api)
                     = Raise AttributeError).
  { destruct (Dict.get "streamer" api) as [| | | | | |d] eqn:E;
      try reflexivity.
    exfalso. exact (Hstreamer d eq_refl). }
  unfold get_default. rewrite Hmem. cbv beta iota.
  split.
  - destruct (convert_timestamp (Dict.get "createdAt" api)) as [ts|e];
      [|eexists; reflexivity].
    destruct (Value.str_add video_prefix (Dict.get "videoId" api)) as [u|e];
      [|eexists; reflexivity].
    rewrite Hcreator. eexists; reflexivity.
  - intros video Hcreated Hvideo.
    unfold convert_timestamp. rewrite Hcreated, Hvideo.
    cbn [Value.str_add]. rewrite Hcreator. reflexivity.
Qed.

(** A clip whose streamer is [null]. *)
Lemma streamer_null_example :
  fst (@_real_extract (Example.clip_host Example.clip_api_without_streamer)
         Example.clip_url [])
  = Raise AttributeError.
Proof.
  refine (proj2 (streamer_that_is_no_object_raises
                   (Example.clip_host Example.clip_api_without_streamer)
                   Example.clip_url "139200" "<answer of the API>"
                   Example.clip_api_without_streamer []
                   eq_refl eq_refl eq_refl eq_refl _)
            "6b4c8ac7a1e5.mp4" eq_refl eq_refl).
  intros d; discriminate.
Defined.

End ClipStreamer.
